(** * story_cli: the persistence core (projects, characters, character index)

    A shallow embedding of [story_cli.models] and [story_cli.services]:
    the pydantic models become records with their validators as functions,
    the services become programs in a state-and-exception monad over a model
    of the file system, and the properties of the specification are proved
    (or refuted at concrete inputs) about these definitions.

    Conventions.
    - Python [str] is [string]; characters are bytes, and [lower], [strip]
      and [isalnum] follow Python on the ASCII range. Lower-casing keeps
      the length of such a string, which [str.lower] does not do on every
      string (U+0130 becomes two code points): no proof below uses the
      length of a lower-cased string, and where that length matters it is
      a hypothesis of the statement.
    - A [pathlib.Path] is the list of its components.
    - The text of a JSON file is represented by the value it encodes
      ([content]); [model_dump_json] and [model_validate_json] are the
      injection into and the validating projection out of that type.
    - [datetime.now()] reads a clock kept in the state. *)

From Stdlib Require Import ZArith Ascii Floats Uint63.
From stdpp Require Import gmap strings list fin_maps.

Local Open Scope Z_scope.

(** ** Python [str] methods *)

Module Str.

Definition truthy (s : string) : bool :=
  match s with EmptyString => false | String _ _ => true end.

Definition is_upper (c : ascii) : bool :=
  let n := nat_of_ascii c in ((65 <=? n) && (n <=? 90))%nat.
Definition is_lower (c : ascii) : bool :=
  let n := nat_of_ascii c in ((97 <=? n) && (n <=? 122))%nat.
Definition is_digit (c : ascii) : bool :=
  let n := nat_of_ascii c in ((48 <=? n) && (n <=? 57))%nat.
Definition is_alnum (c : ascii) : bool :=
  is_upper c || is_lower c || is_digit c.

(** [str.isspace] on the ASCII range: TAB, LF, VT, FF, CR, the four
    separators FS..US, and the blank. *)
Definition is_space (c : ascii) : bool :=
  let n := nat_of_ascii c in
  ((9 <=? n) && (n <=? 13) || (28 <=? n) && (n <=? 32))%nat.

(** [str.lower] on the ASCII range: the letters A..Z are mapped, every
    other character is left as it is. *)
Definition lower_char (c : ascii) : ascii :=
  if is_upper c then ascii_of_nat (nat_of_ascii c + 32) else c.

Fixpoint lower (s : string) : string :=
  match s with
  | EmptyString => EmptyString
  | String c s' => String (lower_char c) (lower s')
  end.

(** [s.replace(old, new)] for a one-character [old]. *)
Fixpoint replace (old : ascii) (new : string) (s : string) : string :=
  match s with
  | EmptyString => EmptyString
  | String c s' =>
      if Ascii.eqb c old then new +:+ replace old new s'
      else String c (replace old new s')
  end.

Fixpoint lstrip (s : string) : string :=
  match s with
  | EmptyString => EmptyString
  | String c s' => if is_space c then lstrip s' else s
  end.

Fixpoint rstrip (s : string) : string :=
  match s with
  | EmptyString => EmptyString
  | String c s' =>
      let r := rstrip s' in
      if is_space c && negb (truthy r) then EmptyString else String c r
  end.

Definition strip (s : string) : string := lstrip (rstrip s).

Fixpoint all_chars (p : ascii → bool) (s : string) : bool :=
  match s with
  | EmptyString => true
  | String c s' => p c && all_chars p s'
  end.

(** [s.isalnum()]: every character alphanumeric and at least one. *)
Definition isalnum (s : string) : bool := truthy s && all_chars is_alnum s.

(** [sep.join(parts)] *)
Fixpoint join (sep : string) (parts : list string) : string :=
  match parts with
  | [] => EmptyString
  | [p] => p
  | p :: rest => p +:+ sep +:+ join sep rest
  end.

Fixpoint startswith (pre s : string) : bool :=
  match pre, s with
  | EmptyString, _ => true
  | String a pre', String b s' => Ascii.eqb a b && startswith pre' s'
  | String _ _, EmptyString => false
  end.

(** [sub in s] *)
Fixpoint contains (sub s : string) : bool :=
  startswith sub s ||
  match s with
  | EmptyString => false
  | String _ s' => contains sub s'
  end.

(** [s.split(sep)] for a one-character separator. *)
Fixpoint split (sep : ascii) (s : string) : list string :=
  match s with
  | EmptyString => [EmptyString]
  | String c s' =>
      if Ascii.eqb c sep then EmptyString :: split sep s'
      else match split sep s' with
           | [] => [String c EmptyString]
           | w :: ws => String c w :: ws
           end
  end.

Definition len_between (lo hi : nat) (s : string) : bool :=
  ((lo <=? String.length s) && (String.length s <=? hi))%nat.

Fixpoint any_char (p : ascii → bool) (s : string) : bool :=
  match s with
  | EmptyString => false
  | String c s' => p c || any_char p s'
  end.

(** The characters that the character-name validator lets through, and
    those that remain after sanitizing. *)
Definition name_char (c : ascii) : bool :=
  is_alnum c || Ascii.eqb c "'" || Ascii.eqb c "_" || Ascii.eqb c "-"
  || Ascii.eqb c " ".

Definition dir_char (c : ascii) : bool :=
  is_alnum c || Ascii.eqb c "_" || Ascii.eqb c "-".

End Str.

(** ** Exceptions and results *)

Inductive exn : Type :=
  | ProjectNotFoundError (path : string)
  | ProjectValidationError (errors : list string)
  | ProjectExistsError (name : string)
  | CharacterNotFoundError (name : string)
  | CharacterExistsError (name : string)
  | RelationshipDependencyError (character_name : string)
                                (dependent_characters : list string)
  | ValidationError (msg : string)       (* pydantic_core.ValidationError *)
  | JSONDecodeError (msg : string)
  | OSError (msg : string).

Inductive result (A : Type) : Type :=
  | Ok (a : A)
  | Raise (e : exn).
Arguments Ok {A} a.
Arguments Raise {A} e.

Definition is_ok {A} (r : result A) : bool :=
  match r with Ok _ => true | Raise _ => false end.

(** Sequencing of pure checks that may raise. *)
Definition rbind {A B} (r : result A) (k : A → result B) : result B :=
  match r with Ok a => k a | Raise e => Raise e end.

Definition require (b : bool) (msg : string) : result unit :=
  if b then Ok tt else Raise (ValidationError msg).

Fixpoint rmap {A B} (f : A → result B) (l : list A) : result (list B) :=
  match l with
  | [] => Ok []
  | x :: l' => rbind (f x) (λ y, rbind (rmap f l') (λ ys, Ok (y :: ys)))
  end.

Definition ropt {A} (f : A → result A) (o : option A) : result (option A) :=
  match o with
  | None => Ok None
  | Some a => rbind (f a) (λ a', Ok (Some a'))
  end.

(** A field declared [Optional[str] = Field(None, max_length=n)]. *)
Definition opt_max_length (n : nat) (what : string) (o : option string)
  : result unit :=
  match o with
  | None => Ok tt
  | Some s => require (String.length s <=? n)%nat what
  end.

(** A truthiness test on [Optional[str]]: present and not empty. *)
Definition opt_truthy (o : option string) : bool :=
  match o with Some s => Str.truthy s | None => false end.

(** ** utils/validation.py *)

Definition sanitize_for_filesystem (name : string) : string :=
  Str.replace "'" "" (Str.replace " " "_" (Str.lower name)).

(** The character classes of the two name patterns: [[a-zA-Z0-9\s\-_]] and
    [[a-zA-Z0-9\s\-_']]; [\s] is [str.isspace] on a [str] pattern. *)
Definition project_name_class (c : ascii) : bool :=
  Str.is_alnum c || Str.is_space c || Ascii.eqb c "-" || Ascii.eqb c "_".

Definition character_name_class (c : ascii) : bool :=
  Str.is_alnum c || Str.is_space c || Ascii.eqb c "-" || Ascii.eqb c "_"
  || Ascii.eqb c "'".

(** [re.match(r"^[a-zA-Z0-9][a-zA-Z0-9\s\-_]*$", name)]: the class holds
    the newline, so the final [$] asks for the end of the string. *)
Definition is_valid_project_name (name : string) : bool :=
  if negb (Str.truthy name) || negb (Str.truthy (Str.strip name)) then false
  else
    match name with
    | String c rest =>
        Str.is_alnum c && Str.all_chars project_name_class rest
    | EmptyString => false
    end.

(** [re.match(r"^[a-zA-Z][a-zA-Z0-9\s\-_']*$", name)] *)
Definition is_valid_character_name (name : string) : bool :=
  if negb (Str.truthy name) || negb (Str.truthy (Str.strip name)) then false
  else
    match name with
    | String c rest =>
        (Str.is_upper c || Str.is_lower c)
        && Str.all_chars character_name_class rest
    | EmptyString => false
    end.

Definition validate_genre (genre : string) : bool :=
  if negb (Str.truthy genre) || negb (Str.truthy (Str.strip genre)) then false
  else Str.len_between 1 50 (Str.strip genre).

Definition validate_synopsis (synopsis : string) : bool :=
  if negb (Str.truthy synopsis) || negb (Str.truthy (Str.strip synopsis))
  then false
  else Str.len_between 1 2000 (Str.strip synopsis).

(** ** models/enums.py *)

Inductive CharacterRole :=
  PROTAGONIST | LOVE_INTEREST | ANTAGONIST | SUPPORTING | BACKGROUND.

Inductive RelationshipType :=
  FAMILY | FRIEND | ENEMY | ROMANTIC | PROFESSIONAL | ACQUAINTANCE.

Definition CharacterRole_value (r : CharacterRole) : string :=
  match r with
  | PROTAGONIST => "protagonist"
  | LOVE_INTEREST => "love_interest"
  | ANTAGONIST => "antagonist"
  | SUPPORTING => "supporting"
  | BACKGROUND => "background"
  end.

(** [CharacterRole(s)]: the member whose value is [s], else [ValueError]. *)
Definition CharacterRole_of_value (s : string) : option CharacterRole :=
  if String.eqb s "protagonist" then Some PROTAGONIST
  else if String.eqb s "love_interest" then Some LOVE_INTEREST
  else if String.eqb s "antagonist" then Some ANTAGONIST
  else if String.eqb s "supporting" then Some SUPPORTING
  else if String.eqb s "background" then Some BACKGROUND
  else None.

Definition CharacterRole_eqb (a b : CharacterRole) : bool :=
  String.eqb (CharacterRole_value a) (CharacterRole_value b).

(** ** models/project.py *)

Module Project.

Record t := mk {
  name : string;
  genre : string;
  synopsis : string;
  created_at : Z;
}.

Definition validate_project_name (v : string) : result string :=
  let stripped := Str.strip v in
  if negb (Str.truthy stripped) then
    Raise (ValidationError "Project name cannot be empty")
  else
    let test_str :=
      Str.replace "_" "" (Str.replace "-" "" (Str.replace " " "" stripped)) in
    if negb (Str.isalnum test_str) then
      Raise (ValidationError
        "Project name can only contain letters, numbers, spaces, hyphens, and underscores")
    else Ok stripped.

Definition validate_genre (v : string) : result string :=
  let stripped := Str.strip v in
  if negb (Str.truthy stripped) then
    Raise (ValidationError "Genre cannot be empty")
  else Ok (Str.lower stripped).

Definition validate_synopsis (v : string) : result string :=
  let stripped := Str.strip v in
  if negb (Str.truthy stripped) then
    Raise (ValidationError "Synopsis cannot be empty")
  else Ok stripped.

(** Validation of the fields of a [Project]: the [Field] length
    constraints apply to the value as given, then the field validator
    (mode "after") normalises it. *)
Definition model_validate (name genre synopsis : string) (created_at : Z)
  : result t :=
  rbind (require (Str.len_between 1 100 name) "name: length") (λ _,
  rbind (validate_project_name name) (λ name',
  rbind (require (Str.len_between 1 50 genre) "genre: length") (λ _,
  rbind (validate_genre genre) (λ genre',
  rbind (require (Str.len_between 1 2000 synopsis) "synopsis: length") (λ _,
  rbind (validate_synopsis synopsis) (λ synopsis',
  Ok (mk name' genre' synopsis' created_at))))))).

End Project.

(** ** models/character.py *)

Definition limit_list (n : nat) (msg : string) (v : list string)
  : result (list string) :=
  if (n <? length v)%nat then Raise (ValidationError msg) else Ok v.

Module CharacterBasics.

Record t := mk {
  name : string;
  age : option Z;
  gender : option string;
  role : CharacterRole;
}.

Definition validate_character_name (v : string) : result string :=
  let stripped := Str.strip v in
  if negb (Str.truthy stripped) then
    Raise (ValidationError "Character name cannot be empty")
  else
    let test_str :=
      Str.replace "'" "" (Str.replace "_" "" (Str.replace "-" ""
        (Str.replace " " "" stripped))) in
    if negb (Str.isalnum test_str) then
      Raise (ValidationError
        "Name can only contain letters, numbers, spaces, hyphens, underscores, and apostrophes")
    else Ok stripped.

Definition model_validate (b : t) : result t :=
  rbind (require (Str.len_between 1 100 (name b)) "name: length") (λ _,
  rbind (validate_character_name (name b)) (λ name',
  rbind (require (match age b with
                  | None => true
                  | Some a => (0 <=? a) && (a <=? 500)
                  end) "age: range") (λ _,
  rbind (opt_max_length 50 "gender: length" (gender b)) (λ _,
  Ok (mk name' (age b) (gender b) (role b)))))).

End CharacterBasics.

Module HairDescription.
Record t := mk {
  color : option string;
  style : option string;
  length : option string;
}.
Definition model_validate (h : t) : result t :=
  rbind (opt_max_length 50 "color: length" (color h)) (λ _,
  rbind (opt_max_length 50 "style: length" (style h)) (λ _,
  rbind (opt_max_length 50 "length: length" (length h)) (λ _,
  Ok h))).
End HairDescription.

Module EyeDescription.
Record t := mk {
  color : option string;
  shape : option string;
}.
Definition model_validate (e : t) : result t :=
  rbind (opt_max_length 50 "color: length" (color e)) (λ _,
  rbind (opt_max_length 50 "shape: length" (shape e)) (λ _,
  Ok e)).
End EyeDescription.

Module CharacterAppearance.
Record t := mk {
  hair : option HairDescription.t;
  eyes : option EyeDescription.t;
  skin_tone : option string;
  height : option string;
  build : option string;
  distinctive_features : list string;
  clothing_style : option string;
  accessories : list string;
}.
Definition model_validate (a : t) : result t :=
  rbind (ropt HairDescription.model_validate (hair a)) (λ _,
  rbind (ropt EyeDescription.model_validate (eyes a)) (λ _,
  rbind (opt_max_length 50 "skin_tone: length" (skin_tone a)) (λ _,
  rbind (opt_max_length 50 "height: length" (height a)) (λ _,
  rbind (opt_max_length 50 "build: length" (build a)) (λ _,
  rbind (limit_list 10 "Maximum 10 items allowed"
           (distinctive_features a)) (λ _,
  rbind (opt_max_length 200 "clothing_style: length"
           (clothing_style a)) (λ _,
  rbind (limit_list 10 "Maximum 10 items allowed" (accessories a)) (λ _,
  Ok a)))))))).
End CharacterAppearance.

Module CharacterPersonality.
Record t := mk {
  primary_traits : list string;
  secondary_traits : list string;
  flaws : list string;
  speaking_style : option string;
  speech_quirks : list string;
  motivations : list string;
  fears : list string;
  secrets : list string;
}.
Definition model_validate (p : t) : result t :=
  rbind (limit_list 5 "Maximum 5 primary traits allowed"
           (primary_traits p)) (λ _,
  rbind (limit_list 3 "Maximum 3 items allowed" (secondary_traits p)) (λ _,
  rbind (limit_list 3 "Maximum 3 items allowed" (flaws p)) (λ _,
  rbind (opt_max_length 100 "speaking_style: length"
           (speaking_style p)) (λ _,
  rbind (limit_list 5 "Maximum 5 items allowed" (speech_quirks p)) (λ _,
  rbind (limit_list 5 "Maximum 5 items allowed" (motivations p)) (λ _,
  rbind (limit_list 5 "Maximum 5 items allowed" (fears p)) (λ _,
  rbind (limit_list 5 "Maximum 5 items allowed" (secrets p)) (λ _,
  Ok p)))))))).
End CharacterPersonality.

Module CharacterBackstory.
Record t := mk {
  summary : string;
  full : option string;
  key_events : list string;
  secrets : list string;
}.
Definition model_validate (b : t) : result t :=
  rbind (require (Str.len_between 1 500 (summary b)) "summary: length") (λ _,
  rbind (opt_max_length 5000 "full: length" (full b)) (λ _,
  rbind (limit_list 10 "Maximum 10 key events allowed" (key_events b)) (λ _,
  rbind (limit_list 5 "Maximum 5 secrets allowed" (secrets b)) (λ _,
  Ok b)))).
End CharacterBackstory.

Module Relationship.
Record t := mk {
  target_character : string;
  type : RelationshipType;
  dynamic : string;
  initial_feeling : option string;
  history : option string;
  tension_points : list string;
}.
Definition model_validate (r : t) : result t :=
  rbind (require (Str.len_between 1 200 (dynamic r)) "dynamic: length") (λ _,
  rbind (opt_max_length 200 "initial_feeling: length"
           (initial_feeling r)) (λ _,
  rbind (opt_max_length 500 "history: length" (history r)) (λ _,
  rbind (limit_list 5 "Maximum 5 tension points allowed"
           (tension_points r)) (λ _,
  Ok r)))).
End Relationship.

(** [int(x)] on a Python float: truncation toward zero. *)
Definition int_of_float (x : float) : Z :=
  match Prim2SF x with
  | S754_finite s m e =>
      let v := if 0 <=? e then Z.pos m * 2 ^ e
               else Z.quot (Z.pos m) (2 ^ (- e)) in
      if s then - v else v
  | _ => 0
  end.

Definition float_of_nat (n : nat) : float :=
  PrimFloat.of_uint63 (Uint63.of_Z (Z.of_nat n)).

(** [sum(bs)] on a list of [bool]. *)
Definition sum_bool (bs : list bool) : nat :=
  foldr (λ (b : bool) acc, ((if b then 1 else 0) + acc)%nat) 0%nat bs.

Module Character.

Record t := mk {
  basics : CharacterBasics.t;
  appearance : option CharacterAppearance.t;
  personality : option CharacterPersonality.t;
  backstory : option CharacterBackstory.t;
  relationships : list Relationship.t;
  lora_trigger : option string;
  created_at : Z;
  updated_at : Z;
}.

Definition set_relationships (rs : list Relationship.t) (self : t) : t :=
  mk (basics self) (appearance self) (personality self) (backstory self)
     rs (lora_trigger self) (created_at self) (updated_at self).
Definition set_lora_trigger (l : option string) (self : t) : t :=
  mk (basics self) (appearance self) (personality self) (backstory self)
     (relationships self) l (created_at self) (updated_at self).
Definition set_created_at (ts : Z) (self : t) : t :=
  mk (basics self) (appearance self) (personality self) (backstory self)
     (relationships self) (lora_trigger self) ts (updated_at self).
Definition set_updated_at (ts : Z) (self : t) : t :=
  mk (basics self) (appearance self) (personality self) (backstory self)
     (relationships self) (lora_trigger self) (created_at self) ts.

(** [basics] is a required field, so [self.basics is not None] holds for
    every record. *)
Definition get_completion_percentage (self : t) : Z :=
  let sections :=
    [ true;
      bool_decide (is_Some (appearance self));
      bool_decide (is_Some (personality self));
      bool_decide (is_Some (backstory self));
      (0 <? length (relationships self))%nat ] in
  int_of_float
    (PrimFloat.mul
       (PrimFloat.div (float_of_nat (sum_bool sections))
                      (float_of_nat (length sections)))
       (float_of_nat 100)).

Definition lower_underscored (s : string) : string :=
  Str.replace " " "_" (Str.lower s).

Definition generate_lora_trigger (self : t) : string :=
  match appearance self with
  | None => lower_underscored (CharacterBasics.name (basics self))
  | Some appearance =>
      let parts := [lower_underscored (CharacterBasics.name (basics self))] in
      let parts :=
        match CharacterAppearance.hair appearance with
        | Some hair =>
            let hair_parts := [] in
            let hair_parts :=
              match HairDescription.color hair with
              | Some c => if Str.truthy c then hair_parts ++ [c]
                          else hair_parts
              | None => hair_parts
              end in
            let hair_parts :=
              match HairDescription.style hair with
              | Some s => if Str.truthy s then hair_parts ++ [s]
                          else hair_parts
              | None => hair_parts
              end in
            match hair_parts with
            | [] => parts
            | _ => parts ++ [Str.join "_" hair_parts +:+ "_hair"]
            end
        | None => parts
        end in
      let parts :=
        match CharacterAppearance.eyes appearance with
        | Some eyes =>
            match EyeDescription.color eyes with
            | Some c => if Str.truthy c then parts ++ [c +:+ "_eyes"]
                        else parts
            | None => parts
            end
        | None => parts
        end in
      let parts :=
        foldl (λ parts feature, parts ++ [lower_underscored feature])
              parts
              (take 2 (CharacterAppearance.distinctive_features appearance))
      in
      Str.join ", " parts
  end.

(** The "after" model validator. *)
Definition update_lora_trigger (self : t) : t :=
  match appearance self with
  | Some _ =>
      if negb (opt_truthy (lora_trigger self))
      then set_lora_trigger (Some (generate_lora_trigger self)) self
      else self
  | None => self
  end.

Definition model_validate (c : t) : result t :=
  rbind (CharacterBasics.model_validate (basics c)) (λ basics',
  rbind (ropt CharacterAppearance.model_validate (appearance c)) (λ _,
  rbind (ropt CharacterPersonality.model_validate (personality c)) (λ _,
  rbind (ropt CharacterBackstory.model_validate (backstory c)) (λ _,
  rbind (rmap Relationship.model_validate (relationships c)) (λ _,
  Ok (update_lora_trigger
        (mk basics' (appearance c) (personality c) (backstory c)
            (relationships c) (lora_trigger c)
            (created_at c) (updated_at c)))))))).

End Character.

Module CharacterIndexEntry.
Record t := mk {
  name : string;
  role : CharacterRole;
  age : option Z;
  path : string;
  updated_at : Z;
}.
End CharacterIndexEntry.

Module CharacterIndex.

Record t := mk { characters : list CharacterIndexEntry.t }.

Definition empty : t := mk [].

Definition get_entry (name : string) (self : t)
  : option CharacterIndexEntry.t :=
  let name_lower := Str.lower name in
  List.find (λ entry, String.eqb (Str.lower (CharacterIndexEntry.name entry))
                                 name_lower)
            (characters self).

Definition add_entry (entry : CharacterIndexEntry.t) (self : t) : t :=
  let kept :=
    List.filter
      (λ e, negb (String.eqb (Str.lower (CharacterIndexEntry.name e))
                             (Str.lower (CharacterIndexEntry.name entry))))
      (characters self) in
  mk (kept ++ [entry]).

(** Returns the new index and whether an entry was removed. *)
Definition remove_entry (name : string) (self : t) : t * bool :=
  let original_len := length (characters self) in
  let kept :=
    List.filter
      (λ e, negb (String.eqb (Str.lower (CharacterIndexEntry.name e))
                             (Str.lower name)))
      (characters self) in
  (mk kept, (length kept <? original_len)%nat).

End CharacterIndex.

(** ** JSON files

    The text of a file is represented by the value it encodes: what
    [model_dump_json] of each model writes, or text that is not JSON. *)

Inductive content : Type :=
  | ProjectJson (p : Project.t)
  | CharacterJson (c : Character.t)
  | IndexJson (i : CharacterIndex.t)
  | NotJson (text : string).

Module Json.

(** [Project.model_validate_json]: the fields are validated again. An
    object without the required keys, or text that is not JSON, raises
    pydantic's [ValidationError]. *)
Definition Project_model_validate_json (s : content) : result Project.t :=
  match s with
  | ProjectJson p =>
      Project.model_validate (Project.name p) (Project.genre p)
        (Project.synopsis p) (Project.created_at p)
  | CharacterJson _ | IndexJson _ =>
      Raise (ValidationError "name: Field required")
  | NotJson _ => Raise (ValidationError "Invalid JSON")
  end.

Definition Character_model_validate_json (s : content)
  : result Character.t :=
  match s with
  | CharacterJson c => Character.model_validate c
  | ProjectJson _ | IndexJson _ =>
      Raise (ValidationError "basics: Field required")
  | NotJson _ => Raise (ValidationError "Invalid JSON")
  end.

(** [CharacterIndex.model_validate_json]: [characters] has a default and
    unknown keys are ignored, so any other JSON object reads as the empty
    index. *)
Definition CharacterIndex_model_validate_json (s : content)
  : result CharacterIndex.t :=
  match s with
  | IndexJson i => Ok i
  | ProjectJson _ | CharacterJson _ => Ok CharacterIndex.empty
  | NotJson _ => Raise (ValidationError "Invalid JSON")
  end.

End Json.

(** ** The file system and the monad of the services *)

Abbreviation Path := (list string).

Inductive node : Type :=
  | Dir
  | File (text : content).

Record World := mkWorld {
  files : gmap Path node;
  clock : Z;
  cwd : Path;
}.

Definition set_files (fs : gmap Path node) (w : World) : World :=
  mkWorld fs (clock w) (cwd w).

Definition M (A : Type) : Type := World → result A * World.

Definition ret {A} (a : A) : M A := λ w, (Ok a, w).
Definition raise {A} (e : exn) : M A := λ w, (Raise e, w).
Definition bind {A B} (m : M A) (k : A → M B) : M B :=
  λ w, match m w with
       | (Ok a, w') => k a w'
       | (Raise e, w') => (Raise e, w')
       end.
Definition lift {A} (r : result A) : M A := λ w, (r, w).

Notation "'let!' x := m 'in' k" := (bind m (λ x, k))
  (at level 10, x name, m at level 100, k at level 200, only parsing).
Notation "'let!' ' p := m 'in' k" := (bind m (λ p, k))
  (at level 10, p strict pattern, m at level 100, k at level 200,
   only parsing).

(** [try: m except <handler matches e>: h]: the state changes made by [m]
    before it raised are kept. *)
Definition try_except {A} (m : M A) (handler : exn → option (M A)) : M A :=
  λ w, match m w with
       | (Ok a, w') => (Ok a, w')
       | (Raise e, w') =>
           match handler e with
           | Some h => h w'
           | None => (Raise e, w')
           end
       end.

(** A [for] loop threading its local variables as an accumulator. *)
Fixpoint for_each {A B} (l : list A) (acc : B) (body : B → A → M B) : M B :=
  match l with
  | [] => ret acc
  | x :: l' => let! acc' := body acc x in for_each l' acc' body
  end.

Definition now : M Z :=
  λ w, (Ok (clock w), mkWorld (files w) (clock w + 1) (cwd w)).

Module Path.

(** [p / s]: the components of [s] are appended, empty and "." components
    dropped; an absolute [s] replaces [p]. *)
Definition components (s : string) : list string :=
  List.filter (λ c, negb (String.eqb c "" || String.eqb c "."))
              (Str.split "/" s).

Definition joinpath (p : Path) (s : string) : Path :=
  if Str.startswith "/" s then components s else p ++ components s.

Definition parent (p : Path) : Path := removelast p.

(** [p.name] *)
Definition name (p : Path) : string := List.last p "".

(** [str(p)] *)
Definition str (p : Path) : string := "/" +:+ Str.join "/" p.

(** The root of the file system is a directory; every other path is
    what the map says. *)
Definition node_at (fs : gmap Path node) (p : Path) : option node :=
  match p with
  | [] => Some Dir
  | _ => fs !! p
  end.

Definition exists_in (fs : gmap Path node) (p : Path) : bool :=
  match node_at fs p with Some _ => true | None => false end.
Definition is_dir_in (fs : gmap Path node) (p : Path) : bool :=
  match node_at fs p with Some Dir => true | _ => false end.
Definition is_file_in (fs : gmap Path node) (p : Path) : bool :=
  match node_at fs p with Some (File _) => true | _ => false end.

Definition exists_ (p : Path) : M bool := λ w, (Ok (exists_in (files w) p), w).
Definition is_dir (p : Path) : M bool := λ w, (Ok (is_dir_in (files w) p), w).
Definition is_file (p : Path) : M bool := λ w, (Ok (is_file_in (files w) p), w).

Definition cwd : M Path := λ w, (Ok (cwd w), w).

(** The proper, non-empty prefixes of [p], shortest first. *)
Definition ancestors (p : Path) : list Path :=
  List.map (λ n, take n p) (seq 1 (length p - 1)).

Fixpoint make_dirs (qs : list Path) (fs : gmap Path node)
  : option (gmap Path node) :=
  match qs with
  | [] => Some fs
  | q :: qs' =>
      match node_at fs q with
      | None => make_dirs qs' (<[q := Dir]> fs)
      | Some Dir => make_dirs qs' fs
      | Some (File _) => None
      end
  end.

(** [p.mkdir(parents=...)] (never [exist_ok]) *)
Definition mkdir (parents : bool) (p : Path) : M unit := λ w,
  let fs := files w in
  if exists_in fs p then (Raise (OSError "FileExistsError"), w)
  else if parents then
    match make_dirs (ancestors p) fs with
    | Some fs' => (Ok tt, set_files (<[p := Dir]> fs') w)
    | None => (Raise (OSError "NotADirectoryError"), w)
    end
  else if is_dir_in fs (parent p) then (Ok tt, set_files (<[p := Dir]> fs) w)
  else (Raise (OSError "FileNotFoundError"), w).

Definition write_text (p : Path) (text : content) : M unit := λ w,
  let fs := files w in
  if is_dir_in fs p then (Raise (OSError "IsADirectoryError"), w)
  else if is_dir_in fs (parent p)
  then (Ok tt, set_files (<[p := File text]> fs) w)
  else (Raise (OSError "FileNotFoundError"), w).

Definition read_text (p : Path) : M content := λ w,
  match node_at (files w) p with
  | Some (File text) => (Ok text, w)
  | Some Dir => (Raise (OSError "IsADirectoryError"), w)
  | None => (Raise (OSError "FileNotFoundError"), w)
  end.

Definition children (fs : gmap Path node) (p : Path) : list Path :=
  List.filter (λ q, bool_decide (q ≠ [] ∧ parent q = p))
              (List.map fst (map_to_list fs)).

(** [p.iterdir()], in the order of the map. *)
Definition iterdir (p : Path) : M (list Path) := λ w,
  if is_dir_in (files w) p then (Ok (children (files w) p), w)
  else (Raise (OSError "NotADirectoryError"), w).

(** [shutil.rmtree(p)] *)
Definition rmtree (p : Path) : M unit := λ w,
  if is_dir_in (files w) p
  then (Ok tt, set_files (filter (λ kv, ¬ p `prefix_of` kv.1) (files w)) w)
  else (Raise (OSError "NotADirectoryError"), w).

End Path.

(** [p / s] of pathlib is written [p </> s]. *)
Notation "p </> s" := (Path.joinpath p s) (at level 40, left associativity).

(** ** utils/validation.py: the check of a project path *)

Definition is_valid_project_path (path : Path) : M (bool * string) :=
  let! ex := Path.exists_ path in
  if negb ex then ret (false, "Path does not exist: " +:+ Path.str path) else
  let! d := Path.is_dir path in
  if negb d then ret (false, "Path is not a directory: " +:+ Path.str path)
  else
  let story_json := path </> "story.json" in
  let! ex := Path.exists_ story_json in
  if negb ex then ret (false, "Missing story.json") else
  let story_data := path </> "story_data" in
  let! ex := Path.exists_ story_data in
  if negb ex then ret (false, "Missing story_data/ directory") else
  let characters_dir := story_data </> "characters" in
  let! ex := Path.exists_ characters_dir in
  if negb ex then ret (false, "Missing story_data/characters/ directory")
  else ret (true, "").

(** ** models/exceptions.py: the message of an exception, [str(e)] *)

Definition exn_str (e : exn) : string :=
  match e with
  | ProjectNotFoundError path =>
      if Str.truthy path then "Project not found at: " +:+ path
      else "Project not found"
  | ProjectValidationError errors =>
      "Invalid project structure: " +:+ Str.join "; " errors
  | ProjectExistsError name => "Project already exists: " +:+ name
  | CharacterNotFoundError name => "Character not found: " +:+ name
  | CharacterExistsError name => "Character already exists: " +:+ name
  | RelationshipDependencyError character_name dependent_characters =>
      "Cannot delete '" +:+ character_name +:+ "': referenced by characters: "
        +:+ Str.join ", " dependent_characters
  | ValidationError msg => msg
  | JSONDecodeError msg => msg
  | OSError msg => msg
  end.

(** ** services/project_service.py *)

Module ProjectService.

Definition STORY_JSON : string := "story.json".
Definition STORY_DATA_DIR : string := "story_data".
Definition CHARACTERS_DIR : string := "characters".
Definition CHARACTERS_INDEX : string := "characters_index.json".

Definition create_project (name genre synopsis : string)
    (parent_dir : option Path) : M Path :=
  let! parent :=
    match parent_dir with Some p => ret p | None => Path.cwd end in
  let dir_name := sanitize_for_filesystem name in
  let project_path := parent </> dir_name in
  let! ex := Path.exists_ project_path in
  if ex then raise (ProjectExistsError name) else
  let! created := now in
  let! project := lift (Project.model_validate name genre synopsis created) in
  let! _ := Path.mkdir true project_path in
  let story_data_path := project_path </> STORY_DATA_DIR in
  let! _ := Path.mkdir false story_data_path in
  let characters_path := story_data_path </> CHARACTERS_DIR in
  let! _ := Path.mkdir false characters_path in
  let story_json_path := project_path </> STORY_JSON in
  let! _ := Path.write_text story_json_path (ProjectJson project) in
  let index_path := story_data_path </> CHARACTERS_INDEX in
  let index_data := IndexJson (CharacterIndex.mk []) in
  let! _ := Path.write_text index_path index_data in
  ret project_path.

Definition validate_project (path : Path) : M (bool * list string) :=
  let errors : list string := [] in
  let! ex := Path.exists_ path in
  if negb ex then
    ret (false,
         errors ++ ["Project directory does not exist: " +:+ Path.str path])
  else
  let! d := Path.is_dir path in
  if negb d then
    ret (false, errors ++ ["Path is not a directory: " +:+ Path.str path])
  else
  let story_json_path := path </> STORY_JSON in
  let! errors :=
    let! ex := Path.exists_ story_json_path in
    if negb ex then ret (errors ++ ["Missing " +:+ STORY_JSON])
    else
      let! f := Path.is_file story_json_path in
      if negb f then ret (errors ++ [STORY_JSON +:+ " is not a file"])
      else
        try_except
          (let! content := Path.read_text story_json_path in
           let! _ := lift (Json.Project_model_validate_json content) in
           ret errors)
          (λ e, match e with
                | JSONDecodeError _ =>
                    Some (ret (errors ++
                      ["Invalid JSON in " +:+ STORY_JSON +:+ ": "
                         +:+ exn_str e]))
                | _ =>
                    Some (ret (errors ++
                      ["Invalid project data in " +:+ STORY_JSON +:+ ": "
                         +:+ exn_str e]))
                end) in
  let story_data_path := path </> STORY_DATA_DIR in
  let! errors :=
    let! ex := Path.exists_ story_data_path in
    if negb ex then
      ret (errors ++ ["Missing " +:+ STORY_DATA_DIR +:+ " directory"])
    else
      let! d := Path.is_dir story_data_path in
      if negb d then
        ret (errors ++ [STORY_DATA_DIR +:+ " is not a directory"])
      else
        let characters_path := story_data_path </> CHARACTERS_DIR in
        let! ex := Path.exists_ characters_path in
        if negb ex then
          ret (errors ++ ["Missing " +:+ STORY_DATA_DIR +:+ "/"
                            +:+ CHARACTERS_DIR +:+ " directory"])
        else
          let! d := Path.is_dir characters_path in
          if negb d then
            ret (errors ++ [STORY_DATA_DIR +:+ "/" +:+ CHARACTERS_DIR
                              +:+ " is not a directory"])
          else ret errors in
  ret ((length errors =? 0)%nat, errors).

Definition open_project (path : option Path) : M Project.t :=
  let! project_path :=
    match path with Some p => ret p | None => Path.cwd end in
  let! '(is_valid, errors) := validate_project project_path in
  let! _ :=
    if negb is_valid then
      let! ex := Path.exists_ project_path in
      if negb ex
         || negb (existsb (String.eqb STORY_JSON)
                    (List.filter (Str.contains STORY_JSON) errors))
      then raise (ProjectNotFoundError (Path.str project_path))
      else raise (ProjectValidationError errors)
    else ret tt in
  let story_json_path := project_path </> STORY_JSON in
  let! content := Path.read_text story_json_path in
  lift (Json.Project_model_validate_json content).

(** The dictionary that [get_project_summary] returns. *)
Record Summary := mkProjectSummary {
  project_name : string;
  project_genre : string;
  project_synopsis : string;
  character_count : nat;
  last_modified : Z;
}.

(** [len(index_data.get("characters", []))] on the object that
    [json.loads] returns: the other JSON objects have no such key. *)
Definition json_loads_characters (text : content) : result nat :=
  match text with
  | IndexJson i => Ok (length (CharacterIndex.characters i))
  | ProjectJson _ | CharacterJson _ => Ok 0%nat
  | NotJson msg => Raise (JSONDecodeError msg)
  end.

Section GetProjectSummary.

(** [p.stat().st_mtime], which the model of the file system does not
    keep: the summary is relative to whatever reads it. *)
Variable st_mtime : Path → M Z.

Definition get_project_summary (path : Path) : M Summary :=
  let! project := open_project (Some path) in
  let character_count := 0%nat in
  let index_path := path </> STORY_DATA_DIR </> CHARACTERS_INDEX in
  let! ex := Path.exists_ index_path in
  let! character_count :=
    if ex then
      try_except
        (let! text := Path.read_text index_path in
         lift (json_loads_characters text))
        (λ e, match e with
              | JSONDecodeError _ =>
                  Some
                    (let characters_dir :=
                       path </> STORY_DATA_DIR </> CHARACTERS_DIR in
                     let! ex := Path.exists_ characters_dir in
                     if ex then
                       let! ds := Path.iterdir characters_dir in
                       for_each ds 0%nat
                         (λ n d, let! b := Path.is_dir d in
                                 ret (if b then S n else n))
                     else ret character_count)
              | _ => None
              end)
    else ret character_count in
  let story_json_path := path </> STORY_JSON in
  let! last_modified := st_mtime story_json_path in
  ret (mkProjectSummary (Project.name project) (Project.genre project)
         (Project.synopsis project) character_count last_modified).

End GetProjectSummary.

End ProjectService.

(** ** cli/character_cmd.py: the genre of the project in the working
    directory *)

Definition _get_genre : M string :=
  try_except
    (let! cwd := Path.cwd in
     let! project := ProjectService.open_project (Some cwd) in
     ret (Project.genre project))
    (λ _, Some (ret "general")).

(** ** services/character_service.py *)

Record CharacterSummary := mkSummary {
  summary_name : string;
  summary_role : string;
  summary_age : option Z;
  summary_completion : Z;
}.

Module CharacterService.

Definition STORY_DATA_DIR : string := "story_data".
Definition CHARACTERS_DIR : string := "characters".
Definition CHARACTERS_INDEX : string := "characters_index.json".
Definition DESCRIPTION_FILE : string := "description.json".

Record t := mk { project_path : Path }.

Definition _characters_dir (self : t) : Path :=
  project_path self </> STORY_DATA_DIR </> CHARACTERS_DIR.
Definition _index_path (self : t) : Path :=
  project_path self </> STORY_DATA_DIR </> CHARACTERS_INDEX.

Definition _validate_project (self : t) : M unit :=
  let! ex := Path.exists_ (project_path self) in
  if negb ex then
    raise (ProjectNotFoundError (Path.str (project_path self)))
  else
  let! ex := Path.exists_ (_characters_dir self) in
  if negb ex then
    raise (ProjectNotFoundError
             ("Missing characters directory: "
                +:+ Path.str (_characters_dir self)))
  else ret tt.

Definition _load_index (self : t) : M CharacterIndex.t :=
  let! ex := Path.exists_ (_index_path self) in
  if negb ex then ret CharacterIndex.empty else
  let! content := Path.read_text (_index_path self) in
  lift (Json.CharacterIndex_model_validate_json content).

Definition _save_index (self : t) (index : CharacterIndex.t) : M unit :=
  Path.write_text (_index_path self) (IndexJson index).

Definition _get_character_dir (self : t) (name : string) : Path :=
  let dir_name := sanitize_for_filesystem name in
  _characters_dir self </> dir_name.

Definition _get_character_file (self : t) (name : string) : Path :=
  _get_character_dir self name </> DESCRIPTION_FILE.

Definition create_character (self : t) (character : Character.t) : M Path :=
  let! _ := _validate_project self in
  let name := CharacterBasics.name (Character.basics character) in
  let char_dir := _get_character_dir self name in
  let! ex := Path.exists_ char_dir in
  if ex then raise (CharacterExistsError name) else
  let! _ := Path.mkdir true char_dir in
  let! now_ := now in
  let character := Character.set_created_at now_ character in
  let character := Character.set_updated_at now_ character in
  let character :=
    if negb (opt_truthy (Character.lora_trigger character))
    then Character.set_lora_trigger
           (Some (Character.generate_lora_trigger character)) character
    else character in
  let char_file := char_dir </> DESCRIPTION_FILE in
  let! _ := Path.write_text char_file (CharacterJson character) in
  let! index := _load_index self in
  let entry :=
    CharacterIndexEntry.mk name
      (CharacterBasics.role (Character.basics character))
      (CharacterBasics.age (Character.basics character))
      (CHARACTERS_DIR +:+ "/" +:+ Path.name char_dir)
      now_ in
  let index := CharacterIndex.add_entry entry index in
  let! _ := _save_index self index in
  ret char_dir.

Definition get_character (self : t) (name : string) : M Character.t :=
  let! _ := _validate_project self in
  let! index := _load_index self in
  let entry := CharacterIndex.get_entry name index in
  let! found :=
    match entry with
    | Some entry =>
        let char_file :=
          project_path self </> STORY_DATA_DIR
            </> CharacterIndexEntry.path entry </> DESCRIPTION_FILE in
        let! ex := Path.exists_ char_file in
        if ex then
          let! content := Path.read_text char_file in
          let! c := lift (Json.Character_model_validate_json content) in
          ret (Some c)
        else ret None
    | None => ret None
    end in
  match found with
  | Some c => ret c
  | None =>
      let char_file := _get_character_file self name in
      let! ex := Path.exists_ char_file in
      if ex then
        let! content := Path.read_text char_file in
        lift (Json.Character_model_validate_json content)
      else raise (CharacterNotFoundError name)
  end.

Definition update_character (self : t) (character : Character.t) : M unit :=
  let! _ := _validate_project self in
  let name := CharacterBasics.name (Character.basics character) in
  let char_file := _get_character_file self name in
  let! ex := Path.exists_ char_file in
  let! char_file :=
    if negb ex then
      let! index := _load_index self in
      let entry := CharacterIndex.get_entry name index in
      let char_file :=
        match entry with
        | Some entry =>
            project_path self </> STORY_DATA_DIR
              </> CharacterIndexEntry.path entry </> DESCRIPTION_FILE
        | None => char_file
        end in
      let! ex := Path.exists_ char_file in
      if negb ex then raise (CharacterNotFoundError name)
      else ret char_file
    else ret char_file in
  let! now_ := now in
  let character := Character.set_updated_at now_ character in
  let character :=
    match Character.appearance character with
    | Some _ =>
        Character.set_lora_trigger
          (Some (Character.generate_lora_trigger character)) character
    | None => character
    end in
  let! _ := Path.write_text char_file (CharacterJson character) in
  let! index := _load_index self in
  let entry :=
    CharacterIndexEntry.mk name
      (CharacterBasics.role (Character.basics character))
      (CharacterBasics.age (Character.basics character))
      (CHARACTERS_DIR +:+ "/" +:+ Path.name (_get_character_dir self name))
      (Character.updated_at character) in
  let index := CharacterIndex.add_entry entry index in
  _save_index self index.

Definition targets (name : string) (rel : Relationship.t) : bool :=
  String.eqb (Str.lower (Relationship.target_character rel))
             (Str.lower name).

Definition get_relationship_dependencies (self : t) (name : string)
  : M (list string) :=
  let! _ := _validate_project self in
  let dependencies : list string := [] in
  let! index := _load_index self in
  for_each (CharacterIndex.characters index) dependencies
    (λ dependencies entry,
       if String.eqb (Str.lower (CharacterIndexEntry.name entry))
                     (Str.lower name)
       then ret dependencies
       else
         try_except
           (let! character :=
              get_character self (CharacterIndexEntry.name entry) in
            (* the inner loop appends once and breaks *)
            if existsb (targets name) (Character.relationships character)
            then ret (dependencies ++ [CharacterIndexEntry.name entry])
            else ret dependencies)
           (λ e, match e with
                 | CharacterNotFoundError _ => Some (ret dependencies)
                 | _ => None
                 end)).

Definition delete_character (self : t) (name : string) (force : bool)
  : M (list string) :=
  let! _ := _validate_project self in
  let char_dir := _get_character_dir self name in
  let! ex := Path.exists_ char_dir in
  let! char_dir :=
    if negb ex then
      let! index := _load_index self in
      let entry := CharacterIndex.get_entry name index in
      let char_dir :=
        match entry with
        | Some entry =>
            project_path self </> STORY_DATA_DIR
              </> CharacterIndexEntry.path entry
        | None => char_dir
        end in
      let! ex := Path.exists_ char_dir in
      if negb ex then raise (CharacterNotFoundError name)
      else ret char_dir
    else ret char_dir in
  let! dependencies := get_relationship_dependencies self name in
  let nonempty := match dependencies with [] => false | _ => true end in
  if nonempty && negb force then
    raise (RelationshipDependencyError name dependencies)
  else
  let! _ :=
    if nonempty && force then
      for_each dependencies tt
        (λ _ dep_name,
           try_except
             (let! dep_char := get_character self dep_name in
              let dep_char :=
                Character.set_relationships
                  (List.filter (λ r, negb (targets name r))
                               (Character.relationships dep_char))
                  dep_char in
              update_character self dep_char)
             (λ e, match e with
                   | CharacterNotFoundError _ => Some (ret tt)
                   | _ => None
                   end))
    else ret tt in
  let! _ := Path.rmtree char_dir in
  let! index := _load_index self in
  let index := fst (CharacterIndex.remove_entry name index) in
  let! _ := _save_index self index in
  ret dependencies.

Definition role_filtered_out (role_filter : option string)
    (entry : CharacterIndexEntry.t) : bool :=
  if opt_truthy role_filter then
    match CharacterRole_of_value (Str.lower (default "" role_filter)) with
    | Some filter_role =>
        negb (CharacterRole_eqb (CharacterIndexEntry.role entry) filter_role)
    | None => false       (* ValueError: the filter is not applied *)
    end
  else false.

Definition list_characters (self : t) (role_filter : option string)
  : M (list CharacterSummary) :=
  let! _ := _validate_project self in
  let! index := _load_index self in
  for_each (CharacterIndex.characters index) []
    (λ result entry,
       if role_filtered_out role_filter entry then ret result else
       let! completion :=
         try_except
           (let! character :=
              get_character self (CharacterIndexEntry.name entry) in
            ret (Character.get_completion_percentage character))
           (λ e, match e with
                 | CharacterNotFoundError _ => Some (ret 0)
                 | _ => None
                 end) in
       ret (result ++
              [mkSummary (CharacterIndexEntry.name entry)
                 (CharacterRole_value (CharacterIndexEntry.role entry))
                 (CharacterIndexEntry.age entry)
                 completion])).

Definition character_exists (self : t) (name : string) : M bool :=
  try_except
    (let! _ := _validate_project self in
     let! index := _load_index self in
     ret (bool_decide (is_Some (CharacterIndex.get_entry name index))))
    (λ e, match e with
          | ProjectNotFoundError _ => Some (ret false)
          | _ => None
          end).

Definition rebuild_index (self : t) : M unit :=
  let! _ := _validate_project self in
  let index := CharacterIndex.empty in
  let! ex := Path.exists_ (_characters_dir self) in
  let! index :=
    if ex then
      let! dirs := Path.iterdir (_characters_dir self) in
      for_each dirs index
        (λ index char_dir,
           let! d := Path.is_dir char_dir in
           if negb d then ret index else
           let desc_file := char_dir </> DESCRIPTION_FILE in
           let! ex := Path.exists_ desc_file in
           if negb ex then ret index else
           try_except
             (let! content := Path.read_text desc_file in
              let! character :=
                lift (Json.Character_model_validate_json content) in
              let entry :=
                CharacterIndexEntry.mk
                  (CharacterBasics.name (Character.basics character))
                  (CharacterBasics.role (Character.basics character))
                  (CharacterBasics.age (Character.basics character))
                  (CHARACTERS_DIR +:+ "/" +:+ Path.name char_dir)
                  (Character.updated_at character) in
              ret (CharacterIndex.add_entry entry index))
             (λ _, Some (ret index)))
    else ret index in
  _save_index self index.

End CharacterService.

(** ** The statements of the specification

    Definitions that follow the words of the specification, to be compared
    with the functions above. *)

Module Spec.

(** A value of an [Optional[str]] field that is present (set and not
    empty), as a list of zero or one part. *)
Definition present (o : option string) : list string :=
  match o with
  | Some s => if Str.truthy s then [s] else []
  | None => []
  end.

(** "<color>_<style>_hair", joining only the present parts. *)
Definition hair_part (a : CharacterAppearance.t) : list string :=
  match CharacterAppearance.hair a with
  | Some h =>
      match present (HairDescription.color h)
            ++ present (HairDescription.style h) with
      | [] => []
      | ps => [Str.join "_" (ps ++ ["hair"])]
      end
  | None => []
  end.

(** "<color>_eyes" if the eye colour is present. *)
Definition eyes_part (a : CharacterAppearance.t) : list string :=
  match CharacterAppearance.eyes a with
  | Some e =>
      List.map (λ c, c +:+ "_eyes") (present (EyeDescription.color e))
  | None => []
  end.

(** Up to the first two distinctive features, lowercased, spaces to
    underscores. *)
Definition feature_parts (a : CharacterAppearance.t) : list string :=
  List.map (λ f, Str.replace " " "_" (Str.lower f))
           (take 2 (CharacterAppearance.distinctive_features a)).

(** The trigger of the specification, for a given rendering of the name. *)
Definition lora_trigger (name_part : string) (a : CharacterAppearance.t)
  : string :=
  Str.join ", " (name_part :: hair_part a ++ eyes_part a ++ feature_parts a).

Definition percentages : list Z := [0; 20; 40; 60; 80; 100].

(** No two entries of the index have names equal case-insensitively. *)
Definition unique_names (index : CharacterIndex.t) : Prop :=
  NoDup (List.map (λ e, Str.lower (CharacterIndexEntry.name e))
                  (CharacterIndex.characters index)).

(** Whenever the index of the project can be loaded, its names are
    unique. *)
Definition index_invariant (self : CharacterService.t) (w : World) : Prop :=
  ∀ index, fst (CharacterService._load_index self w) = Ok index →
           unique_names index.

End Spec.

(** ** Example data *)

Module Ex.

Definition basics (name : string) (role : CharacterRole)
  : CharacterBasics.t :=
  CharacterBasics.mk name None None role.

Definition no_appearance : CharacterAppearance.t :=
  CharacterAppearance.mk None None None None None [] None [].

Definition alex_appearance : CharacterAppearance.t :=
  CharacterAppearance.mk
    (Some (HairDescription.mk (Some "black") None None))
    (Some (EyeDescription.mk (Some "brown") None))
    None None None [] None [].

Definition alex : Character.t :=
  Character.mk (basics "Alex Chen" PROTAGONIST) (Some alex_appearance)
    None None [] None 0 0.

Definition obrien : Character.t :=
  Character.mk (basics "O'Brien" SUPPORTING) (Some no_appearance)
    None None [] None 0 0.

Definition friend_of (target : string) : Relationship.t :=
  Relationship.mk target FRIEND "old friends" None None [].

Definition bob : Character.t :=
  Character.mk (basics "Bob" SUPPORTING) None None None
    [friend_of "alex chen"] None 0 0.

(** A character without appearance whose trigger the caller has set. *)
Definition tagged : Character.t :=
  Character.mk (basics "Bob" SUPPORTING) None None None [] (Some "custom")
    0 0.

End Ex.

(** ** Invariants of programs in [M] *)

(** [m] keeps the invariant [I] of the state, whether it returns or raises,
    and every value it returns satisfies [V]. *)
Definition keeps (I : World → Prop) {A} (m : M A) (V : A → Prop) : Prop :=
  ∀ w, I w → I (snd (m w)) ∧ ∀ a, fst (m w) = Ok a → V a.

(** [m] does not change the state. *)
Definition read_only {A} (m : M A) : Prop := ∀ w, snd (m w) = w.

(** The index file, if it holds an index, holds one with unique names. *)
Definition stored_index_unique (self : CharacterService.t)
    (fs : gmap Path node) : Prop :=
  match Path.node_at fs (CharacterService._index_path self) with
  | Some (File (IndexJson i)) => Spec.unique_names i
  | _ => True
  end.

(** ** Example projects *)

Module ExW.

(** An empty file system, the clock at 0, working directory [/tmp]. *)
Definition w0 : World := mkWorld ∅ 0 ["tmp"].

Definition project : Path := ["tmp"; "test_project"].

Definition svc : CharacterService.t := CharacterService.mk project.

Definition story : Project.t :=
  Project.mk "Test Project" "fantasy" "A test story" 0.

(** The project as [create_project] lays it out, with the given index and
    further nodes under [story_data/characters]. *)
Definition layout (index : content) (more : list (Path * node))
  : gmap Path node :=
  list_to_map
    ([ (["tmp"], Dir);
       (project, Dir);
       (project ++ ["story.json"], File (ProjectJson story));
       (project ++ ["story_data"], Dir);
       (project ++ ["story_data"; "characters"], Dir);
       (project ++ ["story_data"; "characters_index.json"], File index) ]
     ++ more).

Definition character_dir (dir : string) : Path :=
  project ++ ["story_data"; "characters"; dir].
Definition character_file (dir : string) : Path :=
  project ++ ["story_data"; "characters"; dir; "description.json"].

Definition entry (name : string) (role : CharacterRole) (dir : string)
  : CharacterIndexEntry.t :=
  CharacterIndexEntry.mk name role None ("characters/" +:+ dir) 1.

(** A stored record: timestamps and trigger as [create_character] sets
    them. *)
Definition stored (c : Character.t) : Character.t :=
  Character.set_lora_trigger (Some (Character.generate_lora_trigger c))
    (Character.set_created_at 1 (Character.set_updated_at 1 c)).

(** A project without its [story_data] directory. *)
Definition w_no_data : World :=
  mkWorld
    (list_to_map
       [ (["tmp"], Dir);
         (project, Dir);
         (project ++ ["story.json"], File (ProjectJson story)) ])
    1 ["tmp"].

(** A fresh project. *)
Definition w_fresh : World :=
  mkWorld (layout (IndexJson (CharacterIndex.mk [])) []) 1 ["tmp"].

Definition index_alex_bob : CharacterIndex.t :=
  CharacterIndex.mk
    [ entry "Alex Chen" PROTAGONIST "alex_chen";
      entry "Bob" SUPPORTING "bob" ].

(** Alex Chen and Bob, Bob a friend of Alex. *)
Definition w_alex_bob : World :=
  mkWorld
    (layout
       (IndexJson index_alex_bob)
       [ (character_dir "alex_chen", Dir);
         (character_file "alex_chen", File (CharacterJson (stored Ex.alex)));
         (character_dir "bob", Dir);
         (character_file "bob", File (CharacterJson (stored Ex.bob))) ])
    3 ["tmp"].

Definition index_bob : CharacterIndex.t :=
  CharacterIndex.mk [ entry "Bob" SUPPORTING "bob" ].

(** The index lists Bob, whose record file does not hold JSON. *)
Definition w_bob_corrupt : World :=
  mkWorld
    (layout
       (IndexJson index_bob)
       [ (character_dir "bob", Dir);
         (character_file "bob", File (NotJson "{ not json")) ])
    2 ["tmp"].

(** The index lists Bob, whose directory is gone. *)
Definition w_bob_absent : World :=
  mkWorld
    (layout
       (IndexJson index_alex_bob)
       [ (character_dir "alex_chen", Dir);
         (character_file "alex_chen", File (CharacterJson (stored Ex.alex))) ])
    3 ["tmp"].

(** Two directories whose record files both parse, with the same name, and
    a third whose file does not parse. *)
Definition w_same_name : World :=
  mkWorld
    (layout
       (IndexJson (CharacterIndex.mk []))
       [ (character_dir "alex_chen", Dir);
         (character_file "alex_chen", File (CharacterJson (stored Ex.alex)));
         (character_dir "alex_copy", Dir);
         (character_file "alex_copy", File (CharacterJson (stored Ex.alex)));
         (character_dir "broken", Dir);
         (character_file "broken", File (NotJson "{ not json")) ])
    3 ["tmp"].

(** Alex Chen and Bob stored, and a third directory whose file does not
    parse; the index is out of date. *)
Definition w_to_repair : World :=
  mkWorld
    (layout
       (IndexJson (CharacterIndex.mk []))
       [ (character_dir "alex_chen", Dir);
         (character_file "alex_chen", File (CharacterJson (stored Ex.alex)));
         (character_dir "bob", Dir);
         (character_file "bob", File (CharacterJson (stored Ex.bob)));
         (character_dir "broken", Dir);
         (character_file "broken", File (NotJson "{ not json")) ])
    3 ["tmp"].

End ExW.

(** ** Statements about a project on disk *)

Module Store.

(** What [get_character] yields for an index entry. *)
Definition record (self : CharacterService.t) (w : World)
    (e : CharacterIndexEntry.t) : result Character.t :=
  fst (CharacterService.get_character self (CharacterIndexEntry.name e) w).

(** The record of an index entry can be read, or cannot be found. *)
Definition readable_or_absent (self : CharacterService.t) (w : World)
    (e : CharacterIndexEntry.t) : Prop :=
  match record self w e with
  | Ok _ => True
  | Raise (CharacterNotFoundError _) => True
  | Raise _ => False
  end.

(** The record of an index entry is on disk but cannot be parsed. *)
Definition unparsable (self : CharacterService.t) (w : World)
    (e : CharacterIndexEntry.t) : Prop :=
  ∃ text,
    fst (Path.read_text
           (CharacterService.project_path self
              </> CharacterService.STORY_DATA_DIR
              </> CharacterIndexEntry.path e
              </> CharacterService.DESCRIPTION_FILE) w) = Ok text ∧
    is_ok (Json.Character_model_validate_json text) = false.

Definition same_name (a b : string) : bool :=
  String.eqb (Str.lower a) (Str.lower b).

(** An index entry other than [name] whose record has a relationship
    targeting [name] (case-insensitively). *)
Definition references (self : CharacterService.t) (w : World) (name : string)
    (e : CharacterIndexEntry.t) : bool :=
  negb (same_name (CharacterIndexEntry.name e) name) &&
  match record self w e with
  | Ok c => existsb (λ r, same_name (Relationship.target_character r) name)
                    (Character.relationships c)
  | Raise _ => false
  end.

(** The names of the characters of the index that reference [name]. *)
Definition referencing (self : CharacterService.t) (w : World) (name : string)
    (index : CharacterIndex.t) : list string :=
  List.map CharacterIndexEntry.name
    (List.filter (references self w name) (CharacterIndex.characters index)).

(** The directory of the character [name] exists: under its sanitized
    name, or else where its index entry points. *)
Definition character_dir_exists (self : CharacterService.t) (w : World)
    (name : string) (index : CharacterIndex.t) : Prop :=
  Path.exists_in (files w) (CharacterService._get_character_dir self name)
    = true ∨
  ∃ e, CharacterIndex.get_entry name index = Some e ∧
       Path.exists_in (files w)
         (CharacterService.project_path self
            </> CharacterService.STORY_DATA_DIR
            </> CharacterIndexEntry.path e) = true.

(** The summary that the listing gives for an index entry: completion from
    the record when it can be read, 0 otherwise. *)
Definition summary (self : CharacterService.t) (w : World)
    (e : CharacterIndexEntry.t) : CharacterSummary :=
  mkSummary (CharacterIndexEntry.name e)
    (CharacterRole_value (CharacterIndexEntry.role e))
    (CharacterIndexEntry.age e)
    match record self w e with
    | Ok c => Character.get_completion_percentage c
    | Raise _ => 0
    end.

End Store.

(** ** Statements about rebuilding the index *)

Module Rebuild.

(** The record held by a character directory: the directory is one, its
    record file is a file, and the text of the file parses. *)
Definition valid_record (fs : gmap Path node) (dir : Path)
  : option Character.t :=
  if Path.is_dir_in fs dir then
    match Path.node_at fs (dir </> CharacterService.DESCRIPTION_FILE) with
    | Some (File text) =>
        match Json.Character_model_validate_json text with
        | Ok c => Some c
        | Raise _ => None
        end
    | _ => None
    end
  else None.

(** A directory holding a record file that does not parse. *)
Definition unparsable (fs : gmap Path node) (dir : Path) : bool :=
  Path.is_dir_in fs dir
  && Path.exists_in fs (dir </> CharacterService.DESCRIPTION_FILE)
  && bool_decide (valid_record fs dir = None).

Definition subdirectories (self : CharacterService.t) (fs : gmap Path node)
  : list Path :=
  Path.children fs (CharacterService._characters_dir self).

(** The N directories holding valid record files. *)
Definition valid_dirs (self : CharacterService.t) (fs : gmap Path node)
  : list Path :=
  List.filter (λ d, bool_decide (is_Some (valid_record fs d)))
              (subdirectories self fs).

(** The M directories holding unparsable ones. *)
Definition unparsable_dirs (self : CharacterService.t) (fs : gmap Path node)
  : list Path :=
  List.filter (unparsable fs) (subdirectories self fs).

(** The index entry of a valid character file. *)
Definition entry_of (dir : Path) (c : Character.t) : CharacterIndexEntry.t :=
  CharacterIndexEntry.mk
    (CharacterBasics.name (Character.basics c))
    (CharacterBasics.role (Character.basics c))
    (CharacterBasics.age (Character.basics c))
    ("characters/" +:+ Path.name dir)
    (Character.updated_at c).

(** One entry per valid character file, in the order of the listing. *)
Definition entries (self : CharacterService.t) (fs : gmap Path node)
  : list CharacterIndexEntry.t :=
  omap (λ d, entry_of d <$> valid_record fs d) (subdirectories self fs).

End Rebuild.

(** ** Statements about forced deletion *)

Module Cleanup.

(** A name that makes one path component: [dir / name] appends exactly
    [name]. *)
Definition clean (s : string) : Prop :=
  Str.startswith "/" s = false ∧ Path.components s = [s].


(** The index entry [e] has the validated record [c] stored under its
    sanitized name, which is where the entry points. *)
Record stored_at (self : CharacterService.t) (w : World)
    (e : CharacterIndexEntry.t) (c : Character.t) : Prop := {
  stored_path :
    CharacterService.project_path self </> CharacterService.STORY_DATA_DIR
      </> CharacterIndexEntry.path e
    = CharacterService._get_character_dir self (CharacterIndexEntry.name e);
  stored_dir :
    Path.node_at (files w)
      (CharacterService._get_character_dir self (CharacterIndexEntry.name e))
    = Some Dir;
  stored_file :
    Path.node_at (files w)
      (CharacterService._get_character_file self (CharacterIndexEntry.name e))
    = Some (File (CharacterJson c));
  stored_valid : Character.model_validate c = Ok c;
  stored_name :
    CharacterBasics.name (Character.basics c) = CharacterIndexEntry.name e;
}.

(** A project in which the character [name] can be deleted with its
    references: the skeleton is in place, the index file holds [index] with
    unique names, every other indexed character has its record stored,
    [name] is a valid character name whose directory exists, and no other
    character shares that directory. *)
Record consistent (self : CharacterService.t) (w : World) (name : string)
    (index : CharacterIndex.t) : Prop := {
  c_project : fst (CharacterService._validate_project self w) = Ok tt;
  c_data :
    Path.is_dir_in (files w)
      (CharacterService.project_path self </> CharacterService.STORY_DATA_DIR)
    = true;
  c_index :
    Path.node_at (files w) (CharacterService._index_path self)
    = Some (File (IndexJson index));
  c_unique : Spec.unique_names index;
  c_records :
    ∀ e, e ∈ CharacterIndex.characters index →
         Store.same_name (CharacterIndexEntry.name e) name = false →
         ∃ c, stored_at self w e c;
  c_name : CharacterBasics.validate_character_name name = Ok name;
  c_dir :
    Path.node_at (files w) (CharacterService._get_character_dir self name)
    = Some Dir;
  c_separate :
    ∀ e, e ∈ CharacterIndex.characters index →
         Store.same_name (CharacterIndexEntry.name e) name = false →
         sanitize_for_filesystem (CharacterIndexEntry.name e)
           ≠ sanitize_for_filesystem name;
}.



End Cleanup.

(** ** Example projects whose records do not match the index *)

Module ExD.

Definition index_alex_bob_carol : CharacterIndex.t :=
  CharacterIndex.mk
    [ ExW.entry "Alex Chen" PROTAGONIST "alex_chen";
      ExW.entry "Bob" SUPPORTING "bob";
      ExW.entry "Carol" SUPPORTING "carol" ].

(** Alex Chen and Bob, Bob a friend of Alex, and a third indexed character
    whose record file does not hold JSON. *)
Definition w_carol_corrupt : World :=
  mkWorld
    (ExW.layout
       (IndexJson index_alex_bob_carol)
       [ (ExW.character_dir "alex_chen", Dir);
         (ExW.character_file "alex_chen",
          File (CharacterJson (ExW.stored Ex.alex)));
         (ExW.character_dir "bob", Dir);
         (ExW.character_file "bob", File (CharacterJson (ExW.stored Ex.bob)));
         (ExW.character_dir "carol", Dir);
         (ExW.character_file "carol", File (NotJson "{ not json")) ])
    3 ["tmp"].



End ExD.

(** ** Statements about names *)

(** A whitespace character other than the blank. *)
Definition other_space (c : ascii) : bool :=
  Str.is_space c && negb (Ascii.eqb c " ").

(** A character that sanitizing leaves in place. *)
Definition sanitized_char (c : ascii) : bool :=
  negb (Ascii.eqb c " ") && negb (Ascii.eqb c "'") && negb (Str.is_upper c).

(** * Properties *)

(** ** Strings *)

Ltac each_char c := destruct c as [[] [] [] [] [] [] [] []].

Lemma app_cons (a : ascii) (s t : string) : String a s +:+ t = String a (s +:+ t).
Proof. reflexivity. Qed.

Lemma app_empty_l (s : string) : "" +:+ s = s.
Proof. reflexivity. Qed.

Lemma app_empty_r (s : string) : s +:+ "" = s.
Proof. induction s as [|a s IH]; [done|]. by rewrite app_cons, IH. Qed.

Lemma app_assoc_str (s t u : string) : (s +:+ t) +:+ u = s +:+ (t +:+ u).
Proof. induction s as [|a s IH]; [done|]. by rewrite !app_cons, IH. Qed.

Lemma truthy_app_l (s t : string) :
  Str.truthy s = true → Str.truthy (s +:+ t) = true.
Proof. by destruct s. Qed.

Lemma truthy_false (s : string) : Str.truthy s = false ↔ s = "".
Proof. by destruct s. Qed.

Lemma truthy_true (s : string) : Str.truthy s = true ↔ s ≠ "".
Proof. by destruct s. Qed.

Lemma lower_char_apostrophe (c : ascii) :
  Ascii.eqb (Str.lower_char c) "'" = Ascii.eqb c "'".
Proof. each_char c; reflexivity. Qed.

Lemma lower_char_blank (c : ascii) :
  Ascii.eqb (Str.lower_char c) " " = Ascii.eqb c " ".
Proof. each_char c; reflexivity. Qed.

Lemma replace_absent (old : ascii) (new s : string) :
  Str.all_chars (λ c, negb (Ascii.eqb c old)) s = true →
  Str.replace old new s = s.
Proof.
  induction s as [|c s IH]; simpl; [done|].
  intros [Hc Hs]%andb_true_iff. apply negb_true_iff in Hc.
  by rewrite Hc, IH.
Qed.

Lemma lower_underscored_no_apostrophe (s : string) :
  Str.all_chars (λ c, negb (Ascii.eqb c "'")) s = true →
  Str.all_chars (λ c, negb (Ascii.eqb c "'"))
                (Character.lower_underscored s) = true.
Proof.
  unfold Character.lower_underscored.
  induction s as [|c s IH]; simpl; [done|].
  intros [Hc Hs]%andb_true_iff.
  rewrite lower_char_blank.
  destruct (Ascii.eqb c " ") eqn:Hb.
  - rewrite app_cons, app_empty_l. simpl. by rewrite IH.
  - simpl. by rewrite lower_char_apostrophe, Hc, IH.
Qed.

Lemma sanitize_without_apostrophe (s : string) :
  Str.all_chars (λ c, negb (Ascii.eqb c "'")) s = true →
  sanitize_for_filesystem s = Character.lower_underscored s.
Proof.
  intros H. unfold sanitize_for_filesystem.
  apply replace_absent, lower_underscored_no_apostrophe, H.
Qed.

Lemma lower_underscored_truthy (s : string) :
  Str.truthy (Character.lower_underscored s) = Str.truthy s.
Proof.
  unfold Character.lower_underscored. destruct s as [|c s]; simpl; [done|].
  by destruct (Ascii.eqb (Str.lower_char c) " ").
Qed.

Lemma join_cons_truthy (sep p : string) (ps : list string) :
  Str.truthy p = true → Str.truthy (Str.join sep (p :: ps)) = true.
Proof. intros H. destruct ps; simpl; [done|]. by apply truthy_app_l. Qed.

(** ** LoRA trigger *)

Lemma foldl_snoc_map {A B} (g : A → B) (l : list A) (acc : list B) :
  foldl (λ parts x, parts ++ [g x]) acc l = acc ++ List.map g l.
Proof.
  revert acc. induction l as [|x l IH]; intros acc; simpl.
  - by rewrite app_nil_r.
  - by rewrite IH, <-app_assoc.
Qed.

Lemma join_hair (ps : list string) :
  ps ≠ [] → Str.join "_" ps +:+ "_hair" = Str.join "_" (ps ++ ["hair"]).
Proof.
  induction ps as [|p ps IH]; [done|]. intros _.
  destruct ps as [|q ps].
  - reflexivity.
  - change (Str.join "_" (p :: q :: ps)) with (p +:+ "_" +:+ Str.join "_" (q :: ps)).
    change (Str.join "_" ((p :: q :: ps) ++ ["hair"]))
      with (p +:+ "_" +:+ Str.join "_" ((q :: ps) ++ ["hair"])).
    rewrite <-IH by done. by rewrite !app_assoc_str.
Qed.

Lemma generate_lora_trigger_parts (c : Character.t) (a : CharacterAppearance.t) :
  Character.appearance c = Some a →
  Character.generate_lora_trigger c =
  Spec.lora_trigger
    (Str.replace " " "_" (Str.lower (CharacterBasics.name (Character.basics c))))
    a.
Proof.
  intros Ha. unfold Character.generate_lora_trigger, Spec.lora_trigger.
  rewrite Ha, foldl_snoc_map. f_equal.
  unfold Spec.hair_part, Spec.eyes_part, Spec.feature_parts, Spec.present.
  fold (Character.lower_underscored (CharacterBasics.name (Character.basics c))).
  destruct (CharacterAppearance.hair a) as [[[hc|] [hs|] hl]|],
           (CharacterAppearance.eyes a) as [[[ec|] es]|]; simpl;
    repeat match goal with
           | |- context [Str.truthy ?s] => destruct (Str.truthy s) eqn:?
           end; simpl; try reflexivity;
    rewrite <-?app_assoc; simpl; try reflexivity;
    try (rewrite app_assoc_str; reflexivity).
Qed.

(** C6. For a character with appearance, the generated trigger is the
    ", "-joined list of: the name lowercased with spaces replaced by
    underscores (apostrophes are kept, unlike in the file-system sanitizer);
    "<color>_<style>_hair" made of the present hair colour and style, if
    any; "<color>_eyes" if the eye colour is present; and the first two
    distinctive features lowercased and underscored. For a name without
    apostrophe the first part is the sanitized name, and "Alex Chen" with
    black hair and brown eyes gives "alex_chen, black_hair, brown_eyes". *)
Theorem lora_trigger_derivation (c : Character.t) (a : CharacterAppearance.t)
    (Happearance : Character.appearance c = Some a) :
  let name := CharacterBasics.name (Character.basics c) in
  Character.generate_lora_trigger c =
    Spec.lora_trigger (Str.replace " " "_" (Str.lower name)) a
  ∧ (Str.all_chars (λ ch, negb (Ascii.eqb ch "'")) name = true →
     Character.generate_lora_trigger c =
       Spec.lora_trigger (sanitize_for_filesystem name) a)
  ∧ Character.generate_lora_trigger Ex.alex
    = "alex_chen, black_hair, brown_eyes".
Proof.
  intros name. split; [|split].
  - by apply generate_lora_trigger_parts.
  - intros Hn. rewrite (sanitize_without_apostrophe _ Hn).
    by apply generate_lora_trigger_parts.
  - reflexivity.
Qed.

Lemma lora_trigger_derivation_witness :
  Character.appearance Ex.alex = Some Ex.alex_appearance ∧
  Character.generate_lora_trigger Ex.alex =
    Spec.lora_trigger (Str.replace " " "_" (Str.lower "Alex Chen"))
      Ex.alex_appearance.
Proof.
  split; [reflexivity|].
  exact (proj1 (lora_trigger_derivation Ex.alex Ex.alex_appearance eq_refl)).
Defined.

Lemma lora_trigger_not_sanitized :
  Character.appearance Ex.obrien = Some Ex.no_appearance ∧
  Character.generate_lora_trigger Ex.obrien = "o'brien" ∧
  Spec.lora_trigger
    (sanitize_for_filesystem (CharacterBasics.name (Character.basics Ex.obrien)))
    Ex.no_appearance = "obrien" ∧
  Character.generate_lora_trigger Ex.obrien ≠
  Spec.lora_trigger
    (sanitize_for_filesystem (CharacterBasics.name (Character.basics Ex.obrien)))
    Ex.no_appearance.
Proof. repeat split. discriminate. Qed.

(** ** Completion percentage *)

Lemma completion_percentage_count (c : Character.t) :
  Character.get_completion_percentage c =
  20 * Z.of_nat
         (sum_bool [ true;
                     bool_decide (is_Some (Character.appearance c));
                     bool_decide (is_Some (Character.personality c));
                     bool_decide (is_Some (Character.backstory c));
                     (0 <? length (Character.relationships c))%nat ]).
Proof.
  destruct c as [b [a|] [p|] [s|] [|r rs] l ca ua];
    unfold Character.get_completion_percentage; simpl Character.appearance;
    simpl Character.personality; simpl Character.backstory;
    simpl Character.relationships; vm_compute; reflexivity.
Qed.

Lemma sum_bool_le_5 b1 b2 b3 b4 : (sum_bool [true; b1; b2; b3; b4] <= 5)%nat.
Proof. destruct b1, b2, b3, b4; simpl; lia. Qed.

(** C7. The completion percentage of every character is one of 0, 20, 40,
    60, 80, 100, and setting the appearance, the personality or the
    backstory, or adding a relationship, with the other sections kept, never
    decreases it. *)
Theorem completion_percentage_steps_and_monotone :
  (∀ c, Character.get_completion_percentage c ∈ Spec.percentages) ∧
  (∀ c a,
     Character.get_completion_percentage c ≤
     Character.get_completion_percentage
       (Character.mk (Character.basics c) (Some a) (Character.personality c)
          (Character.backstory c) (Character.relationships c)
          (Character.lora_trigger c) (Character.created_at c)
          (Character.updated_at c))) ∧
  (∀ c p,
     Character.get_completion_percentage c ≤
     Character.get_completion_percentage
       (Character.mk (Character.basics c) (Character.appearance c) (Some p)
          (Character.backstory c) (Character.relationships c)
          (Character.lora_trigger c) (Character.created_at c)
          (Character.updated_at c))) ∧
  (∀ c s,
     Character.get_completion_percentage c ≤
     Character.get_completion_percentage
       (Character.mk (Character.basics c) (Character.appearance c)
          (Character.personality c) (Some s) (Character.relationships c)
          (Character.lora_trigger c) (Character.created_at c)
          (Character.updated_at c))) ∧
  (∀ c r,
     Character.get_completion_percentage c ≤
     Character.get_completion_percentage
       (Character.set_relationships (r :: Character.relationships c) c)).
Proof.
  split; [|repeat split]; intros c; intros; rewrite !completion_percentage_count.
  - destruct c as [b [a|] [p|] [s|] [|r rs] l ca ua]; vm_compute; set_solver.
  - destruct c as [b [a'|] [p|] [s|] [|r rs] l ca ua]; vm_compute; discriminate.
  - destruct c as [b [a'|] [p'|] [s|] [|r rs] l ca ua]; vm_compute; discriminate.
  - destruct c as [b [a'|] [p'|] [s'|] [|r rs] l ca ua]; vm_compute; discriminate.
  - destruct c as [b [a'|] [p'|] [s'|] [|r' rs] l ca ua]; vm_compute; discriminate.
Qed.

(** ** The monad *)

Lemma bind_Ok {A B} (m : M A) (k : A → M B) w a w' :
  m w = (Ok a, w') → bind m k w = k a w'.
Proof. unfold bind. by intros ->. Qed.

Lemma bind_Raise {A B} (m : M A) (k : A → M B) w e w' :
  m w = (Raise e, w') → bind m k w = (Raise e, w').
Proof. unfold bind. by intros ->. Qed.

Lemma bind_inv_Ok {A B} (m : M A) (k : A → M B) w b w2 :
  bind m k w = (Ok b, w2) →
  ∃ a w1, m w = (Ok a, w1) ∧ k a w1 = (Ok b, w2).
Proof.
  unfold bind. destruct (m w) as [[a|e] w1]; [|done]. intros H. by exists a, w1.
Qed.

Section Keeps.
Context (I : World → Prop).

Lemma keeps_ret {A} (a : A) (V : A → Prop) : V a → keeps I (ret a) V.
Proof. intros Ha w Hw. split; [done|]. by intros ? [= <-]. Qed.

Lemma keeps_raise {A} (e : exn) (V : A → Prop) : keeps I (raise e) V.
Proof. intros w Hw. split; [done|]. by intros ? [=]. Qed.

Lemma keeps_read_only {A} (m : M A) : read_only m → keeps I m (λ _, True).
Proof. intros Hm w Hw. by rewrite Hm. Qed.

Lemma keeps_weaken {A} (m : M A) (V V' : A → Prop) :
  keeps I m V → (∀ a, V a → V' a) → keeps I m V'.
Proof. intros Hm HV w Hw. destruct (Hm w Hw) as [? ?]. naive_solver. Qed.

Lemma keeps_bind {A B} (m : M A) (k : A → M B) (V : A → Prop) (V' : B → Prop) :
  keeps I m V → (∀ a, V a → keeps I (k a) V') → keeps I (bind m k) V'.
Proof.
  intros Hm Hk w Hw. destruct (Hm w Hw) as [Hw' Hv]. unfold bind.
  destruct (m w) as [[a|e] w1]; simpl in *.
  - by apply Hk; [apply Hv|].
  - split; [done|]. by intros ? [=].
Qed.

Lemma keeps_try_except {A} (m : M A) (handler : exn → option (M A))
    (V : A → Prop) :
  keeps I m V → (∀ e h, handler e = Some h → keeps I h V) →
  keeps I (try_except m handler) V.
Proof.
  intros Hm Hh w Hw. destruct (Hm w Hw) as [Hw' Hv]. unfold try_except.
  destruct (m w) as [[a|e] w1]; simpl in *.
  - split; [done|]. intros ? [= <-]. by apply Hv.
  - destruct (handler e) as [h|] eqn:He.
    + by apply (Hh e h He).
    + split; [done|]. by intros ? [=].
Qed.

Lemma keeps_for_each {A B} (l : list A) (acc : B) (body : B → A → M B)
    (V : B → Prop) :
  (∀ acc x, V acc → keeps I (body acc x) V) → V acc →
  keeps I (for_each l acc body) V.
Proof.
  intros Hbody. revert acc. induction l as [|x l IH]; intros acc Hacc; simpl.
  - by apply keeps_ret.
  - eapply keeps_bind; [by apply Hbody|]. intros acc' Hacc'. by apply IH.
Qed.

Lemma keeps_lift {A} (r : result A) : keeps I (lift r) (λ _, True).
Proof. by apply keeps_read_only. Qed.

End Keeps.

(** ** The file system *)

Lemma joinpath_literal (p : Path) (s : string) :
  Str.startswith "/" s = false → Path.components s = [s] →
  p </> s = p ++ [s].
Proof. unfold Path.joinpath. by intros -> ->. Qed.

Lemma index_path_eq (self : CharacterService.t) :
  CharacterService._index_path self =
  CharacterService.project_path self
    ++ ["story_data"; "characters_index.json"].
Proof.
  unfold CharacterService._index_path.
  rewrite !joinpath_literal by reflexivity. by rewrite <-app_assoc.
Qed.

Lemma characters_dir_eq (self : CharacterService.t) :
  CharacterService._characters_dir self =
  CharacterService.project_path self ++ ["story_data"; "characters"].
Proof.
  unfold CharacterService._characters_dir.
  rewrite !joinpath_literal by reflexivity. by rewrite <-app_assoc.
Qed.

Lemma node_at_insert (fs : gmap Path node) (p q : Path) (n : node) :
  p ≠ [] →
  Path.node_at (<[p := n]> fs) q =
  if decide (p = q) then Some n else Path.node_at fs q.
Proof.
  intros Hp. destruct q as [|c q]; simpl.
  - by rewrite decide_False.
  - by rewrite lookup_insert.
Qed.

Lemma node_at_lookup (fs : gmap Path node) (p : Path) :
  p ≠ [] → Path.node_at fs p = fs !! p.
Proof. by destruct p. Qed.

Lemma is_dir_in_nonempty (fs : gmap Path node) (p : Path) :
  Path.exists_in fs p = false → p ≠ [].
Proof. by destruct p. Qed.

Lemma parent_is_dir_nonempty (fs : gmap Path node) (p : Path) :
  Path.is_dir_in fs p = false → p ≠ [].
Proof. by destruct p. Qed.

Section StoredIndex.
Context (self : CharacterService.t).

Let I (w : World) : Prop := stored_index_unique self (files w).

Lemma stored_index_insert_dir (fs : gmap Path node) (p : Path) :
  p ≠ [] → stored_index_unique self fs →
  stored_index_unique self (<[p := Dir]> fs).
Proof.
  unfold stored_index_unique. intros Hp H. rewrite node_at_insert by done.
  by case_decide.
Qed.

Lemma stored_index_insert_file (fs : gmap Path node) (p : Path) (c : content) :
  p ≠ [] → stored_index_unique self fs →
  (∀ i, c = IndexJson i → Spec.unique_names i) →
  stored_index_unique self (<[p := File c]> fs).
Proof.
  unfold stored_index_unique. intros Hp H Hc. rewrite node_at_insert by done.
  case_decide; [|done]. destruct c; try done. by apply Hc.
Qed.

Lemma stored_index_filter (fs : gmap Path node) (P : Path * node → Prop)
    `{!∀ x, Decision (P x)} :
  stored_index_unique self fs → stored_index_unique self (filter P fs).
Proof.
  unfold stored_index_unique.
  destruct (CharacterService._index_path self) as [|c ip] eqn:Hip; [done|].
  simpl. intros Hfs.
  destruct (filter P fs !! (c :: ip)) as [n|] eqn:Hn; [|done].
  apply map_lookup_filter_Some in Hn as [Hn _]. by rewrite Hn in Hfs.
Qed.

Lemma stored_index_make_dirs (qs : list Path) (fs fs' : gmap Path node) :
  Path.make_dirs qs fs = Some fs' →
  stored_index_unique self fs → stored_index_unique self fs'.
Proof.
  revert fs. induction qs as [|q qs IH]; intros fs; simpl.
  - by intros [= <-].
  - destruct (Path.node_at fs q) as [[|c]|] eqn:Hq; [by apply IH|done|].
    intros H Hfs. apply (IH _ H). apply stored_index_insert_dir; [|done].
    by destruct q.
Qed.

Lemma keeps_exists (p : Path) : keeps I (Path.exists_ p) (λ _, True).
Proof. by apply keeps_read_only. Qed.
Lemma keeps_is_dir (p : Path) : keeps I (Path.is_dir p) (λ _, True).
Proof. by apply keeps_read_only. Qed.
Lemma keeps_iterdir (p : Path) : keeps I (Path.iterdir p) (λ _, True).
Proof.
  apply keeps_read_only. intros w. unfold Path.iterdir. by case_match.
Qed.
Lemma keeps_read_text (p : Path) : keeps I (Path.read_text p) (λ _, True).
Proof.
  apply keeps_read_only. intros w. unfold Path.read_text.
  by repeat case_match.
Qed.
Lemma keeps_now : keeps I now (λ _, True).
Proof. by intros w Hw. Qed.

Lemma keeps_mkdir (parents : bool) (p : Path) :
  keeps I (Path.mkdir parents p) (λ _, True).
Proof.
  intros w Hw. split; [|done]. unfold Path.mkdir.
  destruct (Path.exists_in (files w) p) eqn:Hp; [done|].
  apply is_dir_in_nonempty in Hp.
  destruct parents.
  - destruct (Path.make_dirs _ _) as [fs'|] eqn:Hmk; [|done]. simpl.
    apply stored_index_insert_dir; [done|].
    by apply (stored_index_make_dirs _ _ _ Hmk).
  - case_match; [|done]. simpl. by apply stored_index_insert_dir.
Qed.

Lemma keeps_write_text (p : Path) (c : content) :
  (∀ i, c = IndexJson i → Spec.unique_names i) →
  keeps I (Path.write_text p c) (λ _, True).
Proof.
  intros Hc w Hw. split; [|done]. unfold Path.write_text.
  destruct (Path.is_dir_in (files w) p) eqn:Hp; [done|].
  apply parent_is_dir_nonempty in Hp.
  case_match; [|done]. simpl. by apply stored_index_insert_file.
Qed.

Lemma keeps_rmtree (p : Path) : keeps I (Path.rmtree p) (λ _, True).
Proof.
  intros w Hw. split; [|done]. unfold Path.rmtree. case_match; [|done].
  simpl. by apply stored_index_filter.
Qed.

End StoredIndex.

(** ** Programs that only read *)

Lemma read_only_ret {A} (a : A) : read_only (ret a).
Proof. done. Qed.
Lemma read_only_raise {A} (e : exn) : read_only (@raise A e).
Proof. done. Qed.
Lemma read_only_lift {A} (r : result A) : read_only (lift r).
Proof. done. Qed.
Lemma read_only_exists (p : Path) : read_only (Path.exists_ p).
Proof. done. Qed.
Lemma read_only_is_dir (p : Path) : read_only (Path.is_dir p).
Proof. done. Qed.
Lemma read_only_is_file (p : Path) : read_only (Path.is_file p).
Proof. done. Qed.
Lemma read_only_cwd : read_only Path.cwd.
Proof. done. Qed.
Lemma read_only_read_text (p : Path) : read_only (Path.read_text p).
Proof. intros w. unfold Path.read_text. by repeat case_match. Qed.
Lemma read_only_iterdir (p : Path) : read_only (Path.iterdir p).
Proof. intros w. unfold Path.iterdir. by case_match. Qed.

Lemma read_only_bind {A B} (m : M A) (k : A → M B) :
  read_only m → (∀ a, read_only (k a)) → read_only (bind m k).
Proof.
  intros Hm Hk w. unfold bind. specialize (Hm w).
  destruct (m w) as [[a|e] w1]; simpl in *; subst; [apply Hk|done].
Qed.

Lemma read_only_try_except {A} (m : M A) (handler : exn → option (M A)) :
  read_only m → (∀ e h, handler e = Some h → read_only h) →
  read_only (try_except m handler).
Proof.
  intros Hm Hh w. unfold try_except. specialize (Hm w).
  destruct (m w) as [[a|e] w1]; simpl in *; subst; [done|].
  destruct (handler e) as [h|] eqn:He; [by apply (Hh e h)|done].
Qed.

Lemma read_only_for_each {A B} (l : list A) (acc : B) (body : B → A → M B) :
  (∀ acc x, read_only (body acc x)) → read_only (for_each l acc body).
Proof.
  intros Hbody. revert acc. induction l as [|x l IH]; intros acc; simpl.
  - apply read_only_ret.
  - by apply read_only_bind.
Qed.

Ltac read_only_step :=
  lazymatch goal with
  | |- read_only (bind _ _) => apply read_only_bind; [|intros ?]
  | |- read_only (ret _) => apply read_only_ret
  | |- read_only (raise _) => apply read_only_raise
  | |- read_only (lift _) => apply read_only_lift
  | |- read_only (Path.exists_ _) => apply read_only_exists
  | |- read_only (Path.is_dir _) => apply read_only_is_dir
  | |- read_only (Path.is_file _) => apply read_only_is_file
  | |- read_only (Path.read_text _) => apply read_only_read_text
  | |- read_only (Path.iterdir _) => apply read_only_iterdir
  | |- read_only Path.cwd => apply read_only_cwd
  | |- read_only (if ?b then _ else _) => destruct b
  | |- read_only (match ?o with Some _ => _ | None => _ end) => destruct o
  | |- read_only (try_except _ _) =>
      apply read_only_try_except; [|intros [] ? [= <-]]
  | |- read_only (for_each _ _ _) => apply read_only_for_each; intros ? ?
  end.

Lemma read_only_validate_project (self : CharacterService.t) :
  read_only (CharacterService._validate_project self).
Proof. unfold CharacterService._validate_project. repeat read_only_step. Qed.

Lemma read_only_load_index (self : CharacterService.t) :
  read_only (CharacterService._load_index self).
Proof. unfold CharacterService._load_index. repeat read_only_step. Qed.

Lemma read_only_get_character (self : CharacterService.t) (name : string) :
  read_only (CharacterService.get_character self name).
Proof.
  unfold CharacterService.get_character.
  repeat first [read_only_step | apply read_only_validate_project
               | apply read_only_load_index].
Qed.

Lemma read_only_get_relationship_dependencies (self : CharacterService.t)
    (name : string) :
  read_only (CharacterService.get_relationship_dependencies self name).
Proof.
  unfold CharacterService.get_relationship_dependencies.
  repeat first [read_only_step | apply read_only_validate_project
               | apply read_only_load_index | apply read_only_get_character].
Qed.

Lemma read_only_list_characters (self : CharacterService.t)
    (role_filter : option string) :
  read_only (CharacterService.list_characters self role_filter).
Proof.
  unfold CharacterService.list_characters.
  repeat first [read_only_step | apply read_only_validate_project
               | apply read_only_load_index | apply read_only_get_character].
Qed.

Lemma read_only_validate (path : Path) :
  read_only (ProjectService.validate_project path).
Proof. unfold ProjectService.validate_project. repeat read_only_step. Qed.

(** ** The character index *)

Lemma NoDup_map_filter {A B} (f : A → B) (p : A → bool) (l : list A) :
  NoDup (List.map f l) → NoDup (List.map f (List.filter p l)).
Proof.
  induction l as [|x l IH]; simpl; [done|].
  intros [Hx Hl]%NoDup_cons. destruct (p x); simpl; [|by apply IH].
  apply NoDup_cons. split; [|by apply IH].
  intros Hin. apply Hx. apply list_elem_of_In, in_map_iff in Hin as (y & Hy & Hin).
  apply list_elem_of_In, in_map_iff. exists y. split; [done|].
  by apply filter_In in Hin as [? _].
Qed.

Lemma unique_names_empty : Spec.unique_names CharacterIndex.empty.
Proof. apply NoDup_nil_2. Qed.

Lemma add_entry_unique (entry : CharacterIndexEntry.t) (index : CharacterIndex.t) :
  Spec.unique_names index →
  Spec.unique_names (CharacterIndex.add_entry entry index).
Proof.
  unfold Spec.unique_names, CharacterIndex.add_entry. simpl. intros H.
  rewrite map_app. apply NoDup_app. split; [by apply NoDup_map_filter|].
  split; [|apply NoDup_singleton].
  intros x Hx [<-|[]]%list_elem_of_In.
  apply list_elem_of_In, in_map_iff in Hx as (e & He & Hin).
  apply filter_In in Hin as [_ Hin]. apply negb_true_iff in Hin.
  apply String.eqb_neq in Hin. done.
Qed.

Lemma remove_entry_unique (name : string) (index : CharacterIndex.t) :
  Spec.unique_names index →
  Spec.unique_names (fst (CharacterIndex.remove_entry name index)).
Proof. unfold Spec.unique_names. simpl. apply NoDup_map_filter. Qed.

Lemma remove_entry_gone (name : string) (index : CharacterIndex.t)
    (e : CharacterIndexEntry.t) :
  e ∈ CharacterIndex.characters (fst (CharacterIndex.remove_entry name index)) →
  Str.lower (CharacterIndexEntry.name e) ≠ Str.lower name.
Proof.
  simpl. intros [_ He]%list_elem_of_In%filter_In.
  by apply negb_true_iff, String.eqb_neq in He.
Qed.


(** ** The index invariant through the services *)

Lemma load_index_result (self : CharacterService.t) (w : World) :
  snd (CharacterService._load_index self w) = w ∧
  fst (CharacterService._load_index self w) =
  match Path.node_at (files w) (CharacterService._index_path self) with
  | None => Ok CharacterIndex.empty
  | Some (File text) => Json.CharacterIndex_model_validate_json text
  | Some Dir => Raise (OSError "IsADirectoryError")
  end.
Proof.
  unfold CharacterService._load_index, bind, Path.exists_, Path.exists_in,
    Path.read_text, lift, ret.
  simpl.
  destruct (Path.node_at (files w) (CharacterService._index_path self))
    as [[|text]|] eqn:E; simpl; rewrite ?E; done.
Qed.

Lemma index_invariant_stored (self : CharacterService.t) (w : World) :
  Spec.index_invariant self w ↔ stored_index_unique self (files w).
Proof.
  unfold Spec.index_invariant, stored_index_unique.
  destruct (load_index_result self w) as [_ ->].
  destruct (Path.node_at _ _) as [[|[p|c|i|s]]|]; simpl; split; try done;
    try (by intros _ ? [= <-]; apply unique_names_empty).
  - intros H. by apply H.
  - by intros H ? [= <-].
Qed.

Section ServicesKeepIndex.
Context (self : CharacterService.t).

Let I (w : World) : Prop := stored_index_unique self (files w).

Lemma keeps_load_index :
  keeps I (CharacterService._load_index self) Spec.unique_names.
Proof.
  intros w Hw. destruct (load_index_result self w) as [-> Hr].
  split; [done|]. intros index Hi.
  by apply (proj2 (index_invariant_stored self w) Hw).
Qed.

Lemma keeps_save_index (index : CharacterIndex.t) :
  Spec.unique_names index →
  keeps I (CharacterService._save_index self index) (λ _, True).
Proof. intros H. apply keeps_write_text. by intros ? [= <-]. Qed.

Lemma keeps_validate_project :
  keeps I (CharacterService._validate_project self) (λ _, True).
Proof. apply keeps_read_only, read_only_validate_project. Qed.

Ltac keeps_step :=
  lazymatch goal with
  | |- keeps _ (bind (CharacterService._load_index _) _) _ =>
      eapply keeps_bind; [apply keeps_load_index|intros ? ?]
  | |- keeps _ (bind _ _) _ =>
      eapply keeps_bind with (V := λ _, True); [|intros ? ?]
  | |- keeps _ (ret _) _ => by apply keeps_ret
  | |- keeps _ (raise _) _ => apply keeps_raise
  | |- keeps _ (lift _) _ => apply keeps_lift
  | |- keeps _ (Path.exists_ _) _ => apply keeps_exists
  | |- keeps _ (Path.is_dir _) _ => apply keeps_is_dir
  | |- keeps _ (Path.iterdir _) _ => apply keeps_iterdir
  | |- keeps _ (Path.read_text _) _ => apply keeps_read_text
  | |- keeps _ (Path.mkdir _ _) _ => apply keeps_mkdir
  | |- keeps _ (Path.rmtree _) _ => apply keeps_rmtree
  | |- keeps _ (Path.write_text _ (CharacterJson _)) _ =>
      by apply keeps_write_text
  | |- keeps _ now _ => apply keeps_now
  | |- keeps _ (CharacterService._validate_project _) _ =>
      apply keeps_validate_project
  | |- keeps _ (CharacterService._load_index _) _ => apply keeps_load_index
  | |- keeps _ (CharacterService._save_index _ _) _ =>
      apply keeps_save_index;
      first [by apply add_entry_unique | by apply remove_entry_unique | done]
  | |- keeps _ (if ?b then _ else _) _ => destruct b
  | |- keeps _ (match ?o with Some _ => _ | None => _ end) _ => destruct o
  | |- keeps _ (try_except _ _) _ =>
      apply keeps_try_except; [|intros [] ? [= <-]]
  end.

Lemma keeps_create_character (character : Character.t) :
  keeps I (CharacterService.create_character self character) (λ _, True).
Proof. unfold CharacterService.create_character. repeat keeps_step. Qed.

Lemma keeps_get_character (name : string) :
  keeps I (CharacterService.get_character self name) (λ _, True).
Proof. unfold CharacterService.get_character. repeat keeps_step. Qed.

Lemma keeps_update_character (character : Character.t) :
  keeps I (CharacterService.update_character self character) (λ _, True).
Proof. unfold CharacterService.update_character. repeat keeps_step. Qed.

Lemma keeps_get_relationship_dependencies (name : string) :
  keeps I (CharacterService.get_relationship_dependencies self name)
        (λ _, True).
Proof.
  unfold CharacterService.get_relationship_dependencies.
  repeat keeps_step. apply keeps_for_each; [|done]. intros acc entry _.
  repeat first [keeps_step | apply keeps_get_character].
Qed.

Lemma keeps_delete_character (name : string) (force : bool) :
  keeps I (CharacterService.delete_character self name force) (λ _, True).
Proof.
  unfold CharacterService.delete_character.
  repeat first [keeps_step | apply keeps_get_relationship_dependencies].
  all: try (apply keeps_for_each; [|done]; intros [] dep_name _).
  all: repeat first [keeps_step | apply keeps_get_character
                    | apply keeps_update_character].
Qed.

Lemma keeps_rebuild_index :
  keeps I (CharacterService.rebuild_index self) (λ _, True).
Proof.
  unfold CharacterService.rebuild_index.
  eapply keeps_bind; [apply keeps_validate_project|]. intros _ _.
  eapply keeps_bind; [apply keeps_exists|]. intros ex _.
  eapply keeps_bind with (V := Spec.unique_names).
  - destruct ex; [|by apply keeps_ret, unique_names_empty].
    eapply keeps_bind; [apply keeps_iterdir|]. intros dirs _.
    apply keeps_for_each; [|apply unique_names_empty].
    intros index char_dir Hindex.
    eapply keeps_bind; [apply keeps_is_dir|]. intros d _.
    destruct d; simpl; [|by apply keeps_ret].
    eapply keeps_bind; [apply keeps_exists|]. intros ex' _.
    destruct ex'; simpl; [|by apply keeps_ret].
    apply keeps_try_except.
    + eapply keeps_bind; [apply keeps_read_text|]. intros content _.
      eapply keeps_bind; [apply keeps_lift|]. intros character _.
      by apply keeps_ret, add_entry_unique.
    + intros e h [= <-]. by apply keeps_ret.
  - intros index Hindex. by apply keeps_save_index.
Qed.

End ServicesKeepIndex.

(** C9. The character index never holds two entries whose names are equal
    case-insensitively: the empty index has none; upserting an entry removes
    the entries of that name before appending and removal deletes them all,
    so both keep the names unique; and whenever the stored index of a project
    has unique names, it still has after [create_character],
    [update_character], [delete_character] and [rebuild_index], whether they
    return or raise. *)
Theorem index_names_stay_unique (self : CharacterService.t) (w : World)
    (Hinv : Spec.index_invariant self w) :
  Spec.unique_names CharacterIndex.empty
  ∧ (∀ entry index,
       Spec.unique_names index →
       Spec.unique_names (CharacterIndex.add_entry entry index))
  ∧ (∀ name index,
       Spec.unique_names index →
       Spec.unique_names (fst (CharacterIndex.remove_entry name index))
       ∧ ∀ e, e ∈ CharacterIndex.characters
                    (fst (CharacterIndex.remove_entry name index)) →
              Str.lower (CharacterIndexEntry.name e) ≠ Str.lower name)
  ∧ (∀ character,
       Spec.index_invariant self
         (snd (CharacterService.create_character self character w)))
  ∧ (∀ character,
       Spec.index_invariant self
         (snd (CharacterService.update_character self character w)))
  ∧ (∀ name force,
       Spec.index_invariant self
         (snd (CharacterService.delete_character self name force w)))
  ∧ Spec.index_invariant self (snd (CharacterService.rebuild_index self w)).
Proof.
  apply index_invariant_stored in Hinv.
  split; [apply unique_names_empty|].
  split; [apply add_entry_unique|].
  split.
  { intros name index H. split; [by apply remove_entry_unique|].
    apply remove_entry_gone. }
  repeat split; intros; apply index_invariant_stored.
  - by apply (keeps_create_character self character w).
  - by apply (keeps_update_character self character w).
  - by apply (keeps_delete_character self name force w).
  - by apply (keeps_rebuild_index self w).
Qed.

Lemma index_names_stay_unique_witness :
  Spec.index_invariant ExW.svc ExW.w_alex_bob ∧
  Spec.index_invariant ExW.svc
    (snd (CharacterService.delete_character ExW.svc "Alex Chen" true
            ExW.w_alex_bob)).
Proof.
  assert (H : Spec.index_invariant ExW.svc ExW.w_alex_bob).
  { intros index Hload. vm_compute in Hload. injection Hload as <-.
    unfold Spec.unique_names. simpl.
    eapply (bool_decide_unpack (NoDup _)). vm_compute. exact I. }
  split; [exact H|].
  apply (index_names_stay_unique ExW.svc ExW.w_alex_bob H).
Defined.

(** ** Opening a project *)

Lemma validate_project_result (path : Path) (w : World) :
  ∃ ok errors,
    ProjectService.validate_project path w = (Ok (ok, errors), w) ∧
    ok = (length errors =? 0)%nat ∧
    Forall (λ e, e ≠ ProjectService.STORY_JSON) errors.
Proof.
  unfold ProjectService.validate_project, bind, try_except, ret, lift,
    Path.exists_, Path.is_dir, Path.is_file, Path.read_text,
    Path.exists_in, Path.is_dir_in, Path.is_file_in.
  repeat (case_match; simplify_eq/=);
    eexists _, _; (split; [reflexivity|]); (split; [reflexivity|]);
    repeat (apply Forall_cons; split; [discriminate|]); apply Forall_nil_2.
Qed.

Lemma not_bare_story_json (errors : list string) :
  Forall (λ e, e ≠ ProjectService.STORY_JSON) errors →
  existsb (String.eqb ProjectService.STORY_JSON)
    (List.filter (Str.contains ProjectService.STORY_JSON) errors) = false.
Proof.
  induction 1 as [|e errors He _ IH]; [done|].
  cbn [List.filter]. destruct (Str.contains _ e); [|done].
  cbn [existsb]. rewrite IH, orb_false_r. apply String.eqb_neq. congruence.
Qed.

Lemma project_json_raises (text : content) (e : exn) :
  Json.Project_model_validate_json text = Raise e →
  ∃ msg, e = ValidationError msg.
Proof.
  unfold Json.Project_model_validate_json, Project.model_validate, rbind,
    require, Project.validate_project_name, Project.validate_genre,
    Project.validate_synopsis.
  repeat (case_match; simplify_eq/=); intros; simplify_eq; eauto.
Qed.

(** X1. [open_project] never raises [ProjectValidationError], whatever
    the path and the state: the membership test of its guard looks for an
    error message equal to "story.json", and [validate_project] produces
    none. *)
Lemma open_project_never_validation_error (path : option Path) (w : World)
    (errors : list string) :
  fst (ProjectService.open_project path w)
    ≠ Raise (ProjectValidationError errors).
Proof.
  unfold ProjectService.open_project.
  assert (Hp : ∃ p, (match path with Some p => ret p | None => Path.cwd end) w
                    = (Ok p, w)) by (destruct path; eexists; reflexivity).
  destruct Hp as [p Hp]. rewrite (bind_Ok _ _ _ _ _ Hp).
  destruct (validate_project_result p w) as (ok & errs & Hv & _ & Herrs).
  rewrite (bind_Ok _ _ _ _ _ Hv). cbv beta iota.
  rewrite (not_bare_story_json _ Herrs).
  unfold bind, Path.exists_, raise, ret, Path.read_text, lift.
  cbn beta iota. rewrite ?orb_true_r.
  repeat (case_match; simplify_eq/=); try done.
  all: try (rewrite orb_true_r in *; discriminate).
  all: intros Hr; apply project_json_raises in Hr as [msg [=]].
Qed.

(** C3. On a project whose root and [story.json] are present and valid but
    whose [story_data] directory is missing, validation reports the missing
    directory, and [open_project] raises [ProjectNotFoundError] where the
    specification (and the docstring) say [ProjectValidationError]. *)
Theorem open_project_invalid_structure :
  Path.exists_in (files ExW.w_no_data) ExW.project = true ∧
  fst (Path.read_text (ExW.project </> ProjectService.STORY_JSON)
         ExW.w_no_data) = Ok (ProjectJson ExW.story) ∧
  Json.Project_model_validate_json (ProjectJson ExW.story) = Ok ExW.story ∧
  fst (ProjectService.validate_project ExW.project ExW.w_no_data)
    = Ok (false, ["Missing story_data directory"]) ∧
  fst (ProjectService.open_project (Some ExW.project) ExW.w_no_data)
    = Raise (ProjectNotFoundError "/tmp/test_project").
Proof. repeat split; vm_compute; reflexivity. Qed.

(** X2. The not-found half holds: a missing root or a missing
    [story.json] gives [ProjectNotFoundError] with the path as its
    argument. *)
Lemma open_project_not_found (p : Path) (w : World) :
  Path.exists_in (files w) p = false ∨
  Path.exists_in (files w) (p </> ProjectService.STORY_JSON) = false →
  fst (ProjectService.open_project (Some p) w)
    = Raise (ProjectNotFoundError (Path.str p)).
Proof.
  intros Habs. unfold ProjectService.open_project.
  rewrite (bind_Ok _ _ w p w) by done.
  destruct (validate_project_result p w) as (ok & errs & Hv & -> & Herrs).
  rewrite (bind_Ok _ _ _ _ _ Hv). cbv beta iota.
  rewrite (not_bare_story_json _ Herrs).
  assert (Hne : (length errs =? 0)%nat = false).
  { revert Hv. unfold ProjectService.validate_project, bind, try_except, ret,
      lift, Path.exists_, Path.is_dir, Path.is_file, Path.read_text.
    repeat (case_match; simplify_eq/=); intros; simplify_eq/=; try done;
      repeat match goal with
             | H : negb _ = false |- _ => apply negb_false_iff in H
             end;
      destruct Habs; congruence. }
  rewrite Hne. unfold bind, Path.exists_, raise. simpl.
  by rewrite orb_true_r.
Qed.

Lemma open_project_not_found_witness :
  fst (ProjectService.open_project (Some ExW.project) ExW.w0)
    = Raise (ProjectNotFoundError "/tmp/test_project").
Proof.
  apply (open_project_not_found ExW.project ExW.w0).
  left. vm_compute. reflexivity.
Defined.

(** ** Trimming and lowercasing *)

Lemma lstrip_idem (s : string) : Str.lstrip (Str.lstrip s) = Str.lstrip s.
Proof.
  induction s as [|c s IH]; simpl; [done|].
  destruct (Str.is_space c) eqn:Hc; [done|]. simpl. by rewrite Hc.
Qed.

Lemma rstrip_idem (s : string) : Str.rstrip (Str.rstrip s) = Str.rstrip s.
Proof.
  induction s as [|c s IH]; simpl; [done|].
  destruct (Str.is_space c && negb (Str.truthy (Str.rstrip s))) eqn:Hc;
    [done|].
  simpl. by rewrite IH, Hc.
Qed.

Lemma rstrip_lstrip (s : string) :
  Str.rstrip (Str.lstrip s) = Str.lstrip (Str.rstrip s).
Proof.
  induction s as [|c s IH]; simpl; [done|].
  destruct (Str.is_space c) eqn:Hc; simpl.
  - destruct (Str.truthy (Str.rstrip s)) eqn:Hr; simpl.
    + by rewrite Hc.
    + apply truthy_false in Hr. by rewrite IH, Hr.
  - by rewrite Hc.
Qed.

Lemma strip_idem (s : string) : Str.strip (Str.strip s) = Str.strip s.
Proof.
  unfold Str.strip. by rewrite rstrip_lstrip, rstrip_idem, lstrip_idem.
Qed.

Lemma length_lstrip (s : string) :
  (String.length (Str.lstrip s) ≤ String.length s)%nat.
Proof.
  induction s as [|c s IH]; simpl; [done|].
  destruct (Str.is_space c); simpl; lia.
Qed.

Lemma length_rstrip (s : string) :
  (String.length (Str.rstrip s) ≤ String.length s)%nat.
Proof.
  induction s as [|c s IH]; simpl; [done|].
  destruct (_ && _); simpl; lia.
Qed.

Lemma length_strip (s : string) :
  (String.length (Str.strip s) ≤ String.length s)%nat.
Proof.
  unfold Str.strip. etrans; [apply length_lstrip|apply length_rstrip].
Qed.

Lemma len_between_strip (hi : nat) (s : string) :
  Str.len_between 1 hi s = true → Str.truthy (Str.strip s) = true →
  Str.len_between 1 hi (Str.strip s) = true.
Proof.
  unfold Str.len_between. intros [_ Hhi%Nat.leb_le]%andb_true_iff Ht.
  pose proof (length_strip s).
  apply andb_true_iff. split; apply Nat.leb_le; [|lia].
  destruct (Str.strip s); [done|simpl; lia].
Qed.

Lemma is_space_lower_char (c : ascii) :
  Str.is_space (Str.lower_char c) = Str.is_space c.
Proof. each_char c; reflexivity. Qed.

Lemma lower_char_idem (c : ascii) :
  Str.lower_char (Str.lower_char c) = Str.lower_char c.
Proof. each_char c; reflexivity. Qed.

Lemma lower_idem (s : string) : Str.lower (Str.lower s) = Str.lower s.
Proof.
  induction s as [|c s IH]; simpl; [done|]. by rewrite lower_char_idem, IH.
Qed.

Lemma truthy_lower (s : string) : Str.truthy (Str.lower s) = Str.truthy s.
Proof. by destruct s. Qed.

Lemma lstrip_lower (s : string) :
  Str.lstrip (Str.lower s) = Str.lower (Str.lstrip s).
Proof.
  induction s as [|c s IH]; simpl; [done|].
  rewrite is_space_lower_char. by destruct (Str.is_space c).
Qed.

Lemma rstrip_lower (s : string) :
  Str.rstrip (Str.lower s) = Str.lower (Str.rstrip s).
Proof.
  induction s as [|c s IH]; simpl; [done|].
  rewrite is_space_lower_char, IH, truthy_lower.
  by destruct (_ && _).
Qed.

Lemma strip_lower (s : string) :
  Str.strip (Str.lower s) = Str.lower (Str.strip s).
Proof. unfold Str.strip. by rewrite rstrip_lower, lstrip_lower. Qed.

(** ** Validation is idempotent *)

Lemma validate_project_name_inv (v name : string) :
  Project.validate_project_name v = Ok name →
  name = Str.strip v ∧ Str.truthy name = true ∧
  Project.validate_project_name name = Ok name.
Proof.
  unfold Project.validate_project_name.
  destruct (Str.truthy (Str.strip v)) eqn:Ht; simpl; [|done].
  destruct (Str.isalnum _) eqn:Ha; simpl; [|done].
  intros [= <-]. by rewrite strip_idem, Ht, Ha.
Qed.

Lemma validate_genre_inv (v genre : string) :
  Project.validate_genre v = Ok genre →
  genre = Str.lower (Str.strip v) ∧ Str.truthy genre = true ∧
  Str.strip genre = Str.strip (Str.lower v) ∧
  Project.validate_genre genre = Ok genre.
Proof.
  unfold Project.validate_genre.
  destruct (Str.truthy (Str.strip v)) eqn:Ht; simpl; [|done].
  intros [= <-].
  rewrite !strip_lower, strip_idem, truthy_lower, Ht, lower_idem. done.
Qed.

Lemma validate_synopsis_inv (v synopsis : string) :
  Project.validate_synopsis v = Ok synopsis →
  synopsis = Str.strip v ∧ Str.truthy synopsis = true ∧
  Project.validate_synopsis synopsis = Ok synopsis.
Proof.
  unfold Project.validate_synopsis.
  destruct (Str.truthy (Str.strip v)) eqn:Ht; simpl; [|done].
  intros [= <-]. by rewrite strip_idem, Ht.
Qed.

Lemma require_inv (b : bool) (msg : string) (u : unit) :
  require b msg = Ok u → b = true.
Proof. by destruct b. Qed.

Lemma rbind_inv {A B} (r : result A) (k : A → result B) (b : B) :
  rbind r k = Ok b → ∃ a, r = Ok a ∧ k a = Ok b.
Proof. destruct r as [a|e]; [|done]. intros H. by exists a. Qed.

Lemma len_between_truthy (hi : nat) (s : string) :
  Str.len_between 1 hi s = true → Str.truthy s = true.
Proof. by destruct s. Qed.

Lemma truthy_len_between (hi : nat) (s : string) :
  Str.truthy s = true → (String.length s ≤ hi)%nat →
  Str.len_between 1 hi s = true.
Proof.
  unfold Str.len_between. intros Ht Hle.
  destruct s as [|c s]; [done|].
  apply andb_true_iff. split; [done|by apply Nat.leb_le].
Qed.

(** A validated record validates again to itself once its genre, which has
    been lower-cased, still is within the length bound. *)
Lemma project_model_validate_inv (name genre synopsis : string) (ts : Z)
    (p : Project.t) :
  Project.model_validate name genre synopsis ts = Ok p →
  Project.name p = Str.strip name ∧
  Project.genre p = Str.lower (Str.strip genre) ∧
  Project.synopsis p = Str.strip synopsis ∧
  Project.created_at p = ts ∧
  Str.truthy (Project.genre p) = true ∧
  ((String.length (Project.genre p) ≤ 50)%nat →
   Project.model_validate (Project.name p) (Project.genre p)
     (Project.synopsis p) (Project.created_at p) = Ok p).
Proof.
  unfold Project.model_validate. intros H.
  apply rbind_inv in H as ([] & Hn%require_inv & H).
  apply rbind_inv in H as (n' & Hn' & H).
  apply rbind_inv in H as ([] & Hg%require_inv & H).
  apply rbind_inv in H as (g' & Hg' & H).
  apply rbind_inv in H as ([] & Hs%require_inv & H).
  apply rbind_inv in H as (s' & Hs' & H).
  injection H as <-. simpl.
  apply validate_project_name_inv in Hn' as (-> & Htn & Hn').
  apply validate_synopsis_inv in Hs' as (-> & Hts & Hs').
  apply validate_genre_inv in Hg' as (-> & Htg & _ & Hg').
  repeat split; try done. intros Hlength.
  rewrite (len_between_strip _ _ Hn Htn). simpl. rewrite Hn'. simpl.
  rewrite (truthy_len_between _ _ Htg Hlength). simpl. rewrite Hg'. simpl.
  rewrite (len_between_strip _ _ Hs Hts). simpl. rewrite Hs'. done.
Qed.

(** ** Running the file-system primitives *)

Lemma write_text_inv (p : Path) (c : content) (w w' : World) (u : unit) :
  Path.write_text p c w = (Ok u, w') →
  p ≠ [] ∧ w' = set_files (<[p := File c]> (files w)) w.
Proof.
  unfold Path.write_text.
  destruct (Path.is_dir_in (files w) p) eqn:Hp; [done|].
  apply parent_is_dir_nonempty in Hp.
  destruct (Path.is_dir_in _ (Path.parent p)); [|done]. by intros [= <-].
Qed.

Lemma mkdir_parents_inv (p : Path) (w w' : World) (u : unit) :
  Path.mkdir true p w = (Ok u, w') →
  p ≠ [] ∧ Path.exists_in (files w) p = false ∧
  ∃ fs, Path.make_dirs (Path.ancestors p) (files w) = Some fs ∧
        w' = set_files (<[p := Dir]> fs) w.
Proof.
  unfold Path.mkdir.
  destruct (Path.exists_in (files w) p) eqn:Hp; [done|].
  destruct (Path.make_dirs _ _) as [fs|]; [|done]. intros [= <-].
  split; [by apply is_dir_in_nonempty in Hp|]. eauto.
Qed.

Lemma mkdir_inv (p : Path) (w w' : World) (u : unit) :
  Path.mkdir false p w = (Ok u, w') →
  p ≠ [] ∧ Path.exists_in (files w) p = false ∧
  w' = set_files (<[p := Dir]> (files w)) w.
Proof.
  unfold Path.mkdir.
  destruct (Path.exists_in (files w) p) eqn:Hp; [done|].
  destruct (Path.is_dir_in _ _); [|done]. intros [= <-].
  split; [by apply is_dir_in_nonempty in Hp|]. done.
Qed.

Lemma path_app_ne (p l1 l2 : Path) : l1 ≠ l2 → p ++ l1 ≠ p ++ l2.
Proof. intros Hne Heq. by apply app_inv_head in Heq. Qed.

Lemma path_app_ne_self (p l : Path) : l ≠ [] → p ++ l ≠ p.
Proof.
  intros Hne Heq. rewrite <-(app_nil_r p) in Heq at 2.
  by apply app_inv_head in Heq.
Qed.

Lemma joinpath_ne (p : Path) (s t : string) :
  Str.startswith "/" s = false → Path.components s = [s] →
  Str.startswith "/" t = false → Path.components t = [t] →
  s ≠ t → p </> s ≠ p </> t.
Proof.
  intros. rewrite !joinpath_literal by done. apply path_app_ne. congruence.
Qed.

Lemma joinpath_ne_self (p : Path) (s : string) :
  Str.startswith "/" s = false → Path.components s = [s] → p </> s ≠ p.
Proof. intros. rewrite joinpath_literal by done. by apply path_app_ne_self. Qed.

Lemma joinpath_nonempty (p : Path) (s : string) :
  Str.startswith "/" s = false → Path.components s = [s] → p </> s ≠ [].
Proof. intros. rewrite joinpath_literal by done. by destruct p. Qed.

Lemma joinpath2_ne (p : Path) (s t u : string) :
  Str.startswith "/" s = false → Path.components s = [s] →
  Str.startswith "/" t = false → Path.components t = [t] →
  Str.startswith "/" u = false → Path.components u = [u] →
  p </> s </> t ≠ p </> u.
Proof.
  intros. rewrite !joinpath_literal by done. rewrite <-app_assoc.
  apply path_app_ne. discriminate.
Qed.

Lemma joinpath2_ne_self (p : Path) (s t : string) :
  Str.startswith "/" s = false → Path.components s = [s] →
  Str.startswith "/" t = false → Path.components t = [t] →
  p </> s </> t ≠ p.
Proof.
  intros. rewrite !joinpath_literal by done. rewrite <-app_assoc.
  by apply path_app_ne_self.
Qed.

Ltac path_ne :=
  solve [ apply joinpath_ne; (reflexivity || discriminate)
        | apply joinpath_ne_self; reflexivity
        | apply not_eq_sym, joinpath_ne_self; reflexivity
        | apply joinpath2_ne; reflexivity
        | apply not_eq_sym, joinpath2_ne; reflexivity
        | apply joinpath2_ne_self; reflexivity
        | apply not_eq_sym, joinpath2_ne_self; reflexivity
        | apply joinpath_nonempty; reflexivity
        | done ].

(** ** Opening a well-formed project *)

Lemma open_project_ok (path : Path) (w : World) (project : Project.t) :
  Path.node_at (files w) path = Some Dir →
  Path.node_at (files w) (path </> ProjectService.STORY_JSON)
    = Some (File (ProjectJson project)) →
  Path.node_at (files w) (path </> ProjectService.STORY_DATA_DIR)
    = Some Dir →
  Path.node_at (files w)
    (path </> ProjectService.STORY_DATA_DIR </> ProjectService.CHARACTERS_DIR)
    = Some Dir →
  Json.Project_model_validate_json (ProjectJson project) = Ok project →
  ProjectService.open_project (Some path) w = (Ok project, w).
Proof.
  intros Hroot Hstory Hdata Hchars Hvalid.
  unfold ProjectService.open_project, ProjectService.validate_project.
  unfold bind, try_except, ret, lift, raise, Path.exists_, Path.is_dir,
    Path.is_file, Path.read_text, Path.exists_in, Path.is_dir_in,
    Path.is_file_in.
  cbv beta iota zeta.
  repeat progress
    (rewrite ?Hroot, ?Hstory, ?Hdata, ?Hchars, ?Hvalid;
     cbn [negb length Nat.eqb]; cbv beta iota).
  done.
Qed.

(** ** Creating a project *)

Ltac minv H :=
  let a := fresh "a" in
  let w := fresh "w" in
  let H1 := fresh "Hstep" in
  apply bind_inv_Ok in H as (a & w & H1 & H).

Lemma create_project_layout (name genre synopsis : string)
    (parent_dir : option Path) (w w' : World) (path : Path) :
  ProjectService.create_project name genre synopsis parent_dir w
    = (Ok path, w') →
  let data := path </> ProjectService.STORY_DATA_DIR in
  ∃ project fs,
    Project.model_validate name genre synopsis (clock w) = Ok project ∧
    path ≠ [] ∧
    w' = mkWorld
      (<[data </> ProjectService.CHARACTERS_INDEX
          := File (IndexJson (CharacterIndex.mk []))]>
        (<[path </> ProjectService.STORY_JSON := File (ProjectJson project)]>
           (<[data </> ProjectService.CHARACTERS_DIR := Dir]>
              (<[data := Dir]> (<[path := Dir]> fs)))))
      (clock w + 1) (cwd w).
Proof.
  unfold ProjectService.create_project. intros H.
  minv H. rename a into parent.
  assert (w0 = w) as -> by (destruct parent_dir; by injection Hstep).
  clear Hstep.
  minv H. injection Hstep as <- <-.
  destruct (Path.exists_in _ _) eqn:Hex; [done|].
  minv H. injection Hstep as <- <-.
  minv H. injection Hstep as Hp <-. rename a into project.
  minv H. apply mkdir_parents_inv in Hstep as (Hne & _ & fs & _ & ->).
  minv H. apply mkdir_inv in Hstep as (_ & _ & ->).
  minv H. apply mkdir_inv in Hstep as (_ & _ & ->).
  minv H. apply write_text_inv in Hstep as (_ & ->).
  minv H. apply write_text_inv in Hstep as (_ & ->).
  injection H as <- <-.
  by exists project, fs.
Qed.

(** C8. When [create_project] returns a path and the genre, trimmed and
    lower-cased, still has at most 50 characters, [open_project] on that
    path returns a record whose name and synopsis are the given ones
    trimmed, whose genre is the given one trimmed and lower-cased, and
    whose creation time is the time of the call; the state is not changed
    by opening. The bound on the genre is what the second validation, on
    opening, asks of the stored genre: creation checks the length of the
    genre as given, and lower-casing can lengthen a string. *)
Theorem create_then_open_project (name genre synopsis : string)
    (parent_dir : option Path) (w w' : World) (path : Path)
    (Hcreate : ProjectService.create_project name genre synopsis parent_dir w
               = (Ok path, w'))
    (Hlength : (String.length (Str.lower (Str.strip genre)) ≤ 50)%nat) :
  ∃ project,
    ProjectService.open_project (Some path) w' = (Ok project, w') ∧
    Project.name project = Str.strip name ∧
    Project.genre project = Str.lower (Str.strip genre) ∧
    Project.synopsis project = Str.strip synopsis ∧
    Project.created_at project = clock w.
Proof.
  apply create_project_layout in Hcreate
    as (project & fs & Hvalid & Hne & ->).
  apply project_model_validate_inv in Hvalid
    as (Hn & Hg & Hs & Hc & _ & Hagain).
  rewrite <-Hg in Hlength. specialize (Hagain Hlength).
  exists project. split; [|done].
  apply open_project_ok; simpl files;
    rewrite ?node_at_insert by path_ne;
    repeat (rewrite decide_False by path_ne);
    rewrite ?decide_True by done; done.
Qed.

Lemma create_then_open_project_witness :
  ∃ project,
    ProjectService.open_project (Some ExW.project)
      (snd (ProjectService.create_project "Test Project" " Fantasy "
              "A test story" None ExW.w0))
    = (Ok project,
       snd (ProjectService.create_project "Test Project" " Fantasy "
              "A test story" None ExW.w0)) ∧
    Project.name project = "Test Project" ∧
    Project.genre project = "fantasy" ∧
    Project.synopsis project = "A test story" ∧
    Project.created_at project = 0.
Proof.
  apply (create_then_open_project "Test Project" " Fantasy " "A test story"
           None ExW.w0).
  - vm_compute. reflexivity.
  - vm_compute. lia.
Defined.

Lemma create_then_open_genre_not_only_lowercased :
  let created :=
    ProjectService.create_project "Test Project" " Fantasy " "A test story"
      None ExW.w0 in
  fst created = Ok ExW.project ∧
  ∃ project,
    fst (ProjectService.open_project (Some ExW.project) (snd created))
      = Ok project ∧
    Project.genre project = "fantasy" ∧
    Project.genre project ≠ Str.lower " Fantasy ".
Proof.
  split; [vm_compute; reflexivity|].
  eexists. split; [vm_compute; reflexivity|]. split; [reflexivity|].
  vm_compute. discriminate.
Qed.

(** ** Creating a character *)

Lemma generate_lora_trigger_truthy (c : Character.t) :
  CharacterBasics.name (Character.basics c) ≠ "" →
  Str.truthy (Character.generate_lora_trigger c) = true.
Proof.
  intros Hname%truthy_true.
  destruct (Character.appearance c) as [a|] eqn:Ha.
  - rewrite (generate_lora_trigger_parts c a Ha). unfold Spec.lora_trigger.
    apply join_cons_truthy.
    etrans; [apply lower_underscored_truthy|exact Hname].
  - unfold Character.generate_lora_trigger. rewrite Ha.
    etrans; [apply lower_underscored_truthy|exact Hname].
Qed.

Lemma read_only_inv {A} (m : M A) (w w' : World) (r : result A) :
  read_only m → m w = (r, w') → w' = w.
Proof. intros Hm H. specialize (Hm w). by rewrite H in Hm. Qed.

Lemma character_file_ne_index (self : CharacterService.t) (dir : Path) :
  CharacterService._index_path self ≠ dir </> CharacterService.DESCRIPTION_FILE.
Proof.
  rewrite index_path_eq, joinpath_literal by reflexivity.
  change (CharacterService.project_path self
            ++ ["story_data"; "characters_index.json"])
    with (CharacterService.project_path self
            ++ ["story_data"] ++ ["characters_index.json"]).
  rewrite app_assoc. intros [_ [=]]%app_inj_tail.
Qed.

(** What [create_character] leaves on disk when it returns. *)
Lemma create_character_stored (self : CharacterService.t)
    (character : Character.t) (w w' : World) (dir : Path) :
  CharacterService.create_character self character w = (Ok dir, w') →
  let name := CharacterBasics.name (Character.basics character) in
  let stamped :=
    Character.set_updated_at (clock w)
      (Character.set_created_at (clock w) character) in
  let stored :=
    if negb (opt_truthy (Character.lora_trigger stamped))
    then Character.set_lora_trigger
           (Some (Character.generate_lora_trigger stamped)) stamped
    else stamped in
  dir = CharacterService._get_character_dir self name ∧
  Path.exists_in (files w) dir = false ∧
  Path.node_at (files w') (dir </> CharacterService.DESCRIPTION_FILE)
    = Some (File (CharacterJson stored)).
Proof.
  unfold CharacterService.create_character. intros H.
  minv H. apply (read_only_inv _ _ _ _ (read_only_validate_project self))
    in Hstep as ->.
  minv H. injection Hstep as <- <-.
  destruct (Path.exists_in _ _) eqn:Hex; [done|].
  minv H. apply mkdir_parents_inv in Hstep as (Hne & _ & fs & _ & ->).
  minv H. injection Hstep as <- <-.
  minv H. apply write_text_inv in Hstep as (Hf & ->).
  minv H. apply (read_only_inv _ _ _ _ (read_only_load_index self))
    in Hstep as ->.
  minv H. apply write_text_inv in Hstep as (Hi & ->).
  injection H as <- <-.
  split; [done|]. split; [done|]. simpl files.
  rewrite node_at_insert by done.
  rewrite decide_False by apply character_file_ne_index.
  rewrite node_at_insert by done. by rewrite decide_True.
Qed.

(** C10. After a successful [create_character] of a character with a
    non-empty name, the record file holds a non-empty [lora_trigger]. When
    the character came with a trigger it is kept; when it came without one
    and has no appearance, the trigger is the name lowercased with spaces
    replaced by underscores. *)
Theorem create_character_sets_lora_trigger (self : CharacterService.t)
    (character : Character.t) (w w' : World) (dir : Path)
    (Hname : CharacterBasics.name (Character.basics character) ≠ "")
    (Hcreate : CharacterService.create_character self character w
               = (Ok dir, w')) :
  ∃ stored trigger,
    fst (Path.read_text (dir </> CharacterService.DESCRIPTION_FILE) w')
      = Ok (CharacterJson stored) ∧
    Character.lora_trigger stored = Some trigger ∧
    trigger ≠ "" ∧
    (opt_truthy (Character.lora_trigger character) = true →
     Character.lora_trigger stored = Character.lora_trigger character) ∧
    (opt_truthy (Character.lora_trigger character) = false →
     Character.appearance character = None →
     trigger = Str.replace " " "_"
                 (Str.lower (CharacterBasics.name (Character.basics character)))).
Proof.
  apply create_character_stored in Hcreate as (_ & _ & Hfile).
  unfold Path.read_text. rewrite Hfile. simpl.
  destruct (opt_truthy (Character.lora_trigger character)) eqn:Hl; simpl.
  - destruct (Character.lora_trigger character) as [t|] eqn:Ht; [|done].
    eexists _, t. split; [reflexivity|]. simpl.
    split; [done|]. split; [by apply truthy_true|]. done.
  - eexists _, _. split; [reflexivity|]. simpl.
    split; [reflexivity|]. split; [|split; [done|]].
    + apply truthy_true, generate_lora_trigger_truthy. by simpl.
    + intros _ Ha. unfold Character.generate_lora_trigger. simpl.
      by rewrite Ha.
Qed.

Lemma create_character_sets_lora_trigger_witness :
  ∃ stored trigger,
    fst (Path.read_text (ExW.character_file "bob")
           (snd (CharacterService.create_character ExW.svc Ex.bob
                   ExW.w_fresh)))
      = Ok (CharacterJson stored) ∧
    Character.lora_trigger stored = Some trigger ∧
    trigger ≠ "" ∧
    trigger = "bob".
Proof.
  destruct (create_character_sets_lora_trigger ExW.svc Ex.bob ExW.w_fresh
              (snd (CharacterService.create_character ExW.svc Ex.bob
                      ExW.w_fresh))
              (ExW.character_dir "bob"))
    as (stored & trigger & Hread & Htrigger & Hne & _ & Hplain).
  - discriminate.
  - vm_compute. reflexivity.
  - exists stored, trigger. repeat split; try done.
    by apply Hplain.
Defined.

Lemma create_character_keeps_given_trigger :
  let created :=
    CharacterService.create_character ExW.svc Ex.tagged ExW.w_fresh in
  fst created = Ok (ExW.character_dir "bob") ∧
  Character.appearance Ex.tagged = None ∧
  ∃ stored,
    fst (Path.read_text (ExW.character_file "bob") (snd created))
      = Ok (CharacterJson stored) ∧
    Character.lora_trigger stored = Some "custom" ∧
    Character.lora_trigger stored
      ≠ Some (Str.replace " " "_"
                (Str.lower (CharacterBasics.name (Character.basics Ex.tagged)))).
Proof.
  split; [vm_compute; reflexivity|]. split; [reflexivity|].
  eexists. split; [vm_compute; reflexivity|]. split; [reflexivity|].
  vm_compute. discriminate.
Qed.

(** ** Reading the records of the index *)

Lemma read_only_run {A} (m : M A) (w : World) :
  read_only m → m w = (fst (m w), w).
Proof. intros Hm. rewrite <-(Hm w) at 3. by destruct (m w). Qed.

Lemma get_character_run (self : CharacterService.t) (w : World)
    (e : CharacterIndexEntry.t) :
  CharacterService.get_character self (CharacterIndexEntry.name e) w
    = (Store.record self w e, w).
Proof. apply read_only_run, read_only_get_character. Qed.

Lemma validate_project_run (self : CharacterService.t) (w : World) :
  fst (CharacterService._validate_project self w) = Ok tt →
  CharacterService._validate_project self w = (Ok tt, w).
Proof.
  intros H. rewrite (read_only_run _ w (read_only_validate_project self)).
  by rewrite H.
Qed.

Lemma load_index_run (self : CharacterService.t) (w : World)
    (index : CharacterIndex.t) :
  fst (CharacterService._load_index self w) = Ok index →
  CharacterService._load_index self w = (Ok index, w).
Proof.
  intros H. rewrite (read_only_run _ w (read_only_load_index self)).
  by rewrite H.
Qed.

Section Dependencies.
Context (self : CharacterService.t) (w : World) (name : string).

Let body (dependencies : list string) (entry : CharacterIndexEntry.t)
  : M (list string) :=
  if String.eqb (Str.lower (CharacterIndexEntry.name entry)) (Str.lower name)
  then ret dependencies
  else
    try_except
      (let! character :=
         CharacterService.get_character self (CharacterIndexEntry.name entry) in
       if existsb (CharacterService.targets name)
                  (Character.relationships character)
       then ret (dependencies ++ [CharacterIndexEntry.name entry])
       else ret dependencies)
      (λ e, match e with
            | CharacterNotFoundError _ => Some (ret dependencies)
            | _ => None
            end).

Lemma dependencies_body (acc : list string) (e : CharacterIndexEntry.t) :
  Store.same_name (CharacterIndexEntry.name e) name = true ∨
  Store.readable_or_absent self w e →
  body acc e w =
  (Ok (acc ++ if Store.references self w name e
              then [CharacterIndexEntry.name e] else []), w).
Proof.
  unfold body, Store.references, Store.same_name, Store.readable_or_absent.
  intros Hok.
  destruct (String.eqb (Str.lower (CharacterIndexEntry.name e))
                       (Str.lower name)) eqn:Hsame; simpl.
  { by rewrite app_nil_r. }
  destruct Hok as [|Hok]; [done|].
  unfold try_except, bind. rewrite get_character_run.
  destruct (Store.record self w e) as [c|ex]; simpl.
  - fold (CharacterService.targets name).
    destruct (existsb _ _); simpl; [done|by rewrite app_nil_r].
  - destruct ex; try done. by rewrite app_nil_r.
Qed.

Lemma dependencies_loop (l : list CharacterIndexEntry.t) (acc : list string) :
  Forall (λ e, Store.same_name (CharacterIndexEntry.name e) name = true ∨
               Store.readable_or_absent self w e) l →
  for_each l acc body w =
  (Ok (acc ++ List.map CharacterIndexEntry.name
                 (List.filter (Store.references self w name) l)), w).
Proof.
  revert acc. induction l as [|e l IH]; intros acc Hl; simpl.
  - by rewrite app_nil_r.
  - apply Forall_cons in Hl as [He Hl].
    rewrite (bind_Ok _ _ _ _ _ (dependencies_body acc e He)).
    rewrite (IH _ Hl).
    destruct (Store.references self w name e); simpl.
    + by rewrite <-app_assoc.
    + by rewrite app_nil_r.
Qed.

Lemma get_relationship_dependencies_run (index : CharacterIndex.t) :
  fst (CharacterService._validate_project self w) = Ok tt →
  fst (CharacterService._load_index self w) = Ok index →
  Forall (λ e, Store.same_name (CharacterIndexEntry.name e) name = true ∨
               Store.readable_or_absent self w e)
         (CharacterIndex.characters index) →
  CharacterService.get_relationship_dependencies self name w
    = (Ok (Store.referencing self w name index), w).
Proof.
  intros Hv Hi Hl. unfold CharacterService.get_relationship_dependencies.
  rewrite (bind_Ok _ _ _ _ _ (validate_project_run _ _ Hv)).
  rewrite (bind_Ok _ _ _ _ _ (load_index_run _ _ _ Hi)).
  apply (dependencies_loop _ [] Hl).
Qed.

End Dependencies.

(** ** Deleting without force *)

Lemma delete_resolves_dir (self : CharacterService.t) (w : World)
    (name : string) (index : CharacterIndex.t) :
  fst (CharacterService._load_index self w) = Ok index →
  Store.character_dir_exists self w name index →
  ∃ dir,
    (let char_dir := CharacterService._get_character_dir self name in
     if negb (Path.exists_in (files w) char_dir) then
       let! index := CharacterService._load_index self in
       let entry := CharacterIndex.get_entry name index in
       let char_dir :=
         match entry with
         | Some entry =>
             CharacterService.project_path self
               </> CharacterService.STORY_DATA_DIR
               </> CharacterIndexEntry.path entry
         | None => char_dir
         end in
       let! ex := Path.exists_ char_dir in
       if negb ex then raise (CharacterNotFoundError name)
       else ret char_dir
     else ret char_dir) w = (Ok dir, w) ∧
    Path.exists_in (files w) dir = true.
Proof.
  intros Hi Hex. cbv zeta.
  destruct (Path.exists_in (files w)
              (CharacterService._get_character_dir self name)) eqn:Hd; simpl.
  { eexists. by split. }
  destruct Hex as [Hex|(e & He & Hex)]; [congruence|].
  rewrite (bind_Ok _ _ _ _ _ (load_index_run _ _ _ Hi)). rewrite He.
  unfold bind, Path.exists_. rewrite Hex. simpl. eexists. by split.
Qed.

(** C2. In a project whose index loads and whose indexed records (other
    than the character's own) can each be read or are not found, deleting
    without [force] a character whose directory exists and that some other
    indexed character references raises [RelationshipDependencyError] with
    exactly the names of the referencing characters, in index order, and
    leaves the state (every file and directory) as it was. *)
Theorem delete_without_force_blocked (self : CharacterService.t) (w : World)
    (name : string) (index : CharacterIndex.t)
    (Hproject : fst (CharacterService._validate_project self w) = Ok tt)
    (Hindex : fst (CharacterService._load_index self w) = Ok index)
    (Hrecords :
       Forall (λ e, Store.same_name (CharacterIndexEntry.name e) name = true ∨
                    Store.readable_or_absent self w e)
              (CharacterIndex.characters index))
    (Hexists : Store.character_dir_exists self w name index)
    (Hreferenced : Store.referencing self w name index ≠ []) :
  CharacterService.delete_character self name false w
    = (Raise (RelationshipDependencyError name
                (Store.referencing self w name index)), w)
  ∧ ∀ d, d ∈ Store.referencing self w name index ↔
         ∃ e c, e ∈ CharacterIndex.characters index ∧
                CharacterIndexEntry.name e = d ∧
                Str.lower d ≠ Str.lower name ∧
                fst (CharacterService.get_character self d w) = Ok c ∧
                ∃ r, r ∈ Character.relationships c ∧
                     Str.lower (Relationship.target_character r)
                       = Str.lower name.
Proof.
  split.
  - unfold CharacterService.delete_character.
    rewrite (bind_Ok _ _ _ _ _ (validate_project_run _ _ Hproject)).
    destruct (delete_resolves_dir self w name index Hindex Hexists)
      as (dir & Hdir & _).
    cbv zeta in Hdir |- *.
    rewrite (bind_Ok (Path.exists_ _) _ w _ w eq_refl).
    rewrite (bind_Ok _ _ _ _ _ Hdir).
    rewrite (bind_Ok _ _ _ _ _
               (get_relationship_dependencies_run self w name index
                  Hproject Hindex Hrecords)).
    by destruct (Store.referencing self w name index).
  - intros d. unfold Store.referencing.
    rewrite list_elem_of_In, in_map_iff. split.
    + intros (e & <- & [Hin Href]%filter_In).
      unfold Store.references, Store.record, Store.same_name in Href.
      apply andb_true_iff in Href as [Hne Href].
      apply negb_true_iff, String.eqb_neq in Hne.
      destruct (CharacterService.get_character _ _ _).1 as [c|] eqn:Hc;
        [|done].
      apply existsb_exists in Href as (r & Hr & Ht%String.eqb_eq).
      exists e, c. rewrite list_elem_of_In. repeat split; try done.
      exists r. split; [by apply list_elem_of_In|done].
    + intros (e & c & Hin%list_elem_of_In & <- & Hne & Hc & r &
              Hr%list_elem_of_In & Ht).
      exists e. split; [done|]. apply filter_In. split; [done|].
      unfold Store.references, Store.record, Store.same_name.
      rewrite Hc. apply andb_true_iff. split.
      * by apply negb_true_iff, String.eqb_neq.
      * apply existsb_exists. exists r. split; [done|].
        by apply String.eqb_eq.
Qed.

Lemma delete_without_force_blocked_witness :
  CharacterService.delete_character ExW.svc "Alex Chen" false ExW.w_alex_bob
    = (Raise (RelationshipDependencyError "Alex Chen" ["Bob"]),
       ExW.w_alex_bob).
Proof.
  refine (proj1 (delete_without_force_blocked ExW.svc ExW.w_alex_bob
                   "Alex Chen" ExW.index_alex_bob _ _ _ _ _)).
  - vm_compute. reflexivity.
  - vm_compute. reflexivity.
  - apply Forall_cons. split; [left; vm_compute; reflexivity|].
    apply Forall_cons. split; [|apply Forall_nil_2].
    right. unfold Store.readable_or_absent. vm_compute. exact I.
  - left. vm_compute. reflexivity.
  - vm_compute. discriminate.
Defined.

(** Without the hypotheses of C2 on the other records: Alex Chen exists and
    Bob's record references Alex, but a third indexed record cannot be
    parsed; deleting Alex without [force] raises the parse error, not
    [RelationshipDependencyError]. The state is left as it was. *)
Lemma delete_without_force_unparsable_record_raises :
  fst (CharacterService.get_character ExW.svc "Alex Chen" ExD.w_carol_corrupt)
    = Ok (ExW.stored Ex.alex) ∧
  (∃ bob,
     fst (CharacterService.get_character ExW.svc "Bob" ExD.w_carol_corrupt)
       = Ok bob ∧
     existsb (CharacterService.targets "Alex Chen")
       (Character.relationships bob) = true) ∧
  CharacterService.delete_character ExW.svc "Alex Chen" false
    ExD.w_carol_corrupt
  = (Raise (ValidationError "Invalid JSON"), ExD.w_carol_corrupt).
Proof.
  split; [vm_compute; reflexivity|]. split.
  - eexists. split; vm_compute; reflexivity.
  - vm_compute. reflexivity.
Qed.

(** ** Listing the characters *)

Section Listing.
Context (self : CharacterService.t) (w : World).

Let body (result : list CharacterSummary) (entry : CharacterIndexEntry.t)
  : M (list CharacterSummary) :=
  if CharacterService.role_filtered_out None entry then ret result else
  let! completion :=
    try_except
      (let! character :=
         CharacterService.get_character self (CharacterIndexEntry.name entry) in
       ret (Character.get_completion_percentage character))
      (λ e, match e with
            | CharacterNotFoundError _ => Some (ret 0)
            | _ => None
            end) in
  ret (result ++
         [mkSummary (CharacterIndexEntry.name entry)
            (CharacterRole_value (CharacterIndexEntry.role entry))
            (CharacterIndexEntry.age entry)
            completion]).

Lemma listing_body (acc : list CharacterSummary) (e : CharacterIndexEntry.t) :
  Store.readable_or_absent self w e →
  body acc e w = (Ok (acc ++ [Store.summary self w e]), w).
Proof.
  unfold body, Store.summary, Store.readable_or_absent. intros Hok.
  change (CharacterService.role_filtered_out None e) with false.
  cbv iota. unfold try_except, bind. rewrite get_character_run.
  destruct (Store.record self w e) as [c|ex]; simpl; [done|].
  by destruct ex.
Qed.

Lemma listing_loop (l : list CharacterIndexEntry.t)
    (acc : list CharacterSummary) :
  Forall (Store.readable_or_absent self w) l →
  for_each l acc body w = (Ok (acc ++ List.map (Store.summary self w) l), w).
Proof.
  revert acc. induction l as [|e l IH]; intros acc Hl; simpl.
  - by rewrite app_nil_r.
  - apply Forall_cons in Hl as [He Hl].
    rewrite (bind_Ok _ _ _ _ _ (listing_body acc e He)).
    rewrite (IH _ Hl). by rewrite <-app_assoc.
Qed.

End Listing.

Lemma get_character_not_found (self : CharacterService.t) (w : World)
    (index : CharacterIndex.t) (e : CharacterIndexEntry.t) :
  fst (CharacterService._validate_project self w) = Ok tt →
  fst (CharacterService._load_index self w) = Ok index →
  (∀ e', CharacterIndex.get_entry (CharacterIndexEntry.name e) index
           = Some e' →
         Path.exists_in (files w)
           (CharacterService.project_path self
              </> CharacterService.STORY_DATA_DIR
              </> CharacterIndexEntry.path e'
              </> CharacterService.DESCRIPTION_FILE) = false) →
  Path.exists_in (files w)
    (CharacterService._get_character_file self (CharacterIndexEntry.name e))
    = false →
  Store.record self w e
    = Raise (CharacterNotFoundError (CharacterIndexEntry.name e)).
Proof.
  intros Hv Hi Hentry Hdirect.
  unfold Store.record, CharacterService.get_character.
  rewrite (bind_Ok _ _ _ _ _ (validate_project_run _ _ Hv)).
  rewrite (bind_Ok _ _ _ _ _ (load_index_run _ _ _ Hi)).
  cbv zeta.
  destruct (CharacterIndex.get_entry _ index) as [e'|] eqn:He.
  - unfold bind at 1. unfold bind at 1. unfold Path.exists_ at 1.
    rewrite (Hentry e' eq_refl). simpl.
    unfold bind, Path.exists_. by rewrite Hdirect.
  - unfold bind, ret, Path.exists_. by rewrite Hdirect.
Qed.

(** C4. In a project whose index loads and whose indexed records can each
    be read or are not found, [list_characters] without a role filter
    returns one summary per index entry, in index order, and does not change
    the state; an entry whose record is not found (no file where the index
    points, none under the sanitized name) is reported with completion 0. *)
Theorem list_characters_absent_record (self : CharacterService.t) (w : World)
    (index : CharacterIndex.t)
    (Hproject : fst (CharacterService._validate_project self w) = Ok tt)
    (Hindex : fst (CharacterService._load_index self w) = Ok index)
    (Hrecords : Forall (Store.readable_or_absent self w)
                       (CharacterIndex.characters index)) :
  CharacterService.list_characters self None w
    = (Ok (List.map (Store.summary self w) (CharacterIndex.characters index)),
       w)
  ∧ (∀ e, summary_name (Store.summary self w e) = CharacterIndexEntry.name e)
  ∧ ∀ e,
      (∀ e', CharacterIndex.get_entry (CharacterIndexEntry.name e) index
               = Some e' →
             Path.exists_in (files w)
               (CharacterService.project_path self
                  </> CharacterService.STORY_DATA_DIR
                  </> CharacterIndexEntry.path e'
                  </> CharacterService.DESCRIPTION_FILE) = false) →
      Path.exists_in (files w)
        (CharacterService._get_character_file self
           (CharacterIndexEntry.name e)) = false →
      summary_completion (Store.summary self w e) = 0.
Proof.
  split; [|split; [done|]].
  - unfold CharacterService.list_characters.
    rewrite (bind_Ok _ _ _ _ _ (validate_project_run _ _ Hproject)).
    rewrite (bind_Ok _ _ _ _ _ (load_index_run _ _ _ Hindex)).
    apply (listing_loop self w _ [] Hrecords).
  - intros e Hentry Hdirect. unfold Store.summary. simpl.
    by rewrite (get_character_not_found self w index e).
Qed.

Lemma list_characters_absent_record_witness :
  CharacterService.list_characters ExW.svc None ExW.w_bob_absent
    = (Ok [ mkSummary "Alex Chen" "protagonist" None 40;
            mkSummary "Bob" "supporting" None 0 ],
       ExW.w_bob_absent).
Proof.
  refine (eq_trans
            (proj1 (list_characters_absent_record ExW.svc ExW.w_bob_absent
                      ExW.index_alex_bob _ _ _)) _).
  - vm_compute. reflexivity.
  - vm_compute. reflexivity.
  - repeat (apply Forall_cons; split;
            [unfold Store.readable_or_absent; vm_compute; exact I|]).
    apply Forall_nil_2.
  - vm_compute. reflexivity.
Defined.

Lemma list_characters_unparsable_record_raises :
  fst (CharacterService._load_index ExW.svc ExW.w_bob_corrupt)
    = Ok ExW.index_bob ∧
  Store.unparsable ExW.svc ExW.w_bob_corrupt (ExW.entry "Bob" SUPPORTING "bob") ∧
  fst (CharacterService.list_characters ExW.svc None ExW.w_bob_corrupt)
    = Raise (ValidationError "Invalid JSON") ∧
  ¬ ∃ summaries,
      fst (CharacterService.list_characters ExW.svc None ExW.w_bob_corrupt)
        = Ok summaries.
Proof.
  split; [vm_compute; reflexivity|]. split.
  { eexists. split; vm_compute; reflexivity. }
  split; [vm_compute; reflexivity|].
  intros [summaries H]. vm_compute in H. discriminate.
Qed.

(** ** Rebuilding the index *)

Lemma add_entry_fresh (e : CharacterIndexEntry.t) (index : CharacterIndex.t) :
  Str.lower (CharacterIndexEntry.name e)
    ∉ List.map (λ e', Str.lower (CharacterIndexEntry.name e'))
               (CharacterIndex.characters index) →
  CharacterIndex.add_entry e index
    = CharacterIndex.mk (CharacterIndex.characters index ++ [e]).
Proof.
  unfold CharacterIndex.add_entry. intros Hfresh. f_equal. f_equal.
  induction (CharacterIndex.characters index) as [|e' l IH]; simpl; [done|].
  simpl in Hfresh. apply not_elem_of_cons in Hfresh as [Hne Hl].
  destruct (String.eqb _ _) eqn:Heq; simpl.
  - apply String.eqb_eq in Heq. congruence.
  - by rewrite IH.
Qed.

Lemma add_entries_fresh (es acc : list CharacterIndexEntry.t) :
  NoDup (List.map (λ e, Str.lower (CharacterIndexEntry.name e)) (acc ++ es)) →
  foldl (λ index e, CharacterIndex.add_entry e index)
        (CharacterIndex.mk acc) es
    = CharacterIndex.mk (acc ++ es).
Proof.
  revert acc. induction es as [|e es IH]; intros acc Hnd; simpl.
  - by rewrite app_nil_r.
  - rewrite add_entry_fresh.
    + simpl. rewrite IH; rewrite <-app_assoc; done.
    + simpl. rewrite map_app in Hnd. simpl in Hnd.
      apply NoDup_app in Hnd as (_ & Hdisj & _).
      intros Hin. apply (Hdisj _ Hin). left.
Qed.

Section RebuildLoop.
Context (self : CharacterService.t) (w : World).

Let body (index : CharacterIndex.t) (char_dir : Path) : M CharacterIndex.t :=
  let! d := Path.is_dir char_dir in
  if negb d then ret index else
  let desc_file := char_dir </> CharacterService.DESCRIPTION_FILE in
  let! ex := Path.exists_ desc_file in
  if negb ex then ret index else
  try_except
    (let! content := Path.read_text desc_file in
     let! character := lift (Json.Character_model_validate_json content) in
     let entry :=
       CharacterIndexEntry.mk
         (CharacterBasics.name (Character.basics character))
         (CharacterBasics.role (Character.basics character))
         (CharacterBasics.age (Character.basics character))
         (CharacterService.CHARACTERS_DIR +:+ "/" +:+ Path.name char_dir)
         (Character.updated_at character) in
     ret (CharacterIndex.add_entry entry index))
    (λ _, Some (ret index)).

Lemma rebuild_body (index : CharacterIndex.t) (dir : Path) :
  body index dir w =
  (Ok match Rebuild.valid_record (files w) dir with
      | Some c => CharacterIndex.add_entry (Rebuild.entry_of dir c) index
      | None => index
      end, w).
Proof.
  unfold body, Rebuild.valid_record, bind, try_except, ret, lift,
    Path.is_dir, Path.exists_, Path.read_text, Path.exists_in.
  cbv zeta.
  destruct (Path.is_dir_in (files w) dir); simpl; [|done].
  destruct (Path.node_at (files w) (dir </> CharacterService.DESCRIPTION_FILE))
    as [[|text]|] eqn:Hnode; simpl; rewrite ?Hnode; simpl; try done.
  by destruct (Json.Character_model_validate_json _).
Qed.

Lemma rebuild_loop (dirs : list Path) (index : CharacterIndex.t) :
  for_each dirs index body w =
  (Ok (foldl (λ index e, CharacterIndex.add_entry e index) index
         (omap (λ d, Rebuild.entry_of d <$> Rebuild.valid_record (files w) d)
               dirs)), w).
Proof.
  revert index. induction dirs as [|d dirs IH]; intros index; simpl; [done|].
  rewrite (bind_Ok _ _ _ _ _ (rebuild_body index d)). rewrite IH.
  by destruct (Rebuild.valid_record (files w) d).
Qed.

End RebuildLoop.

Lemma length_entries (self : CharacterService.t) (fs : gmap Path node) :
  length (Rebuild.entries self fs) = length (Rebuild.valid_dirs self fs).
Proof.
  unfold Rebuild.entries, Rebuild.valid_dirs.
  induction (Rebuild.subdirectories self fs) as [|d l IH]; simpl; [done|].
  destruct (Rebuild.valid_record fs d) as [c|]; simpl;
    [f_equal|]; exact IH.
Qed.

Lemma index_parent (self : CharacterService.t) :
  Path.parent (CharacterService._index_path self)
    = CharacterService.project_path self </> CharacterService.STORY_DATA_DIR.
Proof.
  unfold CharacterService._index_path.
  rewrite (joinpath_literal _ CharacterService.CHARACTERS_INDEX)
    by reflexivity.
  unfold Path.parent. by rewrite removelast_last.
Qed.

(** What [rebuild_index] writes, whatever the names in the record files:
    the entries of the valid files, upserted one after the other. *)
Lemma rebuild_index_run (self : CharacterService.t) (w : World) :
  fst (CharacterService._validate_project self w) = Ok tt →
  Path.is_dir_in (files w) (CharacterService._characters_dir self) = true →
  Path.is_dir_in (files w)
    (CharacterService.project_path self </> CharacterService.STORY_DATA_DIR)
    = true →
  Path.is_dir_in (files w) (CharacterService._index_path self) = false →
  let index :=
    foldl (λ index e, CharacterIndex.add_entry e index) CharacterIndex.empty
          (Rebuild.entries self (files w)) in
  CharacterService.rebuild_index self w
    = (Ok tt,
       set_files (<[CharacterService._index_path self
                      := File (IndexJson index)]> (files w)) w).
Proof.
  intros Hv Hchars Hdata Hidx. unfold CharacterService.rebuild_index.
  rewrite (bind_Ok _ _ _ _ _ (validate_project_run _ _ Hv)).
  cbv zeta. unfold bind at 1. unfold Path.exists_ at 1.
  assert (Hex : Path.exists_in (files w) (CharacterService._characters_dir self)
                = true).
  { revert Hchars. unfold Path.is_dir_in, Path.exists_in.
    by destruct (Path.node_at _ _) as [[]|]. }
  rewrite Hex. unfold bind at 1. unfold bind at 1. unfold Path.iterdir at 1.
  rewrite Hchars. rewrite rebuild_loop.
  unfold CharacterService._save_index, Path.write_text.
  simpl files. rewrite Hidx, index_parent, Hdata. done.
Qed.

(** C5. In a project whose characters directory and data directory are
    directories and whose index file can be written, when the valid
    (parseable) record files have names that differ case-insensitively,
    [rebuild_index] writes an index with exactly one entry per valid record
    file, in the order of the directory listing: as many entries as there
    are directories holding valid files, whatever the number of directories
    holding unparsable ones. *)
Theorem rebuild_index_counts_valid_records (self : CharacterService.t)
    (w : World)
    (Hproject : fst (CharacterService._validate_project self w) = Ok tt)
    (Hchars : Path.is_dir_in (files w) (CharacterService._characters_dir self)
              = true)
    (Hdata : Path.is_dir_in (files w)
               (CharacterService.project_path self
                  </> CharacterService.STORY_DATA_DIR) = true)
    (Hwritable : Path.is_dir_in (files w) (CharacterService._index_path self)
                 = false)
    (Hnames : Spec.unique_names
                (CharacterIndex.mk (Rebuild.entries self (files w)))) :
  ∃ w',
    CharacterService.rebuild_index self w = (Ok tt, w') ∧
    fst (CharacterService._load_index self w')
      = Ok (CharacterIndex.mk (Rebuild.entries self (files w))) ∧
    length (Rebuild.entries self (files w))
      = length (Rebuild.valid_dirs self (files w)).
Proof.
  eexists. split; [by apply rebuild_index_run|].
  split; [|apply length_entries].
  destruct (load_index_result self
    (set_files (<[CharacterService._index_path self :=
                   File (IndexJson
                     (foldl (λ index e, CharacterIndex.add_entry e index)
                        CharacterIndex.empty
                        (Rebuild.entries self (files w))))]> (files w)) w))
    as [_ ->].
  simpl files. rewrite node_at_insert by (by eapply parent_is_dir_nonempty).
  rewrite decide_True by done. simpl.
  f_equal. by apply (add_entries_fresh _ []).
Qed.

Lemma rebuild_index_counts_valid_records_witness :
  ∃ w',
    CharacterService.rebuild_index ExW.svc ExW.w_to_repair = (Ok tt, w') ∧
    fst (CharacterService._load_index ExW.svc w')
      = Ok (CharacterIndex.mk
              [ ExW.entry "Alex Chen" PROTAGONIST "alex_chen";
                ExW.entry "Bob" SUPPORTING "bob" ]) ∧
    length (Rebuild.valid_dirs ExW.svc (files ExW.w_to_repair)) = 2%nat ∧
    length (Rebuild.unparsable_dirs ExW.svc (files ExW.w_to_repair)) = 1%nat.
Proof.
  destruct (rebuild_index_counts_valid_records ExW.svc ExW.w_to_repair)
    as (w' & Hrun & Hload & Hlen).
  - vm_compute. reflexivity.
  - vm_compute. reflexivity.
  - vm_compute. reflexivity.
  - vm_compute. reflexivity.
  - unfold Spec.unique_names.
    eapply (bool_decide_unpack (NoDup _)). vm_compute. exact I.
  - exists w'. split; [exact Hrun|]. split; [|split].
    + rewrite Hload. vm_compute. reflexivity.
    + vm_compute. reflexivity.
    + vm_compute. reflexivity.
Defined.

Lemma rebuild_index_merges_equal_names :
  length (Rebuild.valid_dirs ExW.svc (files ExW.w_same_name)) = 2%nat ∧
  length (Rebuild.unparsable_dirs ExW.svc (files ExW.w_same_name)) = 1%nat ∧
  fst (CharacterService.rebuild_index ExW.svc ExW.w_same_name) = Ok tt ∧
  ∃ index,
    fst (CharacterService._load_index ExW.svc
           (snd (CharacterService.rebuild_index ExW.svc ExW.w_same_name)))
      = Ok index ∧
    length (CharacterIndex.characters index) = 1%nat ∧
    length (CharacterIndex.characters index)
      ≠ length (Rebuild.valid_dirs ExW.svc (files ExW.w_same_name)).
Proof.
  split; [vm_compute; reflexivity|]. split; [vm_compute; reflexivity|].
  split; [vm_compute; reflexivity|].
  eexists. split; [vm_compute; reflexivity|].
  split; [reflexivity|]. vm_compute. discriminate.
Qed.

(** ** Looking characters up *)

Lemma get_entry_member (index : CharacterIndex.t) (e : CharacterIndexEntry.t) :
  Spec.unique_names index → e ∈ CharacterIndex.characters index →
  CharacterIndex.get_entry (CharacterIndexEntry.name e) index = Some e.
Proof.
  unfold Spec.unique_names, CharacterIndex.get_entry.
  induction (CharacterIndex.characters index) as [|x l IH]; simpl.
  - by intros _ ?%elem_of_nil.
  - intros [Hx Hl]%NoDup_cons Hin.
    destruct (String.eqb _ _) eqn:Heq.
    + apply String.eqb_eq in Heq.
      apply elem_of_cons in Hin as [->|Hin]; [done|].
      exfalso. apply Hx. rewrite Heq.
      apply list_elem_of_In, in_map_iff. exists e.
      by rewrite <-list_elem_of_In.
    + apply elem_of_cons in Hin as [->|Hin].
      * apply String.eqb_neq in Heq. done.
      * by apply IH.
Qed.

Lemma get_entry_removed (name : string) (index : CharacterIndex.t) :
  CharacterIndex.get_entry name
    (fst (CharacterIndex.remove_entry name index)) = None.
Proof.
  unfold CharacterIndex.get_entry. simpl.
  induction (CharacterIndex.characters index) as [|e l IH]; simpl; [done|].
  destruct (String.eqb (Str.lower (CharacterIndexEntry.name e))
                       (Str.lower name)) eqn:Heq; simpl; [done|].
  by rewrite Heq.
Qed.

Lemma exists_of_node (fs : gmap Path node) (p : Path) (n : node) :
  Path.node_at fs p = Some n → Path.exists_in fs p = true.
Proof. unfold Path.exists_in. by intros ->. Qed.

Lemma is_dir_of_node (fs : gmap Path node) (p : Path) :
  Path.node_at fs p = Some Dir → Path.is_dir_in fs p = true.
Proof. unfold Path.is_dir_in. by intros ->. Qed.

Lemma not_dir_of_file (fs : gmap Path node) (p : Path) (c : content) :
  Path.node_at fs p = Some (File c) → Path.is_dir_in fs p = false.
Proof. unfold Path.is_dir_in. by intros ->. Qed.

Lemma parent_joinpath (p : Path) (s : string) :
  Str.startswith "/" s = false → Path.components s = [s] →
  Path.parent (p </> s) = p.
Proof.
  intros. rewrite joinpath_literal by done. unfold Path.parent.
  by rewrite removelast_last.
Qed.

Lemma get_character_stored (self : CharacterService.t) (w : World)
    (index : CharacterIndex.t) (name : string) (e : CharacterIndexEntry.t)
    (c : Character.t) :
  fst (CharacterService._validate_project self w) = Ok tt →
  fst (CharacterService._load_index self w) = Ok index →
  CharacterIndex.get_entry name index = Some e →
  Path.node_at (files w)
    (CharacterService.project_path self </> CharacterService.STORY_DATA_DIR
       </> CharacterIndexEntry.path e </> CharacterService.DESCRIPTION_FILE)
    = Some (File (CharacterJson c)) →
  Character.model_validate c = Ok c →
  CharacterService.get_character self name w = (Ok c, w).
Proof.
  intros Hv Hi He Hfile Hvalid. unfold CharacterService.get_character.
  rewrite (bind_Ok _ _ _ _ _ (validate_project_run _ _ Hv)).
  rewrite (bind_Ok _ _ _ _ _ (load_index_run _ _ _ Hi)).
  cbv zeta. rewrite He.
  unfold bind, Path.exists_, Path.read_text, lift, ret.
  rewrite (exists_of_node _ _ _ Hfile), Hfile. simpl. by rewrite Hvalid.
Qed.

(** ** Validated records *)


Lemma update_lora_trigger_basics (c : Character.t) :
  Character.basics (Character.update_lora_trigger c) = Character.basics c.
Proof.
  unfold Character.update_lora_trigger.
  by repeat case_match.
Qed.

(** A record is a fixed point of validation exactly when its parts are. *)
Lemma model_validate_fixed (c : Character.t) :
  Character.model_validate c = Ok c ↔
  CharacterBasics.model_validate (Character.basics c)
    = Ok (Character.basics c) ∧
  is_ok (ropt CharacterAppearance.model_validate (Character.appearance c))
    = true ∧
  is_ok (ropt CharacterPersonality.model_validate (Character.personality c))
    = true ∧
  is_ok (ropt CharacterBackstory.model_validate (Character.backstory c))
    = true ∧
  is_ok (rmap Relationship.model_validate (Character.relationships c))
    = true ∧
  Character.update_lora_trigger c = c.
Proof.
  unfold Character.model_validate. split.
  - intros H.
    apply rbind_inv in H as (b & Hb & H).
    apply rbind_inv in H as (a & Ha & H).
    apply rbind_inv in H as (p & Hp & H).
    apply rbind_inv in H as (s & Hs & H).
    apply rbind_inv in H as (rs & Hrs & H).
    injection H as H.
    assert (b = Character.basics c) as ->.
    { by rewrite <-H, update_lora_trigger_basics. }
    rewrite Hb, Ha, Hp, Hs, Hrs. repeat split; try done.
    by destruct c.
  - intros (Hb & Ha & Hp & Hs & Hrs & Hl).
    rewrite Hb. simpl.
    destruct (ropt CharacterAppearance.model_validate _); [|done].
    destruct (ropt CharacterPersonality.model_validate _); [|done].
    destruct (ropt CharacterBackstory.model_validate _); [|done].
    destruct (rmap Relationship.model_validate _); [|done].
    simpl. f_equal. etrans; [|exact Hl]. by destruct c.
Qed.

Lemma basics_name_nonempty (b : CharacterBasics.t) :
  CharacterBasics.model_validate b = Ok b → CharacterBasics.name b ≠ "".
Proof.
  unfold CharacterBasics.model_validate. intros H.
  apply rbind_inv in H as ([] & Hlen%require_inv & _).
  unfold Str.len_between in Hlen. by destruct (CharacterBasics.name b).
Qed.


(** ** Writing next to what is stored *)

Lemma node_at_distinct (fs : gmap Path node) (p q : Path) (x y : node) :
  Path.node_at fs p = Some x → Path.node_at fs q = Some y → x ≠ y → p ≠ q.
Proof. intros Hp Hq Hne ->. congruence. Qed.

Lemma node_at_insert_ne (fs : gmap Path node) (p q : Path) (n : node) :
  p ≠ [] → p ≠ q → Path.node_at (<[p := n]> fs) q = Path.node_at fs q.
Proof. intros Hp Hne. rewrite node_at_insert by done. by rewrite decide_False. Qed.

Lemma node_at_insert_eq (fs : gmap Path node) (p : Path) (n : node) :
  p ≠ [] → Path.node_at (<[p := n]> fs) p = Some n.
Proof. intros Hp. rewrite node_at_insert by done. by rewrite decide_True. Qed.

Lemma file_nonempty (fs : gmap Path node) (p : Path) (c : content) :
  Path.node_at fs p = Some (File c) → p ≠ [].
Proof. by destruct p. Qed.

(** Overwriting a file leaves the directories in place. *)
Lemma dir_after_write (fs : gmap Path node) (p q : Path) (c c' : content) :
  Path.node_at fs p = Some (File c) → Path.node_at fs q = Some Dir →
  Path.node_at (<[p := File c']> fs) q = Some Dir.
Proof.
  intros Hp Hq. rewrite node_at_insert_ne; [done| |].
  - by eapply file_nonempty.
  - by eapply node_at_distinct.
Qed.

Lemma is_dir_after_write (fs : gmap Path node) (p q : Path) (c c' : content) :
  Path.node_at fs p = Some (File c) → Path.is_dir_in fs q = true →
  Path.is_dir_in (<[p := File c']> fs) q = true.
Proof.
  intros Hp Hq. apply is_dir_of_node. eapply dir_after_write; [done|].
  revert Hq. unfold Path.is_dir_in. by destruct (Path.node_at fs q) as [[]|].
Qed.

Lemma exists_after_insert (fs : gmap Path node) (p q : Path) (n : node) :
  p ≠ [] → Path.exists_in fs q = true →
  Path.exists_in (<[p := n]> fs) q = true.
Proof.
  intros Hp. unfold Path.exists_in. rewrite node_at_insert by done.
  by case_decide.
Qed.

Lemma validate_project_iff (self : CharacterService.t) (w : World) :
  fst (CharacterService._validate_project self w) = Ok tt ↔
  Path.exists_in (files w) (CharacterService.project_path self) = true ∧
  Path.exists_in (files w) (CharacterService._characters_dir self) = true.
Proof.
  unfold CharacterService._validate_project, bind, Path.exists_, raise, ret.
  destruct (Path.exists_in _ (CharacterService.project_path self)); simpl;
    [|by split; [|intros [? ?]]].
  destruct (Path.exists_in _ (CharacterService._characters_dir self)); simpl;
    by split; [|intros [? ?]].
Qed.

Lemma load_index_of_node (self : CharacterService.t) (w : World)
    (index : CharacterIndex.t) :
  Path.node_at (files w) (CharacterService._index_path self)
    = Some (File (IndexJson index)) →
  fst (CharacterService._load_index self w) = Ok index.
Proof.
  intros H. destruct (load_index_result self w) as [_ ->]. by rewrite H.
Qed.

(** ** Updating a stored character *)

Lemma update_character_run (self : CharacterService.t)
    (character : Character.t) (w : World) (index : CharacterIndex.t)
    (old : content) :
  let name := CharacterBasics.name (Character.basics character) in
  let file := CharacterService._get_character_file self name in
  fst (CharacterService._validate_project self w) = Ok tt →
  Path.node_at (files w) file = Some (File old) →
  Path.node_at (files w) (CharacterService._get_character_dir self name)
    = Some Dir →
  Path.node_at (files w) (CharacterService._index_path self)
    = Some (File (IndexJson index)) →
  Path.is_dir_in (files w)
    (CharacterService.project_path self </> CharacterService.STORY_DATA_DIR)
    = true →
  let stamped := Character.set_updated_at (clock w) character in
  let written :=
    match Character.appearance stamped with
    | Some _ =>
        Character.set_lora_trigger
          (Some (Character.generate_lora_trigger stamped)) stamped
    | None => stamped
    end in
  let entry :=
    CharacterIndexEntry.mk name
      (CharacterBasics.role (Character.basics written))
      (CharacterBasics.age (Character.basics written))
      (CharacterService.CHARACTERS_DIR +:+ "/"
         +:+ Path.name (CharacterService._get_character_dir self name))
      (Character.updated_at written) in
  CharacterService.update_character self character w
    = (Ok tt,
       mkWorld
         (<[CharacterService._index_path self
              := File (IndexJson (CharacterIndex.add_entry entry index))]>
            (<[file := File (CharacterJson written)]> (files w)))
         (clock w + 1) (cwd w)).
Proof.
  intros name file Hv Hfile Hdir Hindex Hdata stamped written entry.
  unfold CharacterService.update_character.
  rewrite (bind_Ok _ _ _ _ _ (validate_project_run _ _ Hv)).
  cbv zeta. fold name. fold file.
  rewrite (bind_Ok (Path.exists_ file) _ w _ w eq_refl).
  rewrite (exists_of_node _ _ _ Hfile). cbn [negb].
  rewrite (bind_Ok (ret file) _ w _ w eq_refl).
  rewrite (bind_Ok now _ w _ _ eq_refl).
  fold stamped. fold written.
  set (w1 := mkWorld (files w) (clock w + 1) (cwd w)).
  assert (Hwrite : Path.write_text file (CharacterJson written) w1
                   = (Ok tt, set_files (<[file := File (CharacterJson written)]>
                                          (files w)) w1)).
  { unfold Path.write_text. simpl files.
    rewrite (not_dir_of_file _ _ _ Hfile).
    unfold file, CharacterService._get_character_file.
    rewrite parent_joinpath by reflexivity. fold name.
    by rewrite (is_dir_of_node _ _ Hdir). }
  rewrite (bind_Ok _ _ _ _ _ Hwrite).
  set (w2 := set_files _ w1).
  assert (Hfne : file ≠ []) by (by eapply file_nonempty).
  assert (Hindex2 : Path.node_at (files w2) (CharacterService._index_path self)
                    = Some (File (IndexJson index))).
  { simpl. rewrite node_at_insert_ne; [done|done|].
    apply not_eq_sym, character_file_ne_index. }
  rewrite (bind_Ok _ _ _ _ _
             (load_index_run _ _ _ (load_index_of_node _ _ _ Hindex2))).
  unfold CharacterService._save_index, Path.write_text.
  rewrite (not_dir_of_file _ _ _ Hindex2), index_parent.
  assert (Hdata2 : Path.is_dir_in (files w2)
            (CharacterService.project_path self
               </> CharacterService.STORY_DATA_DIR) = true).
  { simpl. by eapply is_dir_after_write. }
  rewrite Hdata2. done.
Qed.

Lemma components_characters (s : string) :
  Cleanup.clean s →
  Path.components (CharacterService.CHARACTERS_DIR +:+ "/" +:+ s)
    = ["characters"; s]
  ∧ Str.startswith "/" (CharacterService.CHARACTERS_DIR +:+ "/" +:+ s) = false.
Proof.
  intros [Hs Hc]. split; [|done].
  unfold Path.components in *.
  change (Str.split "/" (CharacterService.CHARACTERS_DIR +:+ "/" +:+ s))
    with ("characters" :: Str.split "/" s).
  change (List.filter ?f ("characters" :: ?l))
    with ("characters" :: List.filter f l).
  by rewrite Hc.
Qed.

(** For a clean directory name, the path that the services put in the index
    entry leads back to the character directory. *)
Lemma entry_path_resolves (self : CharacterService.t) (name : string) :
  Cleanup.clean (sanitize_for_filesystem name) →
  CharacterService.project_path self </> CharacterService.STORY_DATA_DIR
    </> (CharacterService.CHARACTERS_DIR +:+ "/"
           +:+ Path.name (CharacterService._get_character_dir self name))
  = CharacterService._get_character_dir self name.
Proof.
  intros Hclean. pose proof Hclean as [Hs Hc].
  unfold CharacterService._get_character_dir, CharacterService._characters_dir.
  rewrite (joinpath_literal _ (sanitize_for_filesystem name)) by done.
  unfold Path.name. rewrite last_last.
  destruct (components_characters _ Hclean) as [Hcomp Hstart].
  unfold Path.joinpath at 1. rewrite Hstart, Hcomp.
  rewrite !joinpath_literal by reflexivity. by rewrite <-!app_assoc.
Qed.

(** ** Validated names make one path component *)

Lemma all_chars_impl (P Q : ascii → bool) (s : string) :
  (∀ c, P c = true → Q c = true) →
  Str.all_chars P s = true → Str.all_chars Q s = true.
Proof.
  intros HPQ. induction s as [|c s IH]; simpl; [done|].
  intros [Hc Hs]%andb_true_iff. by rewrite (HPQ c Hc), IH.
Qed.

Lemma all_chars_removed (P : ascii → bool) (x : ascii) (s : string) :
  Str.all_chars P (Str.replace x "" s) = true →
  Str.all_chars (λ c, P c || Ascii.eqb c x) s = true.
Proof.
  induction s as [|c s IH]; simpl; [done|].
  destruct (Ascii.eqb c x) eqn:Hc; simpl.
  - rewrite app_empty_l, orb_true_r. apply IH.
  - intros [-> Hs]%andb_true_iff. by rewrite IH.
Qed.

Lemma any_char_removed (P : ascii → bool) (x : ascii) (s : string) :
  Str.any_char P (Str.replace x "" s) = true → Str.any_char P s = true.
Proof.
  induction s as [|c s IH]; simpl; [done|].
  destruct (Ascii.eqb c x); simpl.
  - rewrite app_empty_l. intros ->%IH. apply orb_true_r.
  - intros [->|Hs%IH]%orb_true_iff; [done|]. rewrite Hs. apply orb_true_r.
Qed.

Lemma isalnum_any_char (s : string) :
  Str.isalnum s = true → Str.any_char Str.is_alnum s = true.
Proof.
  unfold Str.isalnum. destruct s as [|c s]; simpl; [done|].
  by intros [-> _]%andb_true_iff.
Qed.

Lemma valid_name_chars (name : string) :
  CharacterBasics.validate_character_name name = Ok name →
  Str.all_chars Str.name_char name = true ∧ Str.any_char Str.is_alnum name = true.
Proof.
  unfold CharacterBasics.validate_character_name.
  destruct (Str.truthy (Str.strip name)); simpl; [|done].
  destruct (Str.isalnum _) eqn:Hal; simpl; [|done]. intros [= Hs].
  rewrite Hs in Hal. split.
  - unfold Str.isalnum in Hal. apply andb_true_iff in Hal as [_ Hal].
    by do 4 apply all_chars_removed in Hal.
  - apply isalnum_any_char in Hal. by do 4 apply any_char_removed in Hal.
Qed.

Lemma sanitize_cons (c : ascii) (s : string) :
  sanitize_for_filesystem (String c s) =
  if Ascii.eqb c " " then String "_" (sanitize_for_filesystem s)
  else if Ascii.eqb c "'" then sanitize_for_filesystem s
  else String (Str.lower_char c) (sanitize_for_filesystem s).
Proof.
  unfold sanitize_for_filesystem. simpl.
  rewrite lower_char_blank.
  destruct (Ascii.eqb c " ") eqn:Hb; [done|]. simpl.
  rewrite lower_char_apostrophe. by destruct (Ascii.eqb c "'").
Qed.

Lemma dir_char_lower (c : ascii) :
  Str.name_char c = true → Ascii.eqb c " " = false → Ascii.eqb c "'" = false →
  Str.dir_char (Str.lower_char c) = true.
Proof. each_char c; by vm_compute. Qed.

Lemma is_alnum_lower (c : ascii) :
  Str.is_alnum c = true →
  Ascii.eqb c " " = false ∧ Ascii.eqb c "'" = false ∧
  Str.is_alnum (Str.lower_char c) = true.
Proof. each_char c; by vm_compute. Qed.

Lemma sanitize_chars (name : string) :
  Str.all_chars Str.name_char name = true →
  Str.all_chars Str.dir_char (sanitize_for_filesystem name) = true.
Proof.
  induction name as [|c s IH]; [done|]. simpl.
  intros [Hc Hs]%andb_true_iff. rewrite sanitize_cons.
  destruct (Ascii.eqb c " ") eqn:Hb; [simpl; by apply IH|].
  destruct (Ascii.eqb c "'") eqn:Ha; [by apply IH|].
  simpl. by rewrite dir_char_lower, IH.
Qed.

Lemma sanitize_some_alnum (name : string) :
  Str.any_char Str.is_alnum name = true →
  Str.any_char Str.is_alnum (sanitize_for_filesystem name) = true.
Proof.
  induction name as [|c s IH]; [done|]. simpl. rewrite sanitize_cons.
  intros [Hc|Hs]%orb_true_iff.
  - destruct (is_alnum_lower c Hc) as (-> & -> & Hl). simpl. by rewrite Hl.
  - destruct (Ascii.eqb c " "); [simpl; by apply IH|].
    destruct (Ascii.eqb c "'"); [by apply IH|].
    simpl. rewrite (IH Hs). apply orb_true_r.
Qed.

Lemma dir_char_no_slash (c : ascii) :
  Str.dir_char c = true → Ascii.eqb c "/" = false.
Proof. each_char c; by vm_compute. Qed.

Lemma split_no_separator (s : string) :
  Str.all_chars Str.dir_char s = true → Str.split "/" s = [s].
Proof.
  induction s as [|c s IH]; simpl; [done|].
  intros [Hc Hs]%andb_true_iff.
  by rewrite (dir_char_no_slash c Hc), (IH Hs).
Qed.

Lemma dir_name_clean (s : string) :
  Str.all_chars Str.dir_char s = true → Str.any_char Str.is_alnum s = true →
  Cleanup.clean s.
Proof.
  intros Hall Hsome. split.
  - destruct s as [|c s]; [done|]. cbn [Str.all_chars Str.startswith] in *.
    apply andb_true_iff in Hall as [Hc _].
    apply dir_char_no_slash in Hc. rewrite Ascii.eqb_sym. by rewrite Hc.
  - unfold Path.components. rewrite (split_no_separator s Hall). simpl.
    destruct (String.eqb s "") eqn:He.
    { apply String.eqb_eq in He. by subst. }
    destruct (String.eqb s ".") eqn:Hd; [|done].
    apply String.eqb_eq in Hd. by subst.
Qed.

(** A name accepted by the name validator sanitizes to one clean path
    component. *)
Lemma valid_name_clean (name : string) :
  CharacterBasics.validate_character_name name = Ok name →
  Cleanup.clean (sanitize_for_filesystem name).
Proof.
  intros [Hall Hsome]%valid_name_chars.
  apply dir_name_clean; [by apply sanitize_chars|by apply sanitize_some_alnum].
Qed.

Lemma validated_record_name (c : Character.t) :
  Character.model_validate c = Ok c →
  CharacterBasics.validate_character_name
    (CharacterBasics.name (Character.basics c))
  = Ok (CharacterBasics.name (Character.basics c)).
Proof.
  intros (Hb & _)%model_validate_fixed. revert Hb.
  unfold CharacterBasics.model_validate. intros H.
  apply rbind_inv in H as ([] & _ & H).
  apply rbind_inv in H as (n & Hn & H).
  apply rbind_inv in H as ([] & _ & H).
  apply rbind_inv in H as ([] & _ & H).
  injection H as H. rewrite Hn. f_equal.
  by apply (f_equal CharacterBasics.name) in H.
Qed.


(** ** The loop over the dependents *)


Lemma same_name_false (a b : string) :
  Store.same_name a b = false ↔ Str.lower a ≠ Str.lower b.
Proof. unfold Store.same_name. apply String.eqb_neq. Qed.


Section CleanupLoop.
Context (self : CharacterService.t) (name : string)
        (index0 : CharacterIndex.t) (w0 : World).
Context (Hunique0 : Spec.unique_names index0).

Let body (_ : unit) (dep_name : string) : M unit :=
  try_except
    (let! dep_char := CharacterService.get_character self dep_name in
     let dep_char :=
       Character.set_relationships
         (List.filter (λ r, negb (CharacterService.targets name r))
                      (Character.relationships dep_char))
         dep_char in
     CharacterService.update_character self dep_char)
    (λ e, match e with
          | CharacterNotFoundError _ => Some (ret tt)
          | _ => None
          end).



End CleanupLoop.

(** ** Removing a directory tree *)

Lemma node_at_rmtree_outside (fs : gmap Path node) (d q : Path) :
  ¬ d `prefix_of` q →
  Path.node_at (filter (λ kv, ¬ d `prefix_of` kv.1) fs) q = Path.node_at fs q.
Proof.
  intros Hq. destruct q as [|x q]; [done|]. simpl.
  destruct (fs !! (x :: q)) as [n|] eqn:Hn.
  - by apply map_lookup_filter_Some.
  - apply map_lookup_filter_None. by left.
Qed.

Lemma node_at_rmtree_inside (fs : gmap Path node) (d q : Path) :
  d ≠ [] → d `prefix_of` q →
  Path.node_at (filter (λ kv, ¬ d `prefix_of` kv.1) fs) q = None.
Proof.
  intros Hd Hq. destruct q as [|x q].
  - destruct Hq as [k Hk]. by destruct d.
  - simpl. apply map_lookup_filter_None. right. intros n _ Hn. by apply Hn.
Qed.

Lemma character_dir_clean (self : CharacterService.t) (name : string) :
  Cleanup.clean (sanitize_for_filesystem name) →
  CharacterService._get_character_dir self name
    = CharacterService.project_path self
        ++ ["story_data"; "characters"; sanitize_for_filesystem name].
Proof.
  intros [Hs Hc]. unfold CharacterService._get_character_dir.
  rewrite joinpath_literal by done. rewrite characters_dir_eq.
  by rewrite <-app_assoc.
Qed.


Lemma prefix_app_inv (p l k : Path) : p ++ l `prefix_of` p ++ k → l `prefix_of` k.
Proof.
  intros [t Ht]. rewrite <-app_assoc in Ht. apply app_inv_head in Ht.
  by exists t.
Qed.

Section Outside.
Context (self : CharacterService.t) (name : string).
Context (Hclean : Cleanup.clean (sanitize_for_filesystem name)).

Let dir := CharacterService._get_character_dir self name.

Lemma dir_nonempty : dir ≠ [].
Proof.
  unfold dir. rewrite character_dir_clean by done.
  by destruct (CharacterService.project_path self).
Qed.

Lemma project_outside : ¬ dir `prefix_of` CharacterService.project_path self.
Proof.
  unfold dir. rewrite character_dir_clean by done.
  rewrite <-(app_nil_r (CharacterService.project_path self)) at 2.
  intros [t [=]]%prefix_app_inv.
Qed.

Lemma data_outside :
  ¬ dir `prefix_of`
      CharacterService.project_path self </> CharacterService.STORY_DATA_DIR.
Proof.
  unfold dir. rewrite character_dir_clean by done.
  rewrite joinpath_literal by reflexivity.
  intros [t [=]]%prefix_app_inv.
Qed.

Lemma characters_outside :
  ¬ dir `prefix_of` CharacterService._characters_dir self.
Proof.
  unfold dir. rewrite character_dir_clean, characters_dir_eq by done.
  intros [t [=]]%prefix_app_inv.
Qed.

Lemma index_outside : ¬ dir `prefix_of` CharacterService._index_path self.
Proof.
  unfold dir. rewrite character_dir_clean, index_path_eq by done.
  intros [t [=]]%prefix_app_inv.
Qed.


End Outside.

(** ** Deleting with force *)

Lemma consistent_record (self : CharacterService.t) (w : World) (name : string)
    (index : CharacterIndex.t) (e : CharacterIndexEntry.t) (c : Character.t) :
  Cleanup.consistent self w name index →
  e ∈ CharacterIndex.characters index →
  Cleanup.stored_at self w e c →
  Store.record self w e = Ok c.
Proof.
  intros [Hv Hdata Hindex Hunique Hrecords Hcname Hdir Hsep] Hin
         [Hpath Hedir Hefile Hvalid Hname].
  unfold Store.record.
  rewrite (get_character_stored self w index _ e c); try done.
  - by apply load_index_of_node.
  - by apply get_entry_member.
  - by rewrite Hpath.
Qed.


Lemma consistent_readable (self : CharacterService.t) (w : World)
    (name : string) (index : CharacterIndex.t) :
  Cleanup.consistent self w name index →
  Forall (λ e, Store.same_name (CharacterIndexEntry.name e) name = true ∨
               Store.readable_or_absent self w e)
         (CharacterIndex.characters index).
Proof.
  intros Hc. apply Forall_forall. intros e Hin.
  destruct (Store.same_name (CharacterIndexEntry.name e) name) eqn:Hne;
    [by left|right].
  destruct (Cleanup.c_records _ _ _ _ Hc e Hin Hne) as [c Hst].
  unfold Store.readable_or_absent.
  by rewrite (consistent_record self w name index e c).
Qed.








(** ** When creating a project succeeds *)

Lemma make_dirs_succeeds (qs : list Path) (fs : gmap Path node) :
  (∀ q c, q ∈ qs → Path.node_at fs q ≠ Some (File c)) →
  ∃ fs', Path.make_dirs qs fs = Some fs' ∧
         ∀ p, p ∉ qs → Path.node_at fs' p = Path.node_at fs p.
Proof.
  revert fs. induction qs as [|q qs IH]; intros fs Hqs; simpl.
  - by exists fs.
  - destruct (Path.node_at fs q) as [[|c]|] eqn:Hq.
    + destruct (IH fs) as (fs' & Hmk & Hsame).
      { intros q' c Hin. apply Hqs. by right. }
      exists fs'. split; [done|]. intros p Hp. apply Hsame.
      by apply not_elem_of_cons in Hp as [_ ?].
    + exfalso. eapply Hqs; [by left|done].
    + assert (Hne : q ≠ []) by (by destruct q).
      destruct (IH (<[q := Dir]> fs)) as (fs' & Hmk & Hsame).
      { intros q' c Hin. rewrite node_at_insert by done.
        case_decide; [done|]. apply Hqs. by right. }
      exists fs'. split; [done|]. intros p Hp.
      apply not_elem_of_cons in Hp as [Hpq Hp].
      rewrite (Hsame p Hp). by apply node_at_insert_ne.
Qed.

Lemma ancestors_shorter (p q : Path) :
  q ∈ Path.ancestors p → (length q < length p)%nat.
Proof.
  unfold Path.ancestors. intros (n & <- & Hn%in_seq)%list_elem_of_In%in_map_iff.
  rewrite length_take. lia.
Qed.

Lemma below_not_ancestor (p l : Path) : p ++ l ∉ Path.ancestors p.
Proof.
  intros Hin%ancestors_shorter. rewrite length_app in Hin. lia.
Qed.

(** X3. A triple that passes validation, a target directory with nothing
    at or below it, and no file among its ancestors: [create_project]
    returns the target path, the sanitized name under the parent
    directory. *)
Lemma create_project_succeeds (name genre synopsis : string)
    (parent_dir : option Path) (w : World) (project : Project.t) :
  let parent := default (cwd w) parent_dir in
  let path := parent </> sanitize_for_filesystem name in
  Project.model_validate name genre synopsis (clock w) = Ok project →
  (∀ q, path `prefix_of` q → Path.node_at (files w) q = None) →
  (∀ q c, q ∈ Path.ancestors path →
          Path.node_at (files w) q ≠ Some (File c)) →
  ∃ w', ProjectService.create_project name genre synopsis parent_dir w
        = (Ok path, w').
Proof.
  intros parent path Hvalid Hfree Hanc.
  unfold ProjectService.create_project.
  assert (Hparent :
    (match parent_dir with Some p => ret p | None => Path.cwd end) w
    = (Ok parent, w)) by (by destruct parent_dir).
  rewrite (bind_Ok _ _ _ _ _ Hparent). cbv zeta. fold path.
  assert (Hp : Path.node_at (files w) path = None)
    by (by apply Hfree).
  assert (Hne : path ≠ []) by (by destruct path).
  rewrite (bind_Ok (Path.exists_ path) _ w _ w eq_refl).
  unfold Path.exists_in at 1. rewrite Hp.
  rewrite (bind_Ok now _ w _ _ eq_refl).
  set (w1 := mkWorld (files w) (clock w + 1) (cwd w)).
  rewrite (bind_Ok (lift _) _ w1 project w1) by (by rewrite Hvalid).
  destruct (make_dirs_succeeds (Path.ancestors path) (files w) Hanc)
    as (fs1 & Hmk & Hsame).
  assert (Hbelow : ∀ l, Path.node_at fs1 (path ++ l) = None).
  { intros l. rewrite Hsame by apply below_not_ancestor.
    apply Hfree. by exists l. }
  set (fs2 := <[path := Dir]> fs1).
  assert (Hmkdir : Path.mkdir true path w1 = (Ok tt, set_files fs2 w1)).
  { unfold Path.mkdir, Path.exists_in. simpl files. by rewrite Hp, Hmk. }
  rewrite (bind_Ok _ _ _ _ _ Hmkdir).
  rewrite !joinpath_literal by reflexivity.
  set (data := path ++ [ProjectService.STORY_DATA_DIR]).
  set (fs3 := <[data := Dir]> fs2).
  assert (Hdne : data ≠ []) by (unfold data; by destruct path).
  assert (Hmkdata : Path.mkdir false data (set_files fs2 w1)
                    = (Ok tt, set_files fs3 (set_files fs2 w1))).
  { unfold Path.mkdir, Path.exists_in, Path.is_dir_in. simpl files.
    unfold fs2 at 1. rewrite node_at_insert_ne;
      [|done|unfold data; by apply not_eq_sym, path_app_ne_self].
    unfold data at 1. rewrite Hbelow.
    unfold Path.parent, data. rewrite removelast_last.
    unfold fs2. by rewrite node_at_insert_eq. }
  rewrite (bind_Ok _ _ _ _ _ Hmkdata).
  set (chars := data ++ [ProjectService.CHARACTERS_DIR]).
  set (fs4 := <[chars := Dir]> fs3).
  assert (Hchars_eq : chars = path ++ [ProjectService.STORY_DATA_DIR;
                                       ProjectService.CHARACTERS_DIR]).
  { unfold chars, data. by rewrite <-app_assoc. }
  assert (Hcne : chars ≠ []) by (unfold chars; by destruct data).
  assert (Hmkchars : Path.mkdir false chars (set_files fs3 (set_files fs2 w1))
                     = (Ok tt, set_files fs4 (set_files fs3 (set_files fs2 w1)))).
  { unfold Path.mkdir, Path.exists_in, Path.is_dir_in. simpl files.
    unfold fs3 at 1. rewrite node_at_insert_ne;
      [|done|unfold chars; by apply not_eq_sym, path_app_ne_self].
    unfold fs2 at 1. rewrite node_at_insert_ne;
      [|done|rewrite Hchars_eq; by apply not_eq_sym, path_app_ne_self].
    rewrite Hchars_eq at 1. rewrite Hbelow.
    unfold Path.parent, chars. rewrite removelast_last.
    unfold fs3. by rewrite node_at_insert_eq. }
  rewrite (bind_Ok _ _ _ _ _ Hmkchars).
  set (story := path ++ [ProjectService.STORY_JSON]).
  set (w4 := set_files fs4 _).
  assert (Hstory : Path.write_text story (ProjectJson project) w4
                   = (Ok tt, set_files (<[story := File (ProjectJson project)]>
                                          fs4) w4)).
  { unfold Path.write_text, Path.is_dir_in. simpl files.
    assert (Hnone : Path.node_at fs4 story = None).
    { unfold fs4. rewrite node_at_insert_ne;
        [|done|rewrite Hchars_eq; unfold story; by apply path_app_ne].
      unfold fs3. rewrite node_at_insert_ne;
        [|done|unfold data, story; by apply path_app_ne].
      unfold fs2. rewrite node_at_insert_ne;
        [|done|unfold story; by apply not_eq_sym, path_app_ne_self].
      apply Hbelow. }
    rewrite Hnone. unfold Path.parent, story. rewrite removelast_last.
    unfold fs4. rewrite node_at_insert_ne;
      [|done|rewrite Hchars_eq; by apply path_app_ne_self].
    unfold fs3. rewrite node_at_insert_ne;
      [|done|unfold data; by apply path_app_ne_self].
    unfold fs2. by rewrite node_at_insert_eq. }
  rewrite (bind_Ok _ _ _ _ _ Hstory).
  set (fs5 := <[story := _]> fs4).
  set (idx := data ++ [ProjectService.CHARACTERS_INDEX]).
  assert (Hidx_eq : idx = path ++ [ProjectService.STORY_DATA_DIR;
                                   ProjectService.CHARACTERS_INDEX]).
  { unfold idx, data. by rewrite <-app_assoc. }
  assert (Hsne : story ≠ []) by (unfold story; by destruct path).
  assert (Hindex :
    Path.write_text idx (IndexJson (CharacterIndex.mk [])) (set_files fs5 w4)
    = (Ok tt, set_files (<[idx := File (IndexJson (CharacterIndex.mk []))]>
                           fs5) (set_files fs5 w4))).
  { unfold Path.write_text, Path.is_dir_in. simpl files.
    assert (Hnone : Path.node_at fs5 idx = None).
    { unfold fs5. rewrite node_at_insert_ne;
        [|done|rewrite Hidx_eq; unfold story; by apply path_app_ne].
      unfold fs4. rewrite node_at_insert_ne;
        [|done|rewrite Hchars_eq, Hidx_eq; by apply path_app_ne].
      unfold fs3. rewrite node_at_insert_ne;
        [|done|unfold idx; by apply not_eq_sym, path_app_ne_self].
      unfold fs2. rewrite node_at_insert_ne;
        [|done|rewrite Hidx_eq; by apply not_eq_sym, path_app_ne_self].
      rewrite Hidx_eq. apply Hbelow. }
    rewrite Hnone. unfold Path.parent, idx. rewrite removelast_last.
    unfold fs5. rewrite node_at_insert_ne;
      [|done|unfold data, story; by apply path_app_ne].
    unfold fs4. rewrite node_at_insert_ne;
      [|done|unfold chars; by apply path_app_ne_self].
    unfold fs3. by rewrite node_at_insert_eq. }
  rewrite (bind_Ok _ _ _ _ _ Hindex).
  by eexists.
Qed.

Lemma create_project_succeeds_witness :
  ∃ w', ProjectService.create_project "Test Project" " Fantasy "
          "A test story" None ExW.w0 = (Ok ExW.project, w').
Proof.
  destruct (Project.model_validate "Test Project" " Fantasy " "A test story"
              (clock ExW.w0)) as [project|] eqn:Hvalid;
    [|vm_compute in Hvalid; discriminate].
  apply (create_project_succeeds "Test Project" " Fantasy " "A test story"
           None ExW.w0 project Hvalid).
  - intros [|x q] Hq; [|done]. by destruct Hq as [k Hk].
  - intros q c Hq. vm_compute in Hq.
    apply list_elem_of_singleton in Hq as ->. done.
Defined.

(** ** Failing to create a project *)

(** X4. [create_project] checks the target before anything else: when
    the sanitized name already exists under the parent directory (as a file
    or a directory) it raises [ProjectExistsError] with the name as given
    and leaves the state as it was. *)
Theorem create_project_existing_target (name genre synopsis : string)
    (parent_dir : option Path) (w : World) :
  Path.exists_in (files w)
    (default (cwd w) parent_dir </> sanitize_for_filesystem name) = true →
  ProjectService.create_project name genre synopsis parent_dir w
    = (Raise (ProjectExistsError name), w).
Proof.
  intros Hex. unfold ProjectService.create_project.
  rewrite (bind_Ok _ _ w (default (cwd w) parent_dir) w)
    by (by destruct parent_dir).
  unfold bind, Path.exists_, raise. by rewrite Hex.
Qed.

Lemma create_project_existing_target_witness :
  ProjectService.create_project "Test Project" "fantasy" "A test story" None
    ExW.w_fresh
  = (Raise (ProjectExistsError "Test Project"), ExW.w_fresh).
Proof.
  apply (create_project_existing_target "Test Project" "fantasy"
           "A test story" None ExW.w_fresh).
  vm_compute. reflexivity.
Defined.

(** X5. The record is validated before any directory is made: when the
    target is free and the fields do not validate, [create_project] raises
    the validation error and no file or directory has been created. *)
Theorem create_project_invalid_input (name genre synopsis : string)
    (parent_dir : option Path) (w : World) (e : exn) :
  Path.exists_in (files w)
    (default (cwd w) parent_dir </> sanitize_for_filesystem name) = false →
  Project.model_validate name genre synopsis (clock w) = Raise e →
  fst (ProjectService.create_project name genre synopsis parent_dir w)
    = Raise e ∧
  files (snd (ProjectService.create_project name genre synopsis parent_dir w))
    = files w.
Proof.
  intros Hex Hinv.
  assert (ProjectService.create_project name genre synopsis parent_dir w
          = (Raise e, mkWorld (files w) (clock w + 1) (cwd w))) as ->; [|done].
  unfold ProjectService.create_project.
  rewrite (bind_Ok _ _ w (default (cwd w) parent_dir) w)
    by (by destruct parent_dir).
  unfold bind at 1. unfold Path.exists_ at 1. rewrite Hex.
  unfold bind at 1. unfold now at 1.
  unfold bind at 1. unfold lift at 1. by rewrite Hinv.
Qed.

Lemma create_project_invalid_input_witness :
  fst (ProjectService.create_project "bad/name" "fantasy" "A test story" None
         ExW.w0)
    = Raise (ValidationError
        "Project name can only contain letters, numbers, spaces, hyphens, and underscores") ∧
  files (snd (ProjectService.create_project "bad/name" "fantasy"
                "A test story" None ExW.w0))
    = files ExW.w0.
Proof.
  apply (create_project_invalid_input "bad/name" "fantasy" "A test story"
           None ExW.w0).
  - vm_compute. reflexivity.
  - vm_compute. reflexivity.
Defined.

Lemma create_project_path (name genre synopsis : string)
    (parent_dir : option Path) (w w' : World) (path : Path) :
  ProjectService.create_project name genre synopsis parent_dir w
    = (Ok path, w') →
  path = default (cwd w) parent_dir </> sanitize_for_filesystem name ∧
  cwd w' = cwd w ∧
  Path.node_at (files w') path = Some Dir.
Proof.
  intros H. destruct (create_project_layout _ _ _ _ _ _ _ H)
    as (project & fs & _ & Hne & ->).
  split; [|split; [done|]].
  - revert H. unfold ProjectService.create_project.
    rewrite (bind_Ok _ _ w (default (cwd w) parent_dir) w)
      by (by destruct parent_dir).
    intros H. minv H. injection Hstep as <- <-.
    destruct (Path.exists_in _ _); [done|].
    minv H. minv H. minv H. minv H. minv H. minv H. minv H.
    by injection H as <- _.
  - simpl files.
    rewrite node_at_insert_ne; [|path_ne|].
    2:{ rewrite !joinpath_literal by reflexivity. rewrite <-app_assoc.
        by apply path_app_ne_self. }
    rewrite node_at_insert_ne; [|path_ne|path_ne].
    rewrite node_at_insert_ne; [|path_ne|].
    2:{ rewrite !joinpath_literal by reflexivity. rewrite <-app_assoc.
        by apply path_app_ne_self. }
    rewrite node_at_insert_ne; [|path_ne|path_ne].
    by rewrite node_at_insert_eq.
Qed.

(** X6. Two names with the same sanitized form (they differ in case, in
    blanks against underscores, or in apostrophes) share one directory:
    after the first project has been created, creating the second under the
    same parent raises [ProjectExistsError] and changes nothing. *)
Theorem create_project_same_directory (name1 name2 genre1 genre2 : string)
    (synopsis1 synopsis2 : string) (parent_dir : option Path)
    (w w' : World) (path : Path) :
  sanitize_for_filesystem name1 = sanitize_for_filesystem name2 →
  ProjectService.create_project name1 genre1 synopsis1 parent_dir w
    = (Ok path, w') →
  ProjectService.create_project name2 genre2 synopsis2 parent_dir w'
    = (Raise (ProjectExistsError name2), w').
Proof.
  intros Hsame Hfirst.
  apply create_project_path in Hfirst as (-> & Hcwd & Hdir).
  apply exists_of_node in Hdir. rewrite <-Hcwd, Hsame in Hdir.
  unfold ProjectService.create_project.
  rewrite (bind_Ok _ _ w' (default (cwd w') parent_dir) w')
    by (by destruct parent_dir).
  unfold bind, Path.exists_, raise. by rewrite Hdir.
Qed.

Lemma create_project_same_directory_witness :
  ProjectService.create_project "test_project" "mystery" "Another story" None
    (snd (ProjectService.create_project "Test Project" "fantasy"
            "A test story" None ExW.w0))
  = (Raise (ProjectExistsError "test_project"),
     snd (ProjectService.create_project "Test Project" "fantasy"
            "A test story" None ExW.w0)).
Proof.
  apply (create_project_same_directory "Test Project" "test_project"
           "fantasy" "mystery" "A test story" "Another story" None
           ExW.w0 _ ExW.project).
  - vm_compute. reflexivity.
  - vm_compute. reflexivity.
Defined.

(** ** What validation of a project accepts *)

(** X7. [validate_project] never raises and does not change the state; it
    answers [True] exactly with an empty list of errors; and it finds no
    error exactly when the path is a directory, [story.json] is a file
    whose text validates as a [Project], and [story_data] and
    [story_data/characters] are directories. *)
Theorem validate_project_accepts (path : Path) (w : World) :
  snd (ProjectService.validate_project path w) = w ∧
  (∃ ok errors,
     fst (ProjectService.validate_project path w) = Ok (ok, errors) ∧
     (ok = true ↔ errors = [])) ∧
  (fst (ProjectService.validate_project path w) = Ok (true, []) ↔
   Path.node_at (files w) path = Some Dir ∧
   (∃ text,
      Path.node_at (files w) (path </> ProjectService.STORY_JSON)
        = Some (File text) ∧
      is_ok (Json.Project_model_validate_json text) = true) ∧
   Path.node_at (files w) (path </> ProjectService.STORY_DATA_DIR) = Some Dir ∧
   Path.node_at (files w)
     (path </> ProjectService.STORY_DATA_DIR </> ProjectService.CHARACTERS_DIR)
     = Some Dir).
Proof.
  split; [apply read_only_validate|].
  split.
  { destruct (validate_project_result path w) as (ok & errors & H & -> & _).
    exists (length errors =? 0)%nat, errors. rewrite H. split; [done|].
    destruct errors; simpl; split; done. }
  split.
  - unfold ProjectService.validate_project, bind, try_except, ret, lift,
      Path.exists_, Path.is_dir, Path.is_file, Path.read_text,
      Path.exists_in, Path.is_dir_in, Path.is_file_in.
    repeat (case_match; simplify_eq/=); intros Hres; simplify_eq/=.
    repeat split; try done. eexists. split; [reflexivity|].
    match goal with
    | H : Json.Project_model_validate_json _ = Ok _ |- _ => by rewrite H
    end.
  - intros (Hroot & (text & Hstory & Hok) & Hdata & Hchars).
    destruct (Json.Project_model_validate_json text) as [p|] eqn:Hvalid;
      [|done].
    unfold ProjectService.validate_project, bind, try_except, ret, lift,
      Path.exists_, Path.is_dir, Path.is_file, Path.read_text,
      Path.exists_in, Path.is_dir_in, Path.is_file_in.
    cbv beta iota zeta.
    repeat progress
      (rewrite ?Hroot, ?Hstory, ?Hdata, ?Hchars, ?Hvalid;
       cbn [negb length Nat.eqb]; cbv beta iota).
    done.
Qed.

Lemma read_only_is_valid_project_path (path : Path) :
  read_only (is_valid_project_path path).
Proof. unfold is_valid_project_path. repeat read_only_step. Qed.

(** X8. The path check of [utils.validation] is the weaker of the two: on
    every path in which [validate_project] finds no error it answers
    [(True, "")] and leaves the state as it was. *)
Theorem valid_project_has_valid_path (path : Path) (w : World)
    (errors : list string) :
  fst (ProjectService.validate_project path w) = Ok (true, errors) →
  is_valid_project_path path w = (Ok (true, ""), w).
Proof.
  intros Hvalid.
  assert (errors = []) as ->.
  { destruct (validate_project_result path w) as (ok & errs & H & Hok & _).
    rewrite H in Hvalid. injection Hvalid as Hb He. subst.
    destruct errors; [done|discriminate]. }
  revert Hvalid.
  unfold ProjectService.validate_project, is_valid_project_path,
    bind, try_except, ret, lift,
    Path.exists_, Path.is_dir, Path.is_file, Path.read_text,
    Path.exists_in, Path.is_dir_in, Path.is_file_in.
  repeat (case_match; simplify_eq/=); intros Hres; simplify_eq/=.
  all: try done.
  all: unfold ProjectService.STORY_JSON, ProjectService.STORY_DATA_DIR,
         ProjectService.CHARACTERS_DIR in *; congruence.
Qed.

Lemma valid_project_has_valid_path_witness :
  is_valid_project_path ExW.project ExW.w_fresh = (Ok (true, ""), ExW.w_fresh).
Proof.
  apply (valid_project_has_valid_path ExW.project ExW.w_fresh []).
  vm_compute. reflexivity.
Defined.

(** ** The name checks of the command line against the validators *)

Lemma all_chars_replace (P : ascii → bool) (x : ascii) (s : string) :
  Str.all_chars P (Str.replace x "" s)
  = Str.all_chars (λ c, P c || Ascii.eqb c x) s.
Proof.
  induction s as [|c s IH]; simpl; [done|].
  destruct (Ascii.eqb c x) eqn:Hc; simpl.
  - by rewrite app_empty_l, orb_true_r.
  - by rewrite orb_false_r, IH.
Qed.

Lemma any_char_replace (P : ascii → bool) (x : ascii) (s : string) :
  P x = false →
  Str.any_char P (Str.replace x "" s) = Str.any_char P s.
Proof.
  intros Hx. induction s as [|c s IH]; simpl; [done|].
  destruct (Ascii.eqb c x) eqn:Hc; simpl.
  - apply Ascii.eqb_eq in Hc as ->. by rewrite app_empty_l, Hx.
  - by rewrite IH.
Qed.

Lemma any_char_truthy (P : ascii → bool) (s : string) :
  Str.any_char P s = true → Str.truthy s = true.
Proof. by destruct s. Qed.

Lemma all_chars_ext (P Q : ascii → bool) (s : string) :
  (∀ c, P c = Q c) → Str.all_chars P s = Str.all_chars Q s.
Proof. intros H. induction s as [|c s IH]; simpl; [done|]. by rewrite H, IH. Qed.

(** Within a class [R] of characters in which [Q] holds exactly off [O]:
    all characters satisfy [Q] exactly when none satisfies [O]. *)
Lemma all_chars_none (R Q O : ascii → bool) (s : string) :
  (∀ c, R c = true → Q c = negb (O c)) →
  Str.all_chars R s = true →
  Str.all_chars Q s = negb (Str.any_char O s).
Proof.
  intros H. induction s as [|c s IH]; simpl; [done|].
  intros [Hc Hs]%andb_true_iff.
  rewrite (H c Hc), (IH Hs). by destruct (O c), (Str.any_char O s).
Qed.

Lemma all_chars_lstrip (P : ascii → bool) (s : string) :
  Str.all_chars P s = true → Str.all_chars P (Str.lstrip s) = true.
Proof.
  induction s as [|c s IH]; simpl; [done|].
  intros [Hc Hs]%andb_true_iff.
  destruct (Str.is_space c); [by apply IH|]. simpl. by rewrite Hc, Hs.
Qed.

Lemma all_chars_rstrip (P : ascii → bool) (s : string) :
  Str.all_chars P s = true → Str.all_chars P (Str.rstrip s) = true.
Proof.
  induction s as [|c s IH]; simpl; [done|].
  intros [Hc Hs]%andb_true_iff.
  destruct (Str.is_space c && negb (Str.truthy (Str.rstrip s))); [done|].
  simpl. by rewrite Hc, IH.
Qed.

Lemma all_chars_strip (P : ascii → bool) (s : string) :
  Str.all_chars P s = true → Str.all_chars P (Str.strip s) = true.
Proof. intros H. by apply all_chars_lstrip, all_chars_rstrip. Qed.

(** A string that starts with a character that is not whitespace keeps it
    when trimmed. *)
Lemma strip_head (c : ascii) (s : string) :
  Str.is_space c = false → Str.strip (String c s) = String c (Str.rstrip s).
Proof. intros Hc. unfold Str.strip. simpl. by rewrite Hc; simpl; rewrite Hc. Qed.

Lemma alnum_not_space (c : ascii) :
  Str.is_alnum c = true → Str.is_space c = false.
Proof. each_char c; by vm_compute. Qed.

Lemma project_class_alnum (c : ascii) :
  project_name_class c = true →
  (Str.is_alnum c || Ascii.eqb c "_" || Ascii.eqb c "-" || Ascii.eqb c " ")
  = negb (other_space c).
Proof. each_char c; by vm_compute. Qed.

Lemma character_class_alnum (c : ascii) :
  character_name_class c = true →
  (Str.is_alnum c || Ascii.eqb c "'" || Ascii.eqb c "_" || Ascii.eqb c "-"
   || Ascii.eqb c " ")
  = negb (other_space c).
Proof. each_char c; by vm_compute. Qed.

(** X9. For a name that the command line lets through
    ([is_valid_project_name]), the validator of [Project] accepts it
    exactly when the trimmed name holds no whitespace other than blanks:
    the pattern's [\s] admits tabs and line breaks inside a name, the
    validator does not. *)
Theorem project_name_check_against_model (name : string) :
  is_valid_project_name name = true →
  is_ok (Project.validate_project_name name) = true
  ↔ Str.any_char other_space (Str.strip name) = false.
Proof.
  unfold is_valid_project_name.
  destruct name as [|c rest]; [done|].
  destruct (Str.truthy (Str.strip (String c rest))) eqn:Ht; [|done].
  cbn [Str.truthy negb orb].
  intros [Hc Hrest]%andb_true_iff.
  unfold Project.validate_project_name. rewrite Ht. cbn [negb].
  assert (Hclass : Str.all_chars project_name_class
                     (Str.strip (String c rest)) = true).
  { apply all_chars_strip. simpl. rewrite Hrest, andb_true_r.
    unfold project_name_class. by rewrite Hc. }
  assert (Hsome : Str.truthy
            (Str.replace "_" "" (Str.replace "-" ""
               (Str.replace " " "" (Str.strip (String c rest))))) = true).
  { apply (any_char_truthy Str.is_alnum).
    rewrite !any_char_replace by reflexivity.
    rewrite strip_head by by apply alnum_not_space. simpl. by rewrite Hc. }
  unfold Str.isalnum. rewrite Hsome. cbn [andb].
  rewrite !all_chars_replace.
  rewrite (all_chars_none project_name_class _ other_space);
    [|intros; by apply project_class_alnum|exact Hclass].
  destruct (Str.any_char other_space _); simpl; split; done.
Qed.

Lemma project_name_check_against_model_witness :
  is_ok (Project.validate_project_name ("My" +:+ String "009" "Story")) = true
  ↔ Str.any_char other_space (Str.strip ("My" +:+ String "009" "Story"))
    = false.
Proof.
  apply (project_name_check_against_model ("My" +:+ String "009" "Story")).
  vm_compute. reflexivity.
Defined.

(** X10. The same for character names: a name that
    [is_valid_character_name] lets through is accepted by the validator of
    [CharacterBasics] exactly when the trimmed name holds no whitespace
    other than blanks. *)
Theorem character_name_check_against_model (name : string) :
  is_valid_character_name name = true →
  is_ok (CharacterBasics.validate_character_name name) = true
  ↔ Str.any_char other_space (Str.strip name) = false.
Proof.
  unfold is_valid_character_name.
  destruct name as [|c rest]; [done|].
  destruct (Str.truthy (Str.strip (String c rest))) eqn:Ht; [|done].
  cbn [Str.truthy negb orb].
  intros [Hc Hrest]%andb_true_iff.
  assert (Hal : Str.is_alnum c = true).
  { unfold Str.is_alnum. by rewrite Hc. }
  unfold CharacterBasics.validate_character_name. rewrite Ht. cbn [negb].
  assert (Hclass : Str.all_chars character_name_class
                     (Str.strip (String c rest)) = true).
  { apply all_chars_strip. simpl. rewrite Hrest, andb_true_r.
    unfold character_name_class. by rewrite Hal. }
  assert (Hsome : Str.truthy
            (Str.replace "'" "" (Str.replace "_" "" (Str.replace "-" ""
               (Str.replace " " "" (Str.strip (String c rest)))))) = true).
  { apply (any_char_truthy Str.is_alnum).
    rewrite !any_char_replace by reflexivity.
    rewrite strip_head by by apply alnum_not_space. simpl. by rewrite Hal. }
  unfold Str.isalnum. rewrite Hsome. cbn [andb].
  rewrite !all_chars_replace.
  rewrite (all_chars_none character_name_class _ other_space);
    [|intros; by apply character_class_alnum|exact Hclass].
  destruct (Str.any_char other_space _); simpl; split; done.
Qed.

Lemma character_name_check_against_model_witness :
  is_ok (CharacterBasics.validate_character_name "Mary-Ann O'Brien") = true
  ↔ Str.any_char other_space (Str.strip "Mary-Ann O'Brien") = false.
Proof.
  apply (character_name_check_against_model "Mary-Ann O'Brien").
  vm_compute. reflexivity.
Defined.

(** ** The genre and synopsis checks against the validators *)

(** X11. What [Project] accepts passes the checks of [utils.validation]:
    when the fields validate, [validate_genre] and [validate_synopsis]
    answer [True] on the genre and synopsis as given, and
    [validate_synopsis] on the synopsis of the record. On the genre of the
    record, which has been lower-cased, [validate_genre] answers [True]
    exactly when that genre still has at most 50 characters. *)
Theorem validated_project_passes_checks (name genre synopsis : string)
    (ts : Z) (p : Project.t) :
  Project.model_validate name genre synopsis ts = Ok p →
  validate_genre genre = true ∧ validate_synopsis synopsis = true ∧
  validate_synopsis (Project.synopsis p) = true ∧
  (validate_genre (Project.genre p) = true
   ↔ (String.length (Project.genre p) ≤ 50)%nat).
Proof.
  intros H. pose proof (project_model_validate_inv _ _ _ _ _ H)
    as (_ & Hg & Hs & _ & Htp & _).
  unfold Project.model_validate in H.
  apply rbind_inv in H as ([] & _ & H).
  apply rbind_inv in H as (n' & _ & H).
  apply rbind_inv in H as ([] & Hlg%require_inv & H).
  apply rbind_inv in H as (g' & Hg' & H).
  apply rbind_inv in H as ([] & Hls%require_inv & H).
  apply rbind_inv in H as (s' & Hs' & _).
  apply validate_genre_inv in Hg' as (-> & Htg & _).
  apply validate_synopsis_inv in Hs' as (-> & Hts & _).
  rewrite truthy_lower in Htg.
  split_and!.
  - unfold validate_genre.
    rewrite (len_between_truthy _ _ Hlg), Htg. simpl.
    by apply len_between_strip.
  - unfold validate_synopsis.
    rewrite (len_between_truthy _ _ Hls), Hts. simpl.
    by apply len_between_strip.
  - rewrite Hs. unfold validate_synopsis. rewrite strip_idem, Hts. simpl.
    by apply len_between_strip.
  - assert (Hstrip : Str.strip (Project.genre p) = Project.genre p).
    { by rewrite Hg, strip_lower, strip_idem. }
    unfold validate_genre. rewrite Hstrip, Htp. cbn [negb orb].
    unfold Str.len_between. clear Hstrip Hg. revert Htp.
    destruct (Project.genre p) as [|c g]; [done|]. intros _.
    change (1 <=? String.length (String c g))%nat with true. cbn [andb].
    apply Nat.leb_le.
Qed.

Lemma validated_project_passes_checks_witness :
  validate_genre " Fantasy " = true ∧ validate_synopsis "A test story" = true ∧
  validate_synopsis "A test story" = true ∧
  (validate_genre "fantasy" = true ↔ (String.length "fantasy" ≤ 50)%nat).
Proof.
  apply (validated_project_passes_checks "Test Project" " Fantasy "
           "A test story" 0
           (Project.mk "Test Project" "fantasy" "A test story" 0)).
  vm_compute. reflexivity.
Defined.

(** ** Sanitized names *)

Lemma lower_char_not_upper (c : ascii) :
  Str.is_upper (Str.lower_char c) = false.
Proof. each_char c; reflexivity. Qed.

(** X12. [sanitize_for_filesystem] leaves no blank, no apostrophe and no
    upper-case letter, and sanitizing a sanitized name changes nothing. *)
Theorem sanitize_for_filesystem_idempotent (name : string) :
  Str.all_chars sanitized_char (sanitize_for_filesystem name) = true ∧
  sanitize_for_filesystem (sanitize_for_filesystem name)
  = sanitize_for_filesystem name.
Proof.
  induction name as [|c s [IHc IHs]]; [done|].
  rewrite sanitize_cons.
  destruct (Ascii.eqb c " ") eqn:Hb.
  { split; [simpl; by rewrite IHc|].
    rewrite sanitize_cons. simpl. by rewrite IHs. }
  destruct (Ascii.eqb c "'") eqn:Ha; [done|].
  split.
  - simpl. unfold sanitized_char at 1.
    by rewrite lower_char_blank, lower_char_apostrophe, Hb, Ha,
      lower_char_not_upper, IHc.
  - rewrite sanitize_cons.
    by rewrite lower_char_blank, lower_char_apostrophe, Hb, Ha,
      lower_char_idem, IHs.
Qed.

(** ** Validation of a character is idempotent *)

Lemma validate_character_name_inv (v name : string) :
  CharacterBasics.validate_character_name v = Ok name →
  name = Str.strip v ∧ Str.truthy name = true ∧
  CharacterBasics.validate_character_name name = Ok name.
Proof.
  unfold CharacterBasics.validate_character_name.
  destruct (Str.truthy (Str.strip v)) eqn:Ht; simpl; [|done].
  destruct (Str.isalnum _) eqn:Ha; simpl; [|done].
  intros [= <-]. by rewrite strip_idem, Ht, Ha.
Qed.

Lemma basics_model_validate_inv (b b' : CharacterBasics.t) :
  CharacterBasics.model_validate b = Ok b' →
  CharacterBasics.name b' = Str.strip (CharacterBasics.name b) ∧
  CharacterBasics.age b' = CharacterBasics.age b ∧
  CharacterBasics.gender b' = CharacterBasics.gender b ∧
  CharacterBasics.role b' = CharacterBasics.role b ∧
  CharacterBasics.model_validate b' = Ok b'.
Proof.
  unfold CharacterBasics.model_validate. intros H.
  apply rbind_inv in H as ([] & Hlen%require_inv & H).
  apply rbind_inv in H as (n & Hn & H).
  apply rbind_inv in H as ([] & Hage & H).
  apply rbind_inv in H as ([] & Hgender & H).
  injection H as <-. simpl.
  apply validate_character_name_inv in Hn as (-> & Ht & Hn).
  repeat split; try done.
  rewrite (len_between_strip _ _ Hlen Ht). simpl. rewrite Hn. simpl.
  rewrite Hage. simpl. by rewrite Hgender.
Qed.

Lemma generate_lora_trigger_ext (c c' : Character.t) :
  Character.basics c = Character.basics c' →
  Character.appearance c = Character.appearance c' →
  Character.generate_lora_trigger c = Character.generate_lora_trigger c'.
Proof.
  intros Hb Ha. unfold Character.generate_lora_trigger. by rewrite Hb, Ha.
Qed.

Lemma update_lora_trigger_idem (c : Character.t) :
  Character.update_lora_trigger (Character.update_lora_trigger c)
  = Character.update_lora_trigger c.
Proof.
  unfold Character.update_lora_trigger.
  destruct (Character.appearance c) as [a|] eqn:Ha; [|by rewrite Ha].
  destruct (opt_truthy (Character.lora_trigger c)) eqn:Hl; simpl.
  - by rewrite Ha, Hl.
  - unfold Character.set_lora_trigger at 1 2. simpl. rewrite Ha.
    destruct (Str.truthy (Character.generate_lora_trigger c)); simpl;
      [done|].
    unfold Character.set_lora_trigger. simpl. rewrite ?Ha. do 2 f_equal.
    apply generate_lora_trigger_ext; simpl; by rewrite ?Ha.
Qed.

Lemma update_lora_trigger_parts (c : Character.t) :
  Character.appearance (Character.update_lora_trigger c)
    = Character.appearance c ∧
  Character.personality (Character.update_lora_trigger c)
    = Character.personality c ∧
  Character.backstory (Character.update_lora_trigger c)
    = Character.backstory c ∧
  Character.relationships (Character.update_lora_trigger c)
    = Character.relationships c.
Proof. unfold Character.update_lora_trigger. by repeat case_match. Qed.

(** X13. Validation of a [Character] is idempotent: the record it
    returns validates to itself, so the text that [model_dump_json] writes
    for a validated record is read back by [model_validate_json] as that
    record. *)
Theorem character_validation_idempotent (c c' : Character.t) :
  Character.model_validate c = Ok c' →
  Character.model_validate c' = Ok c' ∧
  Json.Character_model_validate_json (CharacterJson c') = Ok c'.
Proof.
  intros H. cut (Character.model_validate c' = Ok c'); [done|].
  unfold Character.model_validate in H.
  apply rbind_inv in H as (b & Hb & H).
  apply rbind_inv in H as (a & Ha & H).
  apply rbind_inv in H as (p & Hp & H).
  apply rbind_inv in H as (s & Hs & H).
  apply rbind_inv in H as (rs & Hrs & H).
  injection H as <-.
  apply basics_model_validate_inv in Hb as (_ & _ & _ & _ & Hb).
  apply model_validate_fixed. rewrite update_lora_trigger_basics.
  destruct (update_lora_trigger_parts
              (Character.mk b (Character.appearance c)
                 (Character.personality c) (Character.backstory c)
                 (Character.relationships c) (Character.lora_trigger c)
                 (Character.created_at c) (Character.updated_at c)))
    as (-> & -> & -> & ->).
  simpl. rewrite Ha, Hp, Hs, Hrs.
  repeat split; try done. apply update_lora_trigger_idem.
Qed.

Lemma character_validation_idempotent_witness :
  Character.model_validate (ExW.stored Ex.alex) = Ok (ExW.stored Ex.alex) ∧
  Json.Character_model_validate_json (CharacterJson (ExW.stored Ex.alex))
    = Ok (ExW.stored Ex.alex).
Proof.
  apply (character_validation_idempotent
           (Character.set_created_at 1 (Character.set_updated_at 1 Ex.alex))
           (ExW.stored Ex.alex)).
  vm_compute. reflexivity.
Defined.

(** ** Looking up after adding and removing *)

Lemma find_app_none {A} (p : A → bool) (l l' : list A) :
  List.find p l = None → List.find p (l ++ l') = List.find p l'.
Proof.
  induction l as [|x l IH]; simpl; [done|]. destruct (p x); [done|apply IH].
Qed.

Lemma find_filter_none {A} (p q : A → bool) (l : list A) :
  (∀ x, q x = true → p x = false) → List.find p (List.filter q l) = None.
Proof.
  intros H. induction l as [|x l IH]; simpl; [done|].
  destruct (q x) eqn:Hq; [|done]. simpl. by rewrite (H x Hq).
Qed.

Lemma find_filter_other {A} (p q : A → bool) (l : list A) :
  (∀ x, p x = true → q x = true) →
  List.find p (List.filter q l) = List.find p l.
Proof.
  intros H. induction l as [|x l IH]; simpl; [done|].
  destruct (p x) eqn:Hp.
  - rewrite (H x Hp). simpl. by rewrite Hp.
  - destruct (q x); simpl; by rewrite ?Hp.
Qed.

Lemma find_app_some {A} (p : A → bool) (l l' : list A) (x : A) :
  List.find p l = Some x → List.find p (l ++ l') = Some x.
Proof.
  induction l as [|y l IH]; simpl; [done|]. destruct (p y); [done|apply IH].
Qed.

Lemma get_entry_add_same (name : string) (entry : CharacterIndexEntry.t)
    (index : CharacterIndex.t) :
  Str.lower name = Str.lower (CharacterIndexEntry.name entry) →
  CharacterIndex.get_entry name (CharacterIndex.add_entry entry index)
  = Some entry.
Proof.
  unfold CharacterIndex.get_entry, CharacterIndex.add_entry. simpl.
  intros ->. rewrite find_app_none.
  - simpl. by rewrite String.eqb_refl.
  - apply find_filter_none. by intros x ->%negb_true_iff.
Qed.

Lemma get_entry_add_other (name : string) (entry : CharacterIndexEntry.t)
    (index : CharacterIndex.t) :
  Str.lower name ≠ Str.lower (CharacterIndexEntry.name entry) →
  CharacterIndex.get_entry name (CharacterIndex.add_entry entry index)
  = CharacterIndex.get_entry name index.
Proof.
  unfold CharacterIndex.get_entry, CharacterIndex.add_entry. simpl.
  intros Hne.
  assert (Hkeep : ∀ x : CharacterIndexEntry.t,
            String.eqb (Str.lower (CharacterIndexEntry.name x))
                       (Str.lower name) = true →
            negb (String.eqb (Str.lower (CharacterIndexEntry.name x))
                    (Str.lower (CharacterIndexEntry.name entry))) = true).
  { intros x Hx%String.eqb_eq. apply negb_true_iff, String.eqb_neq.
    congruence. }
  destruct (List.find _ (CharacterIndex.characters index)) as [e|] eqn:He.
  - apply find_app_some. by rewrite find_filter_other.
  - rewrite find_app_none by by rewrite find_filter_other.
    simpl. rewrite String.eqb_sym. by apply String.eqb_neq in Hne as ->.
Qed.

(** X14. [get_entry] after [add_entry]: a name equal to the added entry's
    name, case-insensitively, finds the added entry (whatever the index
    held under that name before); any other name finds what it found
    before. *)
Theorem get_entry_after_add (name : string) (entry : CharacterIndexEntry.t)
    (index : CharacterIndex.t) :
  CharacterIndex.get_entry name (CharacterIndex.add_entry entry index)
  = if String.eqb (Str.lower name)
         (Str.lower (CharacterIndexEntry.name entry))
    then Some entry
    else CharacterIndex.get_entry name index.
Proof.
  destruct (String.eqb (Str.lower name) _) eqn:Heq.
  - apply String.eqb_eq in Heq. by apply get_entry_add_same.
  - apply String.eqb_neq in Heq. by apply get_entry_add_other.
Qed.

Lemma find_ext {A} (p q : A → bool) (l : list A) :
  (∀ x, p x = q x) → List.find p l = List.find q l.
Proof.
  intros H. induction l as [|x l IH]; simpl; [done|]. by rewrite H, IH.
Qed.

Lemma filter_length_lt {A} (p : A → bool) (l : list A) :
  (length (List.filter p l) <? length l)%nat
  = bool_decide (is_Some (List.find (λ x, negb (p x)) l)).
Proof.
  induction l as [|x l IH]; simpl; [done|].
  pose proof (filter_length_le p l) as Hle.
  destruct (p x) eqn:Hp; simpl.
  - exact IH.
  - trans true; [apply Nat.ltb_lt; lia|].
    first [done|symmetry; apply bool_decide_eq_true_2; eauto].
Qed.

(** X15. [remove_entry] reports whether the name was in the index: it
    answers [True] exactly when [get_entry] finds the name; afterwards
    that name (in any case) is not found, and every other name finds what
    it found before. *)
Theorem remove_entry_reports (name name' : string) (index : CharacterIndex.t) :
  snd (CharacterIndex.remove_entry name index)
    = bool_decide (is_Some (CharacterIndex.get_entry name index)) ∧
  CharacterIndex.get_entry name'
    (fst (CharacterIndex.remove_entry name index))
  = if String.eqb (Str.lower name') (Str.lower name) then None
    else CharacterIndex.get_entry name' index.
Proof.
  unfold CharacterIndex.get_entry, CharacterIndex.remove_entry. simpl.
  split.
  - rewrite filter_length_lt.
    by rewrite (find_ext _
      (λ entry, String.eqb (Str.lower (CharacterIndexEntry.name entry))
                           (Str.lower name)))
      by (intros; apply negb_involutive).
  - destruct (String.eqb (Str.lower name') _) eqn:Heq.
    + apply String.eqb_eq in Heq. rewrite Heq.
      apply find_filter_none. by intros x ->%negb_true_iff.
    + apply String.eqb_neq in Heq. apply find_filter_other.
      intros x Hx%String.eqb_eq. apply negb_true_iff, String.eqb_neq.
      congruence.
Qed.

(** ** The queries leave the state alone *)

Lemma read_only_character_exists (self : CharacterService.t) (name : string) :
  read_only (CharacterService.character_exists self name).
Proof.
  unfold CharacterService.character_exists.
  apply read_only_try_except.
  - apply read_only_bind; [apply read_only_validate_project|intros _].
    apply read_only_bind; [apply read_only_load_index|intros index].
    apply read_only_ret.
  - intros e h. destruct e; intros [= <-]. apply read_only_ret.
Qed.

Lemma read_only_open_project (path : option Path) :
  read_only (ProjectService.open_project path).
Proof.
  unfold ProjectService.open_project.
  apply read_only_bind; [destruct path; repeat read_only_step|intros p].
  apply read_only_bind; [apply read_only_validate|intros [ok errors]].
  repeat read_only_step.
Qed.

(** X16. None of the queries changes the state, whether it returns or
    raises: [get_character], [list_characters], [character_exists],
    [get_relationship_dependencies], [validate_project] and
    [open_project] leave every file, the clock and the working directory
    as they were. *)
Theorem queries_leave_state (self : CharacterService.t) (w : World) :
  (∀ name, snd (CharacterService.get_character self name w) = w) ∧
  (∀ role_filter,
     snd (CharacterService.list_characters self role_filter w) = w) ∧
  (∀ name, snd (CharacterService.character_exists self name w) = w) ∧
  (∀ name,
     snd (CharacterService.get_relationship_dependencies self name w) = w) ∧
  (∀ path, snd (ProjectService.validate_project path w) = w) ∧
  (∀ path, snd (ProjectService.open_project path w) = w).
Proof.
  split_and!; intros x.
  - apply read_only_get_character.
  - apply read_only_list_characters.
  - apply read_only_character_exists.
  - apply read_only_get_relationship_dependencies.
  - apply read_only_validate.
  - apply read_only_open_project.
Qed.

(** ** Names are looked up without regard to case *)

Lemma get_character_same_lower (self : CharacterService.t) (n1 n2 : string)
    (w : World) (c : Character.t) :
  Str.lower n1 = Str.lower n2 →
  fst (CharacterService.get_character self n1 w) = Ok c →
  fst (CharacterService.get_character self n2 w) = Ok c.
Proof.
  intros Hlow.
  unfold CharacterService.get_character, CharacterIndex.get_entry,
    CharacterService._get_character_file, CharacterService._get_character_dir,
    sanitize_for_filesystem.
  rewrite Hlow.
  unfold bind, ret, raise, lift, Path.exists_, Path.read_text.
  repeat (case_match; simplify_eq/=); done.
Qed.

(** X17. [get_character] depends on the name only through its lower-case
    form: two names equal case-insensitively return the same records. *)
Theorem get_character_ignores_case (self : CharacterService.t)
    (n1 n2 : string) (w : World) (c : Character.t) :
  Str.lower n1 = Str.lower n2 →
  fst (CharacterService.get_character self n1 w) = Ok c
  ↔ fst (CharacterService.get_character self n2 w) = Ok c.
Proof.
  intros Hlow. split; by apply get_character_same_lower.
Qed.

Lemma get_character_ignores_case_witness :
  fst (CharacterService.get_character ExW.svc "ALEX chen" ExW.w_alex_bob)
    = Ok (ExW.stored Ex.alex)
  ↔ fst (CharacterService.get_character ExW.svc "Alex Chen" ExW.w_alex_bob)
    = Ok (ExW.stored Ex.alex).
Proof.
  apply (get_character_ignores_case ExW.svc "ALEX chen" "Alex Chen"
           ExW.w_alex_bob (ExW.stored Ex.alex)).
  vm_compute. reflexivity.
Defined.

(** ** Outside a project *)

Lemma validate_project_raises (self : CharacterService.t) (w : World)
    (e : exn) :
  fst (CharacterService._validate_project self w) = Raise e →
  CharacterService._validate_project self w = (Raise e, w) ∧
  ∃ msg, e = ProjectNotFoundError msg.
Proof.
  intros H. split.
  - rewrite (read_only_run _ w (read_only_validate_project self)).
    by rewrite H.
  - revert H. unfold CharacterService._validate_project, bind, Path.exists_,
      raise, ret.
    repeat case_match; simpl; intros [= <-]; eauto.
Qed.

(** X18. Every operation of the character service checks the project
    first: when the project directory or its [story_data/characters] is
    missing, each of them raises [ProjectNotFoundError] and leaves the
    state as it was, except [character_exists], which answers [False]. *)
Theorem services_require_project (self : CharacterService.t) (w : World)
    (e : exn) :
  fst (CharacterService._validate_project self w) = Raise e →
  (∃ msg, e = ProjectNotFoundError msg) ∧
  (∀ c, CharacterService.create_character self c w = (Raise e, w)) ∧
  (∀ name, CharacterService.get_character self name w = (Raise e, w)) ∧
  (∀ c, CharacterService.update_character self c w = (Raise e, w)) ∧
  (∀ name force,
     CharacterService.delete_character self name force w = (Raise e, w)) ∧
  (∀ role_filter,
     CharacterService.list_characters self role_filter w = (Raise e, w)) ∧
  (∀ name,
     CharacterService.get_relationship_dependencies self name w
       = (Raise e, w)) ∧
  CharacterService.rebuild_index self w = (Raise e, w) ∧
  (∀ name, CharacterService.character_exists self name w = (Ok false, w)).
Proof.
  intros [Hv [msg ->]]%validate_project_raises.
  split; [by exists msg|].
  split_and!; intros; try by apply bind_Raise.
  unfold CharacterService.character_exists, try_except.
  by rewrite (bind_Raise _ _ _ _ _ Hv).
Qed.

Lemma services_require_project_witness :
  (∃ msg,
     ProjectNotFoundError
       "Missing characters directory: /tmp/test_project/story_data/characters"
     = ProjectNotFoundError msg) ∧
  (∀ c, CharacterService.create_character ExW.svc c ExW.w_no_data
        = (Raise (ProjectNotFoundError
             "Missing characters directory: /tmp/test_project/story_data/characters"),
           ExW.w_no_data)) ∧
  (∀ name, CharacterService.get_character ExW.svc name ExW.w_no_data
        = (Raise (ProjectNotFoundError
             "Missing characters directory: /tmp/test_project/story_data/characters"),
           ExW.w_no_data)) ∧
  (∀ c, CharacterService.update_character ExW.svc c ExW.w_no_data
        = (Raise (ProjectNotFoundError
             "Missing characters directory: /tmp/test_project/story_data/characters"),
           ExW.w_no_data)) ∧
  (∀ name force,
     CharacterService.delete_character ExW.svc name force ExW.w_no_data
        = (Raise (ProjectNotFoundError
             "Missing characters directory: /tmp/test_project/story_data/characters"),
           ExW.w_no_data)) ∧
  (∀ role_filter,
     CharacterService.list_characters ExW.svc role_filter ExW.w_no_data
        = (Raise (ProjectNotFoundError
             "Missing characters directory: /tmp/test_project/story_data/characters"),
           ExW.w_no_data)) ∧
  (∀ name,
     CharacterService.get_relationship_dependencies ExW.svc name ExW.w_no_data
        = (Raise (ProjectNotFoundError
             "Missing characters directory: /tmp/test_project/story_data/characters"),
           ExW.w_no_data)) ∧
  CharacterService.rebuild_index ExW.svc ExW.w_no_data
        = (Raise (ProjectNotFoundError
             "Missing characters directory: /tmp/test_project/story_data/characters"),
           ExW.w_no_data) ∧
  (∀ name, CharacterService.character_exists ExW.svc name ExW.w_no_data
           = (Ok false, ExW.w_no_data)).
Proof.
  apply (services_require_project ExW.svc ExW.w_no_data).
  vm_compute. reflexivity.
Defined.

(** ** The index and the directories *)

(** X19. [character_exists] reads the index only: in a project whose
    index loads, it answers whether [get_entry] finds the name there,
    whatever the character directories hold. *)
Theorem character_exists_reads_index (self : CharacterService.t)
    (name : string) (w : World) (index : CharacterIndex.t) :
  fst (CharacterService._validate_project self w) = Ok tt →
  fst (CharacterService._load_index self w) = Ok index →
  CharacterService.character_exists self name w
    = (Ok (bool_decide (is_Some (CharacterIndex.get_entry name index))), w).
Proof.
  intros Hv Hi. unfold CharacterService.character_exists, try_except.
  rewrite (bind_Ok _ _ _ _ _ (validate_project_run _ _ Hv)).
  by rewrite (bind_Ok _ _ _ _ _ (load_index_run _ _ _ Hi)).
Qed.

Lemma character_exists_reads_index_witness :
  CharacterService.character_exists ExW.svc "BOB" ExW.w_bob_absent
    = (Ok (bool_decide
             (is_Some (CharacterIndex.get_entry "BOB" ExW.index_alex_bob))),
       ExW.w_bob_absent).
Proof.
  apply (character_exists_reads_index ExW.svc "BOB" ExW.w_bob_absent
           ExW.index_alex_bob).
  - vm_compute. reflexivity.
  - vm_compute. reflexivity.
Defined.

(** X20. [create_character] looks at the directory only: when the
    directory of the sanitized name exists it raises
    [CharacterExistsError] with the character's name and changes nothing,
    whether or not the index lists the character. *)
Theorem create_character_existing_directory (self : CharacterService.t)
    (character : Character.t) (w : World) :
  let name := CharacterBasics.name (Character.basics character) in
  fst (CharacterService._validate_project self w) = Ok tt →
  Path.exists_in (files w) (CharacterService._get_character_dir self name)
    = true →
  CharacterService.create_character self character w
    = (Raise (CharacterExistsError name), w).
Proof.
  intros name Hv Hex. unfold CharacterService.create_character.
  rewrite (bind_Ok _ _ _ _ _ (validate_project_run _ _ Hv)).
  unfold bind, Path.exists_, raise. fold name. by rewrite Hex.
Qed.

Lemma create_character_existing_directory_witness :
  CharacterService.create_character ExW.svc Ex.alex ExW.w_to_repair
    = (Raise (CharacterExistsError "Alex Chen"), ExW.w_to_repair).
Proof.
  apply (create_character_existing_directory ExW.svc Ex.alex ExW.w_to_repair).
  - vm_compute. reflexivity.
  - vm_compute. reflexivity.
Defined.

(** ** Characters that are not there *)

(** X21. [update_character] never creates a record: when there is no
    record file under the sanitized name and none where the index entry of
    the name points, it raises [CharacterNotFoundError] and changes
    nothing. *)
Theorem update_character_absent (self : CharacterService.t)
    (character : Character.t) (w : World) (index : CharacterIndex.t) :
  let name := CharacterBasics.name (Character.basics character) in
  fst (CharacterService._validate_project self w) = Ok tt →
  fst (CharacterService._load_index self w) = Ok index →
  Path.exists_in (files w) (CharacterService._get_character_file self name)
    = false →
  (∀ entry, CharacterIndex.get_entry name index = Some entry →
            Path.exists_in (files w)
              (CharacterService.project_path self
                 </> CharacterService.STORY_DATA_DIR
                 </> CharacterIndexEntry.path entry
                 </> CharacterService.DESCRIPTION_FILE) = false) →
  CharacterService.update_character self character w
    = (Raise (CharacterNotFoundError name), w).
Proof.
  intros name Hv Hi Hfile Hentry. unfold CharacterService.update_character.
  rewrite (bind_Ok _ _ _ _ _ (validate_project_run _ _ Hv)).
  fold name. unfold bind at 1. unfold Path.exists_ at 1. rewrite Hfile.
  cbn [negb]. unfold bind at 1.
  rewrite (bind_Ok _ _ _ _ _ (load_index_run _ _ _ Hi)).
  destruct (CharacterIndex.get_entry name index) as [entry|] eqn:He.
  - unfold bind, Path.exists_, raise. by rewrite (Hentry entry eq_refl).
  - unfold bind, Path.exists_, raise. by rewrite Hfile.
Qed.

Lemma update_character_absent_witness :
  CharacterService.update_character ExW.svc Ex.bob ExW.w_bob_absent
    = (Raise (CharacterNotFoundError "Bob"), ExW.w_bob_absent).
Proof.
  apply (update_character_absent ExW.svc Ex.bob ExW.w_bob_absent
           ExW.index_alex_bob).
  - vm_compute. reflexivity.
  - vm_compute. reflexivity.
  - vm_compute. reflexivity.
  - intros entry Hentry. vm_compute in Hentry. injection Hentry as <-.
    vm_compute. reflexivity.
Defined.

(** X22. [delete_character] of a character that has no directory, neither
    under the sanitized name nor where its index entry points, raises
    [CharacterNotFoundError] and changes nothing, with or without
    [force]. *)
Theorem delete_character_absent (self : CharacterService.t) (name : string)
    (force : bool) (w : World) (index : CharacterIndex.t) :
  fst (CharacterService._validate_project self w) = Ok tt →
  fst (CharacterService._load_index self w) = Ok index →
  Path.exists_in (files w) (CharacterService._get_character_dir self name)
    = false →
  (∀ entry, CharacterIndex.get_entry name index = Some entry →
            Path.exists_in (files w)
              (CharacterService.project_path self
                 </> CharacterService.STORY_DATA_DIR
                 </> CharacterIndexEntry.path entry) = false) →
  CharacterService.delete_character self name force w
    = (Raise (CharacterNotFoundError name), w).
Proof.
  intros Hv Hi Hdir Hentry. unfold CharacterService.delete_character.
  rewrite (bind_Ok _ _ _ _ _ (validate_project_run _ _ Hv)).
  unfold bind at 1. unfold Path.exists_ at 1. rewrite Hdir.
  cbn [negb]. unfold bind at 1.
  rewrite (bind_Ok _ _ _ _ _ (load_index_run _ _ _ Hi)).
  destruct (CharacterIndex.get_entry name index) as [entry|] eqn:He.
  - unfold bind, Path.exists_, raise. by rewrite (Hentry entry eq_refl).
  - unfold bind, Path.exists_, raise. by rewrite Hdir.
Qed.

Lemma delete_character_absent_witness :
  CharacterService.delete_character ExW.svc "Bob" true ExW.w_bob_absent
    = (Raise (CharacterNotFoundError "Bob"), ExW.w_bob_absent).
Proof.
  apply (delete_character_absent ExW.svc "Bob" true ExW.w_bob_absent
           ExW.index_alex_bob).
  - vm_compute. reflexivity.
  - vm_compute. reflexivity.
  - vm_compute. reflexivity.
  - intros entry Hentry. vm_compute in Hentry. injection Hentry as <-.
    vm_compute. reflexivity.
Defined.

(** ** Reading back a created character *)

Lemma make_dirs_preserves (qs : list Path) (fs fs' : gmap Path node)
    (q : Path) (n : node) :
  Path.make_dirs qs fs = Some fs' →
  Path.node_at fs q = Some n → Path.node_at fs' q = Some n.
Proof.
  revert fs. induction qs as [|p qs IH]; intros fs; simpl.
  { by intros [= <-]. }
  destruct (Path.node_at fs p) as [[|t]|] eqn:Hp; [apply IH|done|].
  intros H Hq. apply (IH _ H).
  rewrite node_at_insert_ne; [done|by destruct p|congruence].
Qed.

(** The state that a successful [create_character] leaves. *)
Lemma create_character_inv (self : CharacterService.t)
    (character : Character.t) (w w' : World) (dir : Path) :
  CharacterService.create_character self character w = (Ok dir, w') →
  let name := CharacterBasics.name (Character.basics character) in
  let stamped :=
    Character.set_updated_at (clock w)
      (Character.set_created_at (clock w) character) in
  let stored :=
    if negb (opt_truthy (Character.lora_trigger stamped))
    then Character.set_lora_trigger
           (Some (Character.generate_lora_trigger stamped)) stamped
    else stamped in
  let entry :=
    CharacterIndexEntry.mk name
      (CharacterBasics.role (Character.basics stored))
      (CharacterBasics.age (Character.basics stored))
      (CharacterService.CHARACTERS_DIR +:+ "/" +:+ Path.name dir)
      (clock w) in
  dir = CharacterService._get_character_dir self name ∧
  fst (CharacterService._validate_project self w) = Ok tt ∧
  ∃ fs index,
    Path.make_dirs (Path.ancestors dir) (files w) = Some fs ∧
    dir ≠ [] ∧
    w' = mkWorld
           (<[CharacterService._index_path self
                := File (IndexJson (CharacterIndex.add_entry entry index))]>
              (<[dir </> CharacterService.DESCRIPTION_FILE
                   := File (CharacterJson stored)]>
                 (<[dir := Dir]> fs)))
           (clock w + 1) (cwd w).
Proof.
  unfold CharacterService.create_character. intros H.
  minv H. pose proof Hstep as Hv.
  apply (read_only_inv _ _ _ _ (read_only_validate_project self))
    in Hstep as ->.
  destruct a. apply (f_equal fst) in Hv. simpl in Hv.
  minv H. injection Hstep as <- <-.
  destruct (Path.exists_in _ _) eqn:Hex; [done|].
  minv H. apply mkdir_parents_inv in Hstep as (Hne & _ & fs & Hmk & ->).
  minv H. injection Hstep as <- <-.
  minv H. apply write_text_inv in Hstep as (Hf & ->).
  minv H. apply (read_only_inv _ _ _ _ (read_only_load_index self))
    in Hstep as ->.
  minv H. apply write_text_inv in Hstep as (Hi & ->).
  injection H as <- <-.
  split; [done|]. split; [done|].
  match goal with index : CharacterIndex.t |- _ => by exists fs, index end.
Qed.

(** The record that [create_character] writes for a validated record is
    itself validated. *)
Lemma created_record_valid (c : Character.t) (ts : Z) :
  Character.model_validate c = Ok c →
  let stamped := Character.set_updated_at ts (Character.set_created_at ts c) in
  let stored :=
    if negb (opt_truthy (Character.lora_trigger stamped))
    then Character.set_lora_trigger
           (Some (Character.generate_lora_trigger stamped)) stamped
    else stamped in
  Character.model_validate stored = Ok stored.
Proof.
  intros (Hb & Ha & Hp & Hs & Hrs & Hl)%model_validate_fixed. cbv zeta.
  apply model_validate_fixed.
  pose proof (basics_name_nonempty _ Hb) as Hname.
  destruct c as [b a p s rs l ca ua]; simpl in *.
  destruct (opt_truthy l) eqn:Hlt; simpl; repeat split; try done.
  - unfold Character.update_lora_trigger in *. simpl in *.
    rewrite Hlt in *. simpl in *. by destruct a.
  - unfold Character.update_lora_trigger. simpl.
    destruct a as [a|]; [|done].
    by rewrite generate_lora_trigger_truthy.
Qed.

(** X23. A created character can be read back under any spelling of its
    name that differs in case only: after [create_character] has returned
    for a validated record, [get_character] returns the record as stored
    (both timestamps the time of creation, the trigger filled in when it
    was missing) and does not change the state. *)
Theorem create_then_get_character (self : CharacterService.t)
    (character : Character.t) (w w' : World) (dir : Path) (name' : string) :
  let name := CharacterBasics.name (Character.basics character) in
  let stamped :=
    Character.set_updated_at (clock w)
      (Character.set_created_at (clock w) character) in
  let stored :=
    if negb (opt_truthy (Character.lora_trigger stamped))
    then Character.set_lora_trigger
           (Some (Character.generate_lora_trigger stamped)) stamped
    else stamped in
  Character.model_validate character = Ok character →
  CharacterService.create_character self character w = (Ok dir, w') →
  Str.lower name' = Str.lower name →
  CharacterService.get_character self name' w' = (Ok stored, w').
Proof.
  intros name stamped stored Hvalid Hcreate Hlower.
  pose proof (create_character_stored _ _ _ _ _ Hcreate) as (_ & _ & Hfile).
  apply create_character_inv in Hcreate
    as (Hdir & Hv & fs & index & Hmk & Hne & Hw').
  fold name in Hdir, Hw'. fold stamped in Hw'. fold stored in Hw', Hfile.
  pose proof (valid_name_clean _ (validated_record_name _ Hvalid)) as Hclean.
  fold name in Hclean.
  eapply (get_character_stored self w' _ name').
  - apply validate_project_iff.
    apply validate_project_iff in Hv as [Hp Hc].
    assert (Hkept : ∀ q, Path.exists_in (files w) q = true →
                         Path.exists_in (files w') q = true).
    { intros q Hq. rewrite Hw'. simpl files.
      apply exists_after_insert; [by rewrite index_path_eq; destruct
        (CharacterService.project_path self)|].
      apply exists_after_insert.
      { rewrite joinpath_literal by reflexivity. by destruct dir. }
      apply exists_after_insert; [done|].
      unfold Path.exists_in in *.
      destruct (Path.node_at (files w) q) as [n|] eqn:Hn; [|done].
      by rewrite (make_dirs_preserves _ _ _ _ _ Hmk Hn). }
    split; by apply Hkept.
  - apply load_index_of_node. rewrite Hw'. simpl files.
    apply node_at_insert_eq.
    rewrite index_path_eq. by destruct (CharacterService.project_path self).
  - by apply get_entry_add_same.
  - simpl CharacterIndexEntry.path. rewrite Hdir.
    rewrite (entry_path_resolves self name Hclean). rewrite <-Hdir.
    exact Hfile.
  - by apply created_record_valid.
Qed.

Lemma create_then_get_character_witness :
  CharacterService.get_character ExW.svc "ALEX CHEN"
    (snd (CharacterService.create_character ExW.svc
            (ExW.stored Ex.alex) ExW.w_fresh))
  = (Ok (ExW.stored Ex.alex),
     snd (CharacterService.create_character ExW.svc
            (ExW.stored Ex.alex) ExW.w_fresh)).
Proof.
  apply (create_then_get_character ExW.svc (ExW.stored Ex.alex) ExW.w_fresh
           (snd (CharacterService.create_character ExW.svc
                   (ExW.stored Ex.alex) ExW.w_fresh))
           (ExW.character_dir "alex_chen") "ALEX CHEN").
  - vm_compute. reflexivity.
  - vm_compute. reflexivity.
  - vm_compute. reflexivity.
Defined.

(** ** What an update writes *)

(** X24. [update_character] on a stored character writes the record with
    [updated_at] set to the time of the call and, when the record has an
    appearance, with the trigger generated anew, whatever trigger the
    caller supplied; without an appearance the caller's trigger stays. The
    index then lists the character under the given name with the new
    timestamp. *)
Theorem update_character_rewrites_record (self : CharacterService.t)
    (character : Character.t) (w : World) (index : CharacterIndex.t)
    (old : content) :
  let name := CharacterBasics.name (Character.basics character) in
  let file := CharacterService._get_character_file self name in
  fst (CharacterService._validate_project self w) = Ok tt →
  Path.node_at (files w) file = Some (File old) →
  Path.node_at (files w) (CharacterService._get_character_dir self name)
    = Some Dir →
  Path.node_at (files w) (CharacterService._index_path self)
    = Some (File (IndexJson index)) →
  Path.is_dir_in (files w)
    (CharacterService.project_path self </> CharacterService.STORY_DATA_DIR)
    = true →
  let w' := snd (CharacterService.update_character self character w) in
  let trigger :=
    match Character.appearance character with
    | Some _ =>
        Some (Character.generate_lora_trigger
                (Character.set_updated_at (clock w) character))
    | None => Character.lora_trigger character
    end in
  fst (CharacterService.update_character self character w) = Ok tt ∧
  Path.node_at (files w') file
    = Some (File (CharacterJson
        (Character.set_lora_trigger trigger
           (Character.set_updated_at (clock w) character)))) ∧
  ∃ index' entry,
    fst (CharacterService._load_index self w') = Ok index' ∧
    CharacterIndex.get_entry name index' = Some entry ∧
    CharacterIndexEntry.name entry = name ∧
    CharacterIndexEntry.role entry
      = CharacterBasics.role (Character.basics character) ∧
    CharacterIndexEntry.updated_at entry = clock w.
Proof.
  intros name file Hv Hfile Hdir Hindex Hdata w'.
  pose proof (update_character_run self character w index old
                Hv Hfile Hdir Hindex Hdata) as Hrun.
  cbv zeta in Hrun. fold name file in Hrun.
  unfold w'. rewrite Hrun. cbn [fst snd].
  split; [done|]. split.
  - simpl files.
    rewrite node_at_insert_ne.
    + rewrite node_at_insert_eq by (by apply file_nonempty in Hfile).
      do 3 f_equal. by destruct character as [b [a|] p s rs l ca ua].
    + rewrite index_path_eq.
      by destruct (CharacterService.project_path self).
    + apply character_file_ne_index.
  - eexists _, _. split_and!.
    + apply load_index_of_node. simpl files. apply node_at_insert_eq.
      rewrite index_path_eq. by destruct (CharacterService.project_path self).
    + by apply get_entry_add_same.
    + done.
    + simpl. by destruct (Character.appearance _).
    + simpl. by destruct (Character.appearance _).
Qed.

Lemma update_character_rewrites_record_witness :
  fst (CharacterService.update_character ExW.svc
         (Character.set_lora_trigger (Some "custom") Ex.alex) ExW.w_alex_bob)
    = Ok tt ∧
  Path.node_at
    (files (snd (CharacterService.update_character ExW.svc
                   (Character.set_lora_trigger (Some "custom") Ex.alex)
                   ExW.w_alex_bob)))
    (CharacterService._get_character_file ExW.svc "Alex Chen")
    = Some (File (CharacterJson
        (Character.set_lora_trigger
           (Some "alex_chen, black_hair, brown_eyes")
           (Character.set_updated_at 3
              (Character.set_lora_trigger (Some "custom") Ex.alex))))) ∧
  ∃ index' entry,
    fst (CharacterService._load_index ExW.svc
           (snd (CharacterService.update_character ExW.svc
                   (Character.set_lora_trigger (Some "custom") Ex.alex)
                   ExW.w_alex_bob))) = Ok index' ∧
    CharacterIndex.get_entry "Alex Chen" index' = Some entry ∧
    CharacterIndexEntry.name entry = "Alex Chen" ∧
    CharacterIndexEntry.role entry = PROTAGONIST ∧
    CharacterIndexEntry.updated_at entry = 3.
Proof.
  apply (update_character_rewrites_record ExW.svc
           (Character.set_lora_trigger (Some "custom") Ex.alex)
           ExW.w_alex_bob ExW.index_alex_bob
           (CharacterJson (ExW.stored Ex.alex))).
  - vm_compute. reflexivity.
  - vm_compute. reflexivity.
  - vm_compute. reflexivity.
  - vm_compute. reflexivity.
  - vm_compute. reflexivity.
Defined.

(** ** Listing with a role filter *)

Lemma for_each_ext {A B} (l : list A) (acc : B) (body body' : B → A → M B)
    (w : World) :
  (∀ acc x w, body acc x w = body' acc x w) →
  for_each l acc body w = for_each l acc body' w.
Proof.
  intros H. revert acc w. induction l as [|x l IH]; intros acc w; simpl;
    [done|].
  unfold bind. rewrite H. destruct (body' acc x w) as [[acc'|e] w1]; [|done].
  apply IH.
Qed.

(** X25. A role filter that names no role is no filter: when the
    lower-cased filter is not the value of a [CharacterRole],
    [list_characters] does what it does without a filter. *)
Theorem list_characters_unknown_role (self : CharacterService.t)
    (role : string) (w : World) :
  CharacterRole_of_value (Str.lower role) = None →
  CharacterService.list_characters self (Some role) w
  = CharacterService.list_characters self None w.
Proof.
  intros Hrole. unfold CharacterService.list_characters, bind.
  destruct (CharacterService._validate_project self w) as [[[]|e] w1]; [|done].
  destruct (CharacterService._load_index self w1) as [[index|e] w2]; [|done].
  apply for_each_ext. intros acc entry w3.
  unfold CharacterService.role_filtered_out. simpl. rewrite Hrole.
  by destruct (Str.truthy role).
Qed.

Lemma list_characters_unknown_role_witness :
  CharacterService.list_characters ExW.svc (Some "hero") ExW.w_alex_bob
  = CharacterService.list_characters ExW.svc None ExW.w_alex_bob.
Proof.
  apply (list_characters_unknown_role ExW.svc "hero" ExW.w_alex_bob).
  vm_compute. reflexivity.
Defined.

Section Filtered.
Context (self : CharacterService.t) (role : string) (r : CharacterRole).
Hypothesis Hrole : CharacterRole_of_value (Str.lower role) = Some r.

Let has_role (s : CharacterSummary) : bool :=
  String.eqb (summary_role s) (CharacterRole_value r).

Let body (role_filter : option string) (result : list CharacterSummary)
    (entry : CharacterIndexEntry.t) : M (list CharacterSummary) :=
  if CharacterService.role_filtered_out role_filter entry then ret result else
  let! completion :=
    try_except
      (let! character :=
         CharacterService.get_character self (CharacterIndexEntry.name entry) in
       ret (Character.get_completion_percentage character))
      (λ e, match e with
            | CharacterNotFoundError _ => Some (ret 0)
            | _ => None
            end) in
  ret (result ++
         [mkSummary (CharacterIndexEntry.name entry)
            (CharacterRole_value (CharacterIndexEntry.role entry))
            (CharacterIndexEntry.age entry)
            completion]).

Lemma role_truthy : Str.truthy role = true.
Proof. destruct role; [done|done]. Qed.

Lemma filtered_out_role (entry : CharacterIndexEntry.t) :
  CharacterService.role_filtered_out (Some role) entry
  = negb (String.eqb (CharacterRole_value (CharacterIndexEntry.role entry))
                     (CharacterRole_value r)).
Proof.
  unfold CharacterService.role_filtered_out. simpl.
  by rewrite role_truthy, Hrole.
Qed.

Lemma filtered_loop (l : list CharacterIndexEntry.t)
    (acc res : list CharacterSummary) (w w' : World) :
  for_each l acc (body None) w = (Ok res, w') →
  for_each l (List.filter has_role acc) (body (Some role)) w
  = (Ok (List.filter has_role res), w').
Proof.
  revert acc w. induction l as [|e l IH]; intros acc w; simpl.
  { by intros [= <- <-]. }
  intros H. minv H. rename a into acc1.
  unfold body at 1 in Hstep.
  change (CharacterService.role_filtered_out None e) with false in Hstep.
  cbv iota in Hstep. minv Hstep. rename a into completion.
  injection Hstep as <- <-.
  assert (w1 = w) as ->.
  { eapply read_only_inv; [|exact Hstep0]. apply read_only_try_except.
    - apply read_only_bind; [apply read_only_get_character|].
      intros; apply read_only_ret.
    - intros ex h. destruct ex; intros [= <-]. apply read_only_ret. }
  apply IH in H.
  match type of H with
  | for_each _ (List.filter _ ?a) _ _ = _ =>
      rewrite (bind_Ok _ _ w (List.filter has_role a) w); [exact H|]
  end.
  unfold body. rewrite filtered_out_role.
  rewrite List.filter_app. cbn [List.filter].
  destruct (String.eqb (CharacterRole_value (CharacterIndexEntry.role e))
                       (CharacterRole_value r)) eqn:Heq; cbn [negb].
  - rewrite (bind_Ok _ _ _ _ _ Hstep0). unfold ret, has_role.
    cbn [summary_role]. by rewrite Heq.
  - unfold ret, has_role. cbn [summary_role]. rewrite Heq. cbv iota.
    by rewrite app_nil_r.
Qed.

End Filtered.

(** X26. A role filter selects from the unfiltered listing: when the
    lower-cased filter is the value of a role and the listing without a
    filter returns, the listing with the filter returns the summaries of
    that role, in the same order. *)
Theorem list_characters_filters_by_role (self : CharacterService.t)
    (role : string) (r : CharacterRole) (w w' : World)
    (l : list CharacterSummary) :
  CharacterRole_of_value (Str.lower role) = Some r →
  CharacterService.list_characters self None w = (Ok l, w') →
  CharacterService.list_characters self (Some role) w
  = (Ok (List.filter
           (λ s, String.eqb (summary_role s) (CharacterRole_value r)) l),
     w').
Proof.
  intros Hrole. unfold CharacterService.list_characters. intros H.
  minv H. rewrite (bind_Ok _ _ _ _ _ Hstep).
  minv H. rewrite (bind_Ok _ _ _ _ _ Hstep0).
  by apply (filtered_loop self role r Hrole _ []).
Qed.

Lemma list_characters_filters_by_role_witness :
  CharacterService.list_characters ExW.svc (Some "Protagonist") ExW.w_alex_bob
  = (Ok (List.filter
           (λ s, String.eqb (summary_role s) (CharacterRole_value PROTAGONIST))
           [ mkSummary "Alex Chen" "protagonist" None 40;
             mkSummary "Bob" "supporting" None 40 ]),
     ExW.w_alex_bob).
Proof.
  apply (list_characters_filters_by_role ExW.svc "Protagonist" PROTAGONIST
           ExW.w_alex_bob ExW.w_alex_bob).
  - vm_compute. reflexivity.
  - vm_compute. reflexivity.
Defined.

(** ** The dependents that are reported *)

Section Returned.
Context (self : CharacterService.t) (w : World) (name : string).

Let body (dependencies : list string) (entry : CharacterIndexEntry.t)
  : M (list string) :=
  if String.eqb (Str.lower (CharacterIndexEntry.name entry)) (Str.lower name)
  then ret dependencies
  else
    try_except
      (let! character :=
         CharacterService.get_character self (CharacterIndexEntry.name entry) in
       if existsb (CharacterService.targets name)
                  (Character.relationships character)
       then ret (dependencies ++ [CharacterIndexEntry.name entry])
       else ret dependencies)
      (λ e, match e with
            | CharacterNotFoundError _ => Some (ret dependencies)
            | _ => None
            end).

Lemma returned_body (acc acc' : list string) (e : CharacterIndexEntry.t)
    (w' : World) :
  body acc e w = (Ok acc', w') →
  w' = w ∧
  (Store.same_name (CharacterIndexEntry.name e) name = true ∨
   Store.readable_or_absent self w e).
Proof.
  unfold body, Store.same_name, Store.readable_or_absent.
  destruct (String.eqb (Str.lower (CharacterIndexEntry.name e))
                       (Str.lower name)) eqn:Hsame.
  { intros [= _ <-]. by split; [|left]. }
  unfold try_except, bind. rewrite get_character_run.
  destruct (Store.record self w e) as [c|ex]; simpl.
  - destruct (existsb _ _); intros [= _ <-]; by split; [|right].
  - destruct ex; try done. intros [= _ <-]. by split; [|right].
Qed.

Lemma returned_loop (l : list CharacterIndexEntry.t) (acc res : list string)
    (w' : World) :
  for_each l acc body w = (Ok res, w') →
  Forall (λ e, Store.same_name (CharacterIndexEntry.name e) name = true ∨
               Store.readable_or_absent self w e) l.
Proof.
  revert acc. induction l as [|e l IH]; intros acc; simpl; [done|].
  intros H. minv H. apply returned_body in Hstep as [-> He].
  apply Forall_cons. split; [done|]. by apply (IH a).
Qed.

End Returned.

(** X27. Whenever [get_relationship_dependencies] returns, the index
    loads and the result is exactly the names of the indexed characters,
    other than the character itself, whose records hold a relationship
    targeting the name case-insensitively, in index order; in particular
    the character is never among its own dependents. *)
Theorem dependencies_when_returned (self : CharacterService.t)
    (name : string) (w : World) (deps : list string) :
  fst (CharacterService.get_relationship_dependencies self name w) = Ok deps →
  ∃ index,
    fst (CharacterService._load_index self w) = Ok index ∧
    deps = Store.referencing self w name index ∧
    Forall (λ d, Str.lower d ≠ Str.lower name) deps.
Proof.
  intros H.
  destruct (CharacterService.get_relationship_dependencies self name w)
    as [r w'] eqn:Hrun.
  simpl in H. subst r. pose proof Hrun as Hrun'.
  unfold CharacterService.get_relationship_dependencies in Hrun.
  minv Hrun. destruct a. pose proof Hstep as Hv.
  apply (read_only_inv _ _ _ _ (read_only_validate_project self))
    in Hstep as ->.
  minv Hrun. rename a into index. pose proof Hstep as Hi.
  apply (read_only_inv _ _ _ _ (read_only_load_index self)) in Hstep as ->.
  apply (f_equal fst) in Hv, Hi. simpl in Hv, Hi.
  exists index. split; [done|].
  apply returned_loop in Hrun.
  rewrite (get_relationship_dependencies_run self w name index Hv Hi Hrun)
    in Hrun'.
  injection Hrun' as <- _. split; [done|].
  unfold Store.referencing. apply Forall_forall. intros d Hd.
  apply list_elem_of_In, in_map_iff in Hd as (e & <- & He).
  apply filter_In in He as [_ He]. unfold Store.references in He.
  apply andb_true_iff in He as [He _].
  apply negb_true_iff in He. unfold Store.same_name in He.
  by apply String.eqb_neq in He.
Qed.

Lemma dependencies_when_returned_witness :
  ∃ index,
    fst (CharacterService._load_index ExW.svc ExW.w_alex_bob) = Ok index ∧
    ["Bob"] = Store.referencing ExW.svc ExW.w_alex_bob "Alex Chen" index ∧
    Forall (λ d, Str.lower d ≠ Str.lower "Alex Chen") ["Bob"].
Proof.
  apply (dependencies_when_returned ExW.svc "Alex Chen" ExW.w_alex_bob
           ["Bob"]).
  vm_compute. reflexivity.
Defined.

(** ** The summary of a project *)

Lemma count_directories (fs : gmap Path node) (ds : list Path) (n : nat)
    (w : World) :
  files w = fs →
  for_each ds n (λ n d, let! b := Path.is_dir d in
                        ret (if b then S n else n)) w
  = (Ok (n + length (List.filter (Path.is_dir_in fs) ds))%nat, w).
Proof.
  intros <-. revert n. induction ds as [|d ds IH]; intros n; simpl.
  - by rewrite Nat.add_0_r.
  - unfold bind at 1. unfold bind at 1. unfold Path.is_dir at 1.
    unfold ret at 1. rewrite IH.
    destruct (Path.is_dir_in (files w) d); simpl; do 2 f_equal; lia.
Qed.

(** X28. In a project that opens, [get_project_summary] reports the
    fields of the opened record and counts the characters from the text of
    the index file, not from the directories: the entries of an index, 0
    for another JSON object, and only for text that is not JSON the
    directories under [story_data/characters]. The state is not changed
    (as far as reading the modification time does not change it). *)
Theorem project_summary_counts (st_mtime : Path → M Z) (path : Path)
    (w : World) (project : Project.t) (text : content) (t : Z) :
  fst (ProjectService.open_project (Some path) w) = Ok project →
  Path.node_at (files w)
    (path </> ProjectService.STORY_DATA_DIR
       </> ProjectService.CHARACTERS_INDEX) = Some (File text) →
  Path.node_at (files w)
    (path </> ProjectService.STORY_DATA_DIR </> ProjectService.CHARACTERS_DIR)
    = Some Dir →
  st_mtime (path </> ProjectService.STORY_JSON) w = (Ok t, w) →
  ProjectService.get_project_summary st_mtime path w
  = (Ok (ProjectService.mkProjectSummary
           (Project.name project) (Project.genre project)
           (Project.synopsis project)
           match text with
           | IndexJson i => length (CharacterIndex.characters i)
           | ProjectJson _ | CharacterJson _ => 0%nat
           | NotJson _ =>
               length
                 (List.filter (Path.is_dir_in (files w))
                    (Path.children (files w)
                       (path </> ProjectService.STORY_DATA_DIR
                          </> ProjectService.CHARACTERS_DIR)))
           end
           t),
     w).
Proof.
  intros Hopen Hindex Hchars Htime.
  unfold ProjectService.get_project_summary.
  rewrite (bind_Ok _ _ w project w).
  2:{ rewrite (read_only_run _ w (read_only_open_project (Some path))).
      by rewrite Hopen. }
  unfold bind at 1. unfold Path.exists_ at 1.
  rewrite (exists_of_node _ _ _ Hindex).
  assert (Hcount :
    try_except
      (let! text := Path.read_text
                      (path </> ProjectService.STORY_DATA_DIR
                         </> ProjectService.CHARACTERS_INDEX) in
       lift (ProjectService.json_loads_characters text))
      (λ e, match e with
            | JSONDecodeError _ =>
                Some
                  (let characters_dir :=
                     path </> ProjectService.STORY_DATA_DIR
                       </> ProjectService.CHARACTERS_DIR in
                   let! ex := Path.exists_ characters_dir in
                   if ex then
                     let! ds := Path.iterdir characters_dir in
                     for_each ds 0%nat
                       (λ n d, let! b := Path.is_dir d in
                               ret (if b then S n else n))
                   else ret 0%nat)
            | _ => None
            end) w
    = (Ok match text with
          | IndexJson i => length (CharacterIndex.characters i)
          | ProjectJson _ | CharacterJson _ => 0%nat
          | NotJson _ =>
              length
                (List.filter (Path.is_dir_in (files w))
                   (Path.children (files w)
                      (path </> ProjectService.STORY_DATA_DIR
                         </> ProjectService.CHARACTERS_DIR)))
          end, w)).
  { unfold try_except, bind at 1, Path.read_text, lift. rewrite Hindex.
    destruct text as [p|c|i|msg]; try done. simpl.
    unfold bind at 1. unfold Path.exists_ at 1.
    rewrite (exists_of_node _ _ _ Hchars).
    unfold bind at 1. unfold Path.iterdir at 1.
    rewrite (is_dir_of_node _ _ Hchars).
    by rewrite (count_directories (files w)). }
  cbv zeta in Hcount. cbv zeta. unfold bind at 1. rewrite Hcount.
  unfold bind at 1. by rewrite Htime.
Qed.

Lemma project_summary_counts_witness :
  ProjectService.get_project_summary (λ _, ret 7) ExW.project ExW.w_bob_absent
  = (Ok (ProjectService.mkProjectSummary "Test Project" "fantasy"
           "A test story" 2 7),
     ExW.w_bob_absent).
Proof.
  apply (project_summary_counts (λ _, ret 7) ExW.project ExW.w_bob_absent
           ExW.story (IndexJson ExW.index_alex_bob) 7).
  - vm_compute. reflexivity.
  - vm_compute. reflexivity.
  - vm_compute. reflexivity.
  - reflexivity.
Defined.

(** ** The genre that the wizard works with *)

Lemma open_project_validated (path : option Path) (w : World)
    (p : Project.t) :
  fst (ProjectService.open_project path w) = Ok p →
  ∃ name genre synopsis ts,
    Project.model_validate name genre synopsis ts = Ok p.
Proof.
  destruct (ProjectService.open_project path w) as [r w'] eqn:H.
  simpl. intros ->. unfold ProjectService.open_project in H.
  minv H. minv H. destruct a0 as [ok errors]. minv H. minv H.
  unfold lift in H. injection H as H _.
  destruct a1 as [p0| | |]; try done. simpl in H. eauto.
Qed.

(** X29. [_get_genre] never raises and does not change the state: it
    answers the genre of the project in the working directory when that
    project opens and ["general"] otherwise, and either way a non-empty,
    trimmed, lower-case string. *)
Theorem get_genre_never_raises (w : World) :
  ∃ genre,
    _get_genre w = (Ok genre, w) ∧
    genre = match fst (ProjectService.open_project (Some (cwd w)) w) with
            | Ok project => Project.genre project
            | Raise _ => "general"
            end ∧
    Str.truthy genre = true ∧
    Str.lower (Str.strip genre) = genre.
Proof.
  unfold _get_genre, try_except.
  rewrite (bind_Ok _ _ w (cwd w) w) by done.
  unfold bind.
  rewrite (read_only_run _ w (read_only_open_project (Some (cwd w)))).
  destruct (fst (ProjectService.open_project (Some (cwd w)) w))
    as [p|e] eqn:Hopen.
  - eexists. split; [reflexivity|]. split; [done|].
    apply open_project_validated in Hopen as (n & g & s & ts & Hvalid).
    apply project_model_validate_inv in Hvalid as (_ & Hg & _ & _ & Ht & _).
    split; [done|].
    by rewrite Hg, strip_lower, strip_idem, lower_idem.
  - by exists "general".
Qed.

(** ** Deleting a character that nobody references *)

(** X30. In a consistent project, deleting a character that no other
    indexed character references returns the empty list with or without
    [force], removes the character directory with everything under it,
    stores the index without the entry of that name, touches nothing else,
    and [get_character] of the name then raises
    [CharacterNotFoundError]. *)
Theorem delete_unreferenced_character (self : CharacterService.t) (w : World)
    (name : string) (force : bool) (index : CharacterIndex.t)
    (Hconsistent : Cleanup.consistent self w name index)
    (Hfree : Store.referencing self w name index = []) :
  ∃ w',
    CharacterService.delete_character self name force w = (Ok [], w') ∧
    (∀ p, CharacterService._get_character_dir self name `prefix_of` p →
          Path.node_at (files w') p = None) ∧
    fst (CharacterService._load_index self w')
      = Ok (fst (CharacterIndex.remove_entry name index)) ∧
    (∀ p, ¬ CharacterService._get_character_dir self name `prefix_of` p →
          p ≠ CharacterService._index_path self →
          Path.node_at (files w') p = Path.node_at (files w) p) ∧
    fst (CharacterService.get_character self name w')
      = Raise (CharacterNotFoundError name).
Proof.
  pose proof Hconsistent
    as [Hv Hdata Hindex Hunique Hrecords Hcname Hdir Hsep].
  pose proof (valid_name_clean _ Hcname) as Hclean.
  set (dir := CharacterService._get_character_dir self name) in *.
  set (fs2 := filter (λ kv : Path * node, ¬ dir `prefix_of` kv.1) (files w)).
  set (index' := fst (CharacterIndex.remove_entry name index)).
  set (w' := set_files (<[CharacterService._index_path self
                            := File (IndexJson index')]> fs2) w).
  assert (Hidx2 : Path.node_at fs2 (CharacterService._index_path self)
                  = Some (File (IndexJson index))).
  { unfold fs2. rewrite node_at_rmtree_outside; [done|].
    by apply index_outside. }
  assert (Hine : CharacterService._index_path self ≠ [])
    by (by eapply file_nonempty).
  assert (Hrun : CharacterService.delete_character self name force w
                 = (Ok [], w')).
  { unfold CharacterService.delete_character.
    rewrite (bind_Ok _ _ _ _ _ (validate_project_run _ _ Hv)).
    cbv zeta. fold dir.
    rewrite (bind_Ok (Path.exists_ dir) _ w _ w eq_refl).
    rewrite (exists_of_node _ _ _ Hdir). cbn [negb].
    rewrite (bind_Ok (ret dir) _ w _ w eq_refl).
    rewrite (bind_Ok _ _ _ _ _
               (get_relationship_dependencies_run self w name index Hv
                  (load_index_of_node _ _ _ Hindex)
                  (consistent_readable _ _ _ _ Hconsistent))).
    rewrite Hfree. cbn [andb negb].
    rewrite (bind_Ok (ret tt) _ w tt w eq_refl).
    assert (Hrm : Path.rmtree dir w = (Ok tt, set_files fs2 w)).
    { unfold Path.rmtree. by rewrite (is_dir_of_node _ _ Hdir). }
    rewrite (bind_Ok _ _ _ _ _ Hrm).
    rewrite (bind_Ok _ _ _ _ _
               (load_index_run _ _ _
                  (load_index_of_node self (set_files fs2 w) _ Hidx2))).
    fold index'.
    unfold CharacterService._save_index, bind, Path.write_text, ret.
    simpl files. rewrite (not_dir_of_file _ _ _ Hidx2), index_parent.
    unfold fs2 at 1. unfold Path.is_dir_in.
    rewrite node_at_rmtree_outside by (by apply data_outside).
    fold (Path.is_dir_in (files w)
            (CharacterService.project_path self
               </> CharacterService.STORY_DATA_DIR)).
    rewrite Hdata. done. }
  assert (Hload' : fst (CharacterService._load_index self w') = Ok index').
  { apply load_index_of_node. simpl. by apply node_at_insert_eq. }
  assert (Hgone : ∀ p, dir `prefix_of` p → Path.node_at (files w') p = None).
  { intros p Hp. simpl. rewrite node_at_insert_ne; [|done|].
    + apply node_at_rmtree_inside; [by apply dir_nonempty|done].
    + intros <-. by apply (index_outside self name Hclean). }
  exists w'. split; [exact Hrun|]. split; [exact Hgone|].
  split; [exact Hload'|]. split.
  - intros p Hout Hne. simpl.
    rewrite node_at_insert_ne by done.
    unfold fs2. by rewrite node_at_rmtree_outside.
  - assert (Hv' : fst (CharacterService._validate_project self w') = Ok tt).
    { apply validate_project_iff. apply validate_project_iff in Hv as [H1 H2].
      simpl. split; apply exists_after_insert; try done.
      * unfold Path.exists_in, fs2.
        rewrite node_at_rmtree_outside by (by apply project_outside). done.
      * unfold Path.exists_in, fs2.
        rewrite node_at_rmtree_outside by (by apply characters_outside).
        done. }
    unfold CharacterService.get_character.
    rewrite (bind_Ok _ _ _ _ _ (validate_project_run _ _ Hv')).
    rewrite (bind_Ok _ _ _ _ _ (load_index_run _ _ _ Hload')).
    cbv zeta. unfold index'. rewrite get_entry_removed.
    rewrite (bind_Ok (ret None) _ w' None w' eq_refl).
    unfold bind, Path.exists_, raise, Path.exists_in.
    rewrite Hgone; [done|].
    unfold CharacterService._get_character_file. fold dir.
    rewrite joinpath_literal by reflexivity. by apply prefix_app_r.
Qed.

Lemma example_consistent_bob :
  Cleanup.consistent ExW.svc ExW.w_alex_bob "Bob" ExW.index_alex_bob.
Proof.
  split.
  - vm_compute. reflexivity.
  - vm_compute. reflexivity.
  - vm_compute. reflexivity.
  - unfold Spec.unique_names.
    eapply (bool_decide_unpack (NoDup _)). vm_compute. exact I.
  - intros e [->|[->|[]%elem_of_nil]%elem_of_cons]%elem_of_cons Hne.
    + exists (ExW.stored Ex.alex). split.
      * vm_compute. reflexivity.
      * vm_compute. reflexivity.
      * vm_compute. reflexivity.
      * vm_compute. reflexivity.
      * reflexivity.
    + vm_compute in Hne. discriminate.
  - vm_compute. reflexivity.
  - vm_compute. reflexivity.
  - intros e [->|[->|[]%elem_of_nil]%elem_of_cons]%elem_of_cons Hne.
    + vm_compute. discriminate.
    + vm_compute in Hne. discriminate.
Defined.

Lemma delete_unreferenced_character_witness :
  ∃ w',
    CharacterService.delete_character ExW.svc "Bob" false ExW.w_alex_bob
      = (Ok [], w') ∧
    Path.node_at (files w') (ExW.character_file "bob") = None ∧
    Path.node_at (files w') (ExW.character_file "alex_chen")
      = Some (File (CharacterJson (ExW.stored Ex.alex))) ∧
    fst (CharacterService._load_index ExW.svc w')
      = Ok (CharacterIndex.mk [ExW.entry "Alex Chen" PROTAGONIST "alex_chen"]) ∧
    fst (CharacterService.get_character ExW.svc "Bob" w')
      = Raise (CharacterNotFoundError "Bob").
Proof.
  destruct (delete_unreferenced_character ExW.svc ExW.w_alex_bob "Bob" false
              ExW.index_alex_bob example_consistent_bob)
    as (w' & Hrun & Hgone & Hload & Hkept & Hget).
  - vm_compute; reflexivity.
  - exists w'. split; [exact Hrun|].
    split; [apply Hgone; exists ["description.json"]; vm_compute;
            reflexivity|].
    split.
    { rewrite Hkept; [vm_compute; reflexivity| |vm_compute; discriminate].
      intros [k Hk]; vm_compute in Hk; discriminate. }
    split; [rewrite Hload; vm_compute; reflexivity|exact Hget].
Defined.
